(** * GPX correction pipeline: sampling audit and log-space density estimation

    A shallow embedding of [src/js/sampling-audit.js]: the current revision
    of [haversineDistance] and [auditSampling] (the one with the
    geometry-only and time-conditioned series and the joint pass), and
    [computeKDE] and [detectPeaks] of the KDE visualisation module, with the
    properties the specification states about them.  Further on, the earlier
    revision of [auditSampling] that the same file holds, [auditTimestamps]
    of [src/js/timestamp-audit.js] and [parsePointElement] and [parseGPX] of
    [src/js/gpx-ingestion-module.js], with properties read off the code:
    what the reports account for, what the logs hold, what each series
    depends on, and how the modules and the revisions agree.

    - A JavaScript Number is an IEEE-754 binary64 value: the kernel's
      primitive [float].  Array lengths, indices and counters are [nat].
    - [Date.parse] answers an integral time value or NaN; time values are
      [Z] and NaN is [None].  The difference of two time values is taken in
      [Z]; JavaScript rounds it only beyond 2^53 milliseconds.
    - What ECMAScript leaves to the engine ([Math.sin], [Math.cos],
      [Math.atan2], [Math.log], [Math.exp] away from their exactly specified
      arguments, [Date.parse], and how many arguments a call may spread) is
      a parameter, the class [Engine]; the theorems hold for every engine.
    - A call ends with a value or by throwing: [Math.min(...xs)] throws a
      [RangeError] when the engine does not take [xs.length] arguments.
      Memory is not bounded otherwise: an array has any length.
    - The order of the doubles of the grid of [computeKDE] is settled from
      the kernel's specification of binary64 arithmetic ([SpecFloat]), read
      as the rounding of the exact result (module [Binary64]).
    - Loops are folds over the index range or over the array; a loop's local
      variables are a record, updated one assignment at a time.
    - [auditSampling]'s second parameter, the file name, is not read by the
      code and is left out.
    - The local time zone behind [getHours] is a parameter, the class
      [Host]; [parseFloat], [trim] and the DOM are parameters, the classes
      [Browser] and [DomParser].  Of a DOM element the embedding keeps what
      the code reads of it; [console.log] is a list of lines. *)

From Stdlib Require Import ZArith String Ascii List Bool Lia Floats.
From Stdlib Require Uint63 DecimalString.
From Stdlib Require Import Sorted Permutation.
Import ListNotations.

(* ================================================================== *)
(** * The JavaScript platform *)
(* ================================================================== *)

Module JS.

Local Open Scope float_scope.

(** [Number(n)] for an array length or a loop counter. *)
Definition Number_of_nat (n : nat) : float :=
  of_uint63 (Uint63.of_Z (Z.of_nat n)).

(** [Number(z)] for an integral value (exact below 2^53, rounded to
    nearest above). *)
Definition Number_of_Z (z : Z) : float :=
  if (z <? 0)%Z then - of_uint63 (Uint63.of_Z (- z))
  else of_uint63 (Uint63.of_Z z).

(** The global [isNaN] and [isFinite] on a Number. *)
Definition isNaN (x : float) : bool := is_nan x.
Definition isFinite (x : float) : bool := is_finite x.

(** NaN, +Infinity or -Infinity: what [isFinite] refuses. *)
Definition nan_or_inf (x : float) : Prop :=
  Prim2SF x = S754_nan \/ exists s, Prim2SF x = S754_infinity s.

(** [a > b] and [a <= b] on Numbers: false as soon as one side is NaN. *)
Definition gt (a b : float) : bool := b <? a.
Definition le (a b : float) : bool := a <=? b.

(** [Math.PI], the double nearest to pi. *)
Definition Math_PI : float := 0x1.921fb54442d18p+1.

(** [Math.sqrt] is the correctly rounded IEEE square root. *)
Definition Math_sqrt (x : float) : float := PrimFloat.sqrt x.

(** What ECMAScript leaves to the engine: the approximations behind the
    transcendental functions of [Math]; [Date.parse], which answers a
    time value (an integral number of milliseconds) or NaN, here [None];
    and whether a call takes a given number of spread arguments, which
    depends on the engine and on its stack. *)
Class Engine : Type := {
  sin_impl   : float -> float;
  cos_impl   : float -> float;
  atan2_impl : float -> float -> float;
  log_impl   : float -> float;
  exp_impl   : float -> float;
  Date_parse : string -> option Z;
  acceptsArguments : nat -> bool
}.

Section Builtins.
Context {E : Engine}.

Definition Math_sin (x : float) : float := sin_impl x.
Definition Math_cos (x : float) : float := cos_impl x.
Definition Math_atan2 (y x : float) : float := atan2_impl y x.

(** [Math.log]: NaN and +Infinity are returned as they are, 1 gives +0,
    a zero gives -Infinity, a negative argument NaN; the rest is the
    engine's approximation. *)
Definition Math_log (x : float) : float :=
  if is_nan x || (x =? infinity) then x
  else if x =? 1 then 0
  else if is_zero x then neg_infinity
  else if x <? 0 then nan
  else log_impl x.

(** [Math.exp]: NaN and +Infinity are returned as they are, a zero gives
    1, -Infinity gives +0; the rest is the engine's approximation. *)
Definition Math_exp (x : float) : float :=
  if is_nan x || (x =? infinity) then x
  else if is_zero x then 1
  else if x =? neg_infinity then 0
  else exp_impl x.
End Builtins.

Definition is_neg_zero (x : float) : bool := is_zero x && get_sign x.
Definition is_pos_zero (x : float) : bool := is_zero x && negb (get_sign x).

(** [Math.min(...xs)]: NaN when one argument is NaN; otherwise the least
    argument, -0 below +0, and +Infinity for no argument. *)
Definition Math_min (xs : list float) : float :=
  if existsb is_nan xs then nan
  else fold_left (fun lowest number =>
                    if is_neg_zero number && is_pos_zero lowest then number
                    else if number <? lowest then number else lowest)
                 xs infinity.

(** [Math.max(...xs)], dually. *)
Definition Math_max (xs : list float) : float :=
  if existsb is_nan xs then nan
  else fold_left (fun highest number =>
                    if is_pos_zero number && is_neg_zero highest then number
                    else if highest <? number then number else highest)
                 xs neg_infinity.

(** How a call ends: with a value, or by throwing. *)
Inductive Error : Type := InvalidBandwidth | TypeError | RangeError.

Inductive Completion (A : Type) : Type :=
| Normal (value : A)
| Throw (error : Error).
Arguments Normal {A} value.
Arguments Throw {A} error.

(** A statement after a call runs only when the call returned. *)
Definition andThen {A B : Type} (call : Completion A) (rest : A -> Completion B)
  : Completion B :=
  match call with
  | Normal value => rest value
  | Throw error => Throw error
  end.

Notation "x <- call ;; rest" := (andThen call (fun x => rest))
  (at level 61, call at next level, right associativity).

(** [f(...xs)]: the elements of [xs] become the arguments of the call; the
    engine throws a [RangeError] when it does not take that many. *)
Definition spread {E : Engine} {A : Type} (f : list float -> A) (xs : list float)
  : Completion A :=
  if acceptsArguments (length xs) then Normal (f xs) else Throw RangeError.

End JS.

Import JS.

(* ================================================================== *)
(** * The density estimator *)
(* ================================================================== *)

Record KdePoint : Type := mkKdePoint {
  xLog : float;
  xLinear : float;
  y : float
}.

(** The value an out-of-range array read would stand for; no read of the
    embedded code is out of range. *)
Definition undefinedKdePoint : KdePoint := mkKdePoint nan nan nan.

Section KDE.
Context {E : Engine}.
Local Open Scope float_scope.

(** The filter of [computeKDE]: [d > 0 && isFinite(d)]. *)
Definition validDatum (d : float) : bool := gt d 0 && isFinite d.

(** The inner loop of [computeKDE]: the sum over the data of the Gaussian
    kernels at [xLog]. *)
Definition kernelSum (validDataLog : list float) (h xLog : float) : float :=
  fold_left
    (fun density j =>
       let u := (xLog - nth j validDataLog nan) / h in
       density + Math_exp (-0.5 * u * u))
    (seq 0 (length validDataLog)) 0.

(** The body of the outer loop of [computeKDE] at index [i]. *)
Definition kdePointAt (validDataLog : list float) (xMinLog xMaxLog h normalization : float)
           (numPoints i : nat) : KdePoint :=
  let xLog := xMinLog + (xMaxLog - xMinLog)
                        * (Number_of_nat i / (Number_of_nat numPoints - 1)) in
  let density := kernelSum validDataLog h xLog in
  let density := density * normalization in
  let xLinear := Math_exp xLog in
  mkKdePoint xLog xLinear density.

(** [computeKDE] has no [throw] of its own; it ends by throwing only when
    [Math.min(...validDataLog)] does. *)
Definition computeKDE (data : list float) (bandwidth : float) (numPoints : nat)
  : Completion (list KdePoint) :=
  let validData := filter validDatum data in
  if Nat.eqb (length validData) 0 then Normal []
  else
    let validDataLog := map Math_log validData in
    minLog <- spread Math_min validDataLog ;;
    maxLog <- spread Math_max validDataLog ;;
    let xMinLog := minLog in
    let xMaxLog := maxLog in
    let n := length validDataLog in
    let h := bandwidth in
    let normalization := 1 / (Number_of_nat n * h * Math_sqrt (2 * Math_PI)) in
    Normal
      (fold_left
         (fun kdePoints i =>
            kdePoints ++ [kdePointAt validDataLog xMinLog xMaxLog h normalization numPoints i])
         (seq 0 numPoints) []).

(** The logarithms [computeKDE] keeps, and its normalisation constant. *)
Definition validDataLogOf (data : list float) : list float :=
  map Math_log (filter validDatum data).

Definition normalizationOf (data : list float) (h : float) : float :=
  1 / (Number_of_nat (length (validDataLogOf data)) * h * Math_sqrt (2 * Math_PI)).

(** The curve the loop of [computeKDE] builds once [Math.min] and
    [Math.max] have returned: its body at 0, ..., [numPoints - 1]. *)
Definition curveOf (data : list float) (h : float) (numPoints : nat) : list KdePoint :=
  map (kdePointAt (validDataLogOf data)
                  (Math_min (validDataLogOf data)) (Math_max (validDataLogOf data))
                  h (normalizationOf data h) numPoints)
      (seq 0 numPoints).

End KDE.

Section Peaks.
Local Open Scope float_scope.

(** The test of [detectPeaks] at interior index [i]. *)
Definition isPeakAt (kdePoints : list KdePoint) (i : nat) : bool :=
  let prev := nth (i - 1) kdePoints undefinedKdePoint in
  let curr := nth i kdePoints undefinedKdePoint in
  let next := nth (i + 1) kdePoints undefinedKdePoint in
  gt (y curr) (y prev) && gt (y curr) (y next).

Definition detectPeaks (kdePoints : list KdePoint) : list KdePoint :=
  if (length kdePoints <? 3)%nat then []
  else
    fold_left
      (fun peaks i =>
         let curr := nth i kdePoints undefinedKdePoint in
         if isPeakAt kdePoints i
         then peaks ++ [mkKdePoint (xLog curr) (xLinear curr) (y curr)]
         else peaks)
      (seq 1 (length kdePoints - 1 - 1)) [].

(** The indices [detectPeaks] keeps, in the order the loop visits them. *)
Definition peakIndices (kdePoints : list KdePoint) : list nat :=
  filter (isPeakAt kdePoints) (seq 1 (length kdePoints - 1 - 1)).

End Peaks.

(** [detectPeaks(computeKDE(data, h, numPoints))], as
    [visualizeSamplingData] and the bandwidth sliders run them: when
    [computeKDE] throws, no peak is looked for. *)
Definition peaksOfKDE {E : Engine} (data : list float) (h : float) (numPoints : nat)
  : Completion (list KdePoint) :=
  kdePoints <- computeKDE data h numPoints ;;
  Normal (detectPeaks kdePoints).

(* ================================================================== *)
(** * The sampling auditor *)
(* ================================================================== *)

(** A point as ingestion hands it over; [timeRaw] is a string or [null]. *)
Record Point : Type := mkPoint {
  lat : float;
  lon : float;
  timeRaw : option string
}.

(** An entry of [nonPositiveTimeDeltaEvents]. *)
Record NonPositiveTimeDeltaEvent : Type := mkEvent {
  index : nat;
  prevIndex : option nat;
  delta : Z
}.

Definition event_eq_dec (a b : NonPositiveTimeDeltaEvent) : {a = b} + {a <> b}.
Proof.
  decide equality.
  - apply Z.eq_dec.
  - decide equality. apply Nat.eq_dec.
  - apply Nat.eq_dec.
Defined.

(** An entry of [timeDistancePairs]. *)
Record TimeDistancePair : Type := mkPair {
  dtSec : float;
  ddMeters : float
}.

(** The object [auditSampling] returns. *)
Record AuditResult : Type := mkAuditResult {
  timeDeltasMs : list Z;
  totalDeltaCount : nat;
  minDeltaMs : option Z;
  maxDeltaMs : option Z;
  medianDeltaMs : option float;
  distanceDeltasM : list float;
  distanceDeltasMGeometryOnly : list float;
  distanceDeltasMTimeConditioned : list float;
  timeDistancePairs : list TimeDistancePair;
  hasTimeProgression : bool;
  hasValidTimestamps : bool;
  rejectedTimestampPairsDeltaLeqZero : nat;
  consecutivePointPairsConsidered : nat;
  rejectedDistanceInvalidOrZero : nat;
  jointPairsWithBothTimestamps : nat;
  jointRejectedMissingTimestamp : nat;
  jointRejectedNonPositiveDt : nat;
  jointRejectedInvalidOrZeroDistance : nat;
  nonPositiveTimeDeltaEvents : list NonPositiveTimeDeltaEvent
}.

(** The local variables of the main loop of [auditSampling]. *)
Module Primary.
Record State : Type := mkState {
  timeDeltasMs : list Z;
  distanceDeltasMTimeConditioned : list float;
  distanceDeltasMGeometryOnly : list float;
  previousTimestampMs : option Z;
  previousPoint : option (float * float);
  hasTimeProgression : bool;
  timestampedPointsCount : nat;
  consecutiveTimestampPairsCount : nat;
  positiveTimeDeltasCollected : nat;
  rejectedTimestampPairsDeltaLeqZero : nat;
  nonPositiveTimeDeltaEvents : list NonPositiveTimeDeltaEvent;
  consecutivePointPairsConsidered : nat;
  rejectedDistanceInvalidOrZero : nat;
  previousTimestampIndex : option nat
}.

Definition init : State :=
  mkState [] [] [] None None false 0 0 0 0 [] 0 0 None.

(** One assignment each. *)
Definition push_timeDeltasMs (d : Z) (s : State) : State :=
  let 'mkState td tc go pt pp hp n1 n2 n3 n4 ev n5 n6 pi := s in
  mkState (td ++ [d]) tc go pt pp hp n1 n2 n3 n4 ev n5 n6 pi.
Definition push_distanceDeltasMTimeConditioned (d : float) (s : State) : State :=
  let 'mkState td tc go pt pp hp n1 n2 n3 n4 ev n5 n6 pi := s in
  mkState td (tc ++ [d]) go pt pp hp n1 n2 n3 n4 ev n5 n6 pi.
Definition push_distanceDeltasMGeometryOnly (d : float) (s : State) : State :=
  let 'mkState td tc go pt pp hp n1 n2 n3 n4 ev n5 n6 pi := s in
  mkState td tc (go ++ [d]) pt pp hp n1 n2 n3 n4 ev n5 n6 pi.
Definition set_previousTimestampMs (t : option Z) (s : State) : State :=
  let 'mkState td tc go pt pp hp n1 n2 n3 n4 ev n5 n6 pi := s in
  mkState td tc go t pp hp n1 n2 n3 n4 ev n5 n6 pi.
Definition set_previousPoint (p : option (float * float)) (s : State) : State :=
  let 'mkState td tc go pt pp hp n1 n2 n3 n4 ev n5 n6 pi := s in
  mkState td tc go pt p hp n1 n2 n3 n4 ev n5 n6 pi.
Definition set_hasTimeProgression (b : bool) (s : State) : State :=
  let 'mkState td tc go pt pp hp n1 n2 n3 n4 ev n5 n6 pi := s in
  mkState td tc go pt pp b n1 n2 n3 n4 ev n5 n6 pi.
Definition incr_timestampedPointsCount (s : State) : State :=
  let 'mkState td tc go pt pp hp n1 n2 n3 n4 ev n5 n6 pi := s in
  mkState td tc go pt pp hp (S n1) n2 n3 n4 ev n5 n6 pi.
Definition incr_consecutiveTimestampPairsCount (s : State) : State :=
  let 'mkState td tc go pt pp hp n1 n2 n3 n4 ev n5 n6 pi := s in
  mkState td tc go pt pp hp n1 (S n2) n3 n4 ev n5 n6 pi.
Definition incr_positiveTimeDeltasCollected (s : State) : State :=
  let 'mkState td tc go pt pp hp n1 n2 n3 n4 ev n5 n6 pi := s in
  mkState td tc go pt pp hp n1 n2 (S n3) n4 ev n5 n6 pi.
Definition incr_rejectedTimestampPairsDeltaLeqZero (s : State) : State :=
  let 'mkState td tc go pt pp hp n1 n2 n3 n4 ev n5 n6 pi := s in
  mkState td tc go pt pp hp n1 n2 n3 (S n4) ev n5 n6 pi.
Definition push_nonPositiveTimeDeltaEvents (e : NonPositiveTimeDeltaEvent) (s : State) : State :=
  let 'mkState td tc go pt pp hp n1 n2 n3 n4 ev n5 n6 pi := s in
  mkState td tc go pt pp hp n1 n2 n3 n4 (ev ++ [e]) n5 n6 pi.
Definition incr_consecutivePointPairsConsidered (s : State) : State :=
  let 'mkState td tc go pt pp hp n1 n2 n3 n4 ev n5 n6 pi := s in
  mkState td tc go pt pp hp n1 n2 n3 n4 ev (S n5) n6 pi.
Definition incr_rejectedDistanceInvalidOrZero (s : State) : State :=
  let 'mkState td tc go pt pp hp n1 n2 n3 n4 ev n5 n6 pi := s in
  mkState td tc go pt pp hp n1 n2 n3 n4 ev n5 (S n6) pi.
Definition set_previousTimestampIndex (i : option nat) (s : State) : State :=
  let 'mkState td tc go pt pp hp n1 n2 n3 n4 ev n5 n6 pi := s in
  mkState td tc go pt pp hp n1 n2 n3 n4 ev n5 n6 i.
End Primary.

(** The local variables of the joint time-distance pass. *)
Module Joint.
Record State : Type := mkState {
  timeDistancePairs : list TimeDistancePair;
  prevPoint : option (float * float);
  prevTimestampMs : option Z;
  jointConsecutivePairsInspected : nat;
  jointPairsWithBothTimestamps : nat;
  jointRejectedMissingTimestamp : nat;
  jointRejectedNonPositiveDt : nat;
  jointRejectedInvalidOrZeroDistance : nat;
  jointValidPairsCollected : nat
}.

Definition init : State := mkState [] None None 0 0 0 0 0 0.

Definition push_timeDistancePairs (p : TimeDistancePair) (s : State) : State :=
  let 'mkState ps pp pt n1 n2 n3 n4 n5 n6 := s in
  mkState (ps ++ [p]) pp pt n1 n2 n3 n4 n5 n6.
Definition set_prevPoint (p : option (float * float)) (s : State) : State :=
  let 'mkState ps pp pt n1 n2 n3 n4 n5 n6 := s in
  mkState ps p pt n1 n2 n3 n4 n5 n6.
Definition set_prevTimestampMs (t : option Z) (s : State) : State :=
  let 'mkState ps pp pt n1 n2 n3 n4 n5 n6 := s in
  mkState ps pp t n1 n2 n3 n4 n5 n6.
Definition incr_jointConsecutivePairsInspected (s : State) : State :=
  let 'mkState ps pp pt n1 n2 n3 n4 n5 n6 := s in
  mkState ps pp pt (S n1) n2 n3 n4 n5 n6.
Definition incr_jointPairsWithBothTimestamps (s : State) : State :=
  let 'mkState ps pp pt n1 n2 n3 n4 n5 n6 := s in
  mkState ps pp pt n1 (S n2) n3 n4 n5 n6.
Definition incr_jointRejectedMissingTimestamp (s : State) : State :=
  let 'mkState ps pp pt n1 n2 n3 n4 n5 n6 := s in
  mkState ps pp pt n1 n2 (S n3) n4 n5 n6.
Definition incr_jointRejectedNonPositiveDt (s : State) : State :=
  let 'mkState ps pp pt n1 n2 n3 n4 n5 n6 := s in
  mkState ps pp pt n1 n2 n3 (S n4) n5 n6.
Definition incr_jointRejectedInvalidOrZeroDistance (s : State) : State :=
  let 'mkState ps pp pt n1 n2 n3 n4 n5 n6 := s in
  mkState ps pp pt n1 n2 n3 n4 (S n5) n6.
Definition incr_jointValidPairsCollected (s : State) : State :=
  let 'mkState ps pp pt n1 n2 n3 n4 n5 n6 := s in
  mkState ps pp pt n1 n2 n3 n4 n5 (S n6).
End Joint.

(** [for (let i = 0; i < xs.length; i++) { const x = xs[i]; ... }] over the
    loop's variables [s]. *)
Fixpoint forEachIndexed {A S : Type} (body : S -> nat -> A -> S)
         (i : nat) (xs : list A) (s : S) : S :=
  match xs with
  | [] => s
  | x :: rest => forEachIndexed body (i + 1) rest (body s i x)
  end.

(** [[...xs].sort((a, b) => a - b)] on integral values. *)
Fixpoint insertAscending (x : Z) (sorted : list Z) : list Z :=
  match sorted with
  | [] => [x]
  | y :: rest => if (x <=? y)%Z then x :: sorted else y :: insertAscending x rest
  end.

Definition sortAscending (xs : list Z) : list Z :=
  fold_right insertAscending [] xs.

Section Auditor.
Context {E : Engine}.
Local Open Scope float_scope.

Definition haversineDistance (lat1 lon1 lat2 lon2 : float) : float :=
  let R := 6371000 in
  let dLat := (lat2 - lat1) * Math_PI / 180 in
  let dLon := (lon2 - lon1) * Math_PI / 180 in
  let a := Math_sin (dLat / 2) * Math_sin (dLat / 2) +
           Math_cos (lat1 * Math_PI / 180) * Math_cos (lat2 * Math_PI / 180) *
           Math_sin (dLon / 2) * Math_sin (dLon / 2) in
  let c := 2 * Math_atan2 (Math_sqrt a) (Math_sqrt (1 - a)) in
  R * c.

(** The timestamp of a point as the loops read it: [Date.parse(timeRaw)]
    when [timeRaw !== null] and the result is not NaN. *)
Definition parsedTimestamp (point : Point) : option Z :=
  match timeRaw point with
  | Some raw => Date_parse raw
  | None => None
  end.

(** [isFinite(distance) && distance > 0]. *)
Definition acceptedDistance (distance : float) : bool :=
  isFinite distance && gt distance 0.

(** The first pass: is some timestamp parseable. *)
Definition presenceScan (points : list Point) : bool :=
  existsb (fun point => match parsedTimestamp point with Some _ => true | None => false end)
          points.

(** The body of the main loop at index [i]. *)
Definition primaryStep (s : Primary.State) (i : nat) (point : Point) : Primary.State :=
  let currentTimestampMs := parsedTimestamp point in
  (* geometry-only distance *)
  let s :=
    match Primary.previousPoint s with
    | Some previousPoint =>
        let s := Primary.incr_consecutivePointPairsConsidered s in
        let distance := haversineDistance (fst previousPoint) (snd previousPoint)
                                          (lat point) (lon point) in
        if acceptedDistance distance
        then Primary.push_distanceDeltasMGeometryOnly distance s
        else Primary.incr_rejectedDistanceInvalidOrZero s
    | None => s
    end in
  (* time delta and time-conditioned distance *)
  let s :=
    match currentTimestampMs with
    | Some currentTimestampMs =>
        let s := Primary.incr_timestampedPointsCount s in
        let s :=
          match Primary.previousTimestampMs s with
          | Some previousTimestampMs =>
              let s := Primary.incr_consecutiveTimestampPairsCount s in
              let delta := (currentTimestampMs - previousTimestampMs)%Z in
              if (delta >? 0)%Z then
                let s := Primary.incr_positiveTimeDeltasCollected s in
                let s := Primary.push_timeDeltasMs delta s in
                let s := Primary.set_hasTimeProgression true s in
                match Primary.previousPoint s with
                | Some previousPoint =>
                    let distance := haversineDistance (fst previousPoint) (snd previousPoint)
                                                      (lat point) (lon point) in
                    if acceptedDistance distance
                    then Primary.push_distanceDeltasMTimeConditioned distance s
                    else s
                | None => s
                end
              else
                let s := Primary.incr_rejectedTimestampPairsDeltaLeqZero s in
                Primary.push_nonPositiveTimeDeltaEvents
                  (mkEvent i (Primary.previousTimestampIndex s) delta) s
          | None => s
          end in
        let s := Primary.set_previousTimestampMs (Some currentTimestampMs) s in
        Primary.set_previousTimestampIndex (Some i) s
    | None => s
    end in
  Primary.set_previousPoint (Some (lat point, lon point)) s.

Definition primaryPass (points : list Point) : Primary.State :=
  forEachIndexed primaryStep 0 points Primary.init.

(** The body of the joint-pair loop. *)
Definition jointStep (s : Joint.State) (i : nat) (point : Point) : Joint.State :=
  let currentTimestampMs := parsedTimestamp point in
  let s :=
    match Joint.prevPoint s with
    | Some _ => Joint.incr_jointConsecutivePairsInspected s
    | None => s
    end in
  let s :=
    match currentTimestampMs, Joint.prevTimestampMs s, Joint.prevPoint s with
    | Some currentTimestampMs, Some prevTimestampMs, Some prevPoint =>
        let s := Joint.incr_jointPairsWithBothTimestamps s in
        let dtMs := (currentTimestampMs - prevTimestampMs)%Z in
        let dtSec := Number_of_Z dtMs / 1000 in
        let ddMeters := haversineDistance (fst prevPoint) (snd prevPoint)
                                          (lat point) (lon point) in
        if gt dtSec 0 && isFinite ddMeters && gt ddMeters 0 then
          let s := Joint.incr_jointValidPairsCollected s in
          Joint.push_timeDistancePairs (mkPair dtSec ddMeters) s
        else
          let s := if le dtSec 0 then Joint.incr_jointRejectedNonPositiveDt s else s in
          if negb (isFinite ddMeters) || le ddMeters 0
          then Joint.incr_jointRejectedInvalidOrZeroDistance s
          else s
    | _, _, Some _ => Joint.incr_jointRejectedMissingTimestamp s
    | _, _, None => s
    end in
  match currentTimestampMs with
  | Some currentTimestampMs =>
      let s := Joint.set_prevPoint (Some (lat point, lon point)) s in
      Joint.set_prevTimestampMs (Some currentTimestampMs) s
  | None => s
  end.

(** The joint pass runs only under [hasTimeProgression]. *)
Definition jointPass (hasTimeProgression : bool) (points : list Point) : Joint.State :=
  if hasTimeProgression then forEachIndexed jointStep 0 points Joint.init
  else Joint.init.

(** The median of the sorted deltas: the middle one, or the mean of the
    two middle ones. *)
Definition medianOfSorted (sortedDeltas : list Z) : float :=
  let mid := Nat.div (length sortedDeltas) 2 in
  if Nat.eqb (Nat.modulo (length sortedDeltas) 2) 0
  then (Number_of_Z (nth (mid - 1) sortedDeltas 0%Z) + Number_of_Z (nth mid sortedDeltas 0%Z)) / 2
  else Number_of_Z (nth mid sortedDeltas 0%Z).

Definition auditSampling (points : list Point) : AuditResult :=
  let hasValidTimestamps := presenceScan points in
  let s := primaryPass points in
  let hasTimeProgression := Primary.hasTimeProgression s in
  let distanceDeltasM :=
    if hasTimeProgression then Primary.distanceDeltasMTimeConditioned s
    else Primary.distanceDeltasMGeometryOnly s in
  let totalDeltaCount := length (Primary.timeDeltasMs s) in
  let sortedDeltas := sortAscending (Primary.timeDeltasMs s) in
  let stats :=
    if (0 <? totalDeltaCount)%nat
    then (Some (nth 0 sortedDeltas 0%Z),
          Some (nth (length sortedDeltas - 1) sortedDeltas 0%Z),
          Some (medianOfSorted sortedDeltas))
    else (None, None, None) in
  let j := jointPass hasTimeProgression points in
  {| timeDeltasMs := Primary.timeDeltasMs s;
     totalDeltaCount := totalDeltaCount;
     minDeltaMs := fst (fst stats);
     maxDeltaMs := snd (fst stats);
     medianDeltaMs := snd stats;
     distanceDeltasM := distanceDeltasM;
     distanceDeltasMGeometryOnly := Primary.distanceDeltasMGeometryOnly s;
     distanceDeltasMTimeConditioned := Primary.distanceDeltasMTimeConditioned s;
     timeDistancePairs := Joint.timeDistancePairs j;
     hasTimeProgression := hasTimeProgression;
     hasValidTimestamps := hasValidTimestamps;
     rejectedTimestampPairsDeltaLeqZero := Primary.rejectedTimestampPairsDeltaLeqZero s;
     consecutivePointPairsConsidered := Primary.consecutivePointPairsConsidered s;
     rejectedDistanceInvalidOrZero := Primary.rejectedDistanceInvalidOrZero s;
     jointPairsWithBothTimestamps := Joint.jointPairsWithBothTimestamps j;
     jointRejectedMissingTimestamp := Joint.jointRejectedMissingTimestamp j;
     jointRejectedNonPositiveDt := Joint.jointRejectedNonPositiveDt j;
     jointRejectedInvalidOrZeroDistance := Joint.jointRejectedInvalidOrZeroDistance j;
     nonPositiveTimeDeltaEvents := Primary.nonPositiveTimeDeltaEvents s |}.

End Auditor.

(* ================================================================== *)
(** * What the loops observe *)
(* ================================================================== *)

(** [keepSome f xs]: the values [f] yields along [xs], in order. *)
Fixpoint keepSome {A B : Type} (f : A -> option B) (xs : list A) : list B :=
  match xs with
  | [] => []
  | x :: rest =>
      match f x with
      | Some b => b :: keepSome f rest
      | None => keepSome f rest
      end
  end.

(** Neighbours in a list: [(x0, x1); (x1, x2); ...]. *)
Fixpoint adjacentPairs {A : Type} (xs : list A) : list (A * A) :=
  match xs with
  | [] => []
  | x :: rest =>
      match rest with
      | [] => []
      | x' :: _ => (x, x') :: adjacentPairs rest
      end
  end.

(** What the main loop has before it at a point of index [i >= 1]: the
    distance from the point just before and, when the point is timestamped
    and an earlier point is too, the index of the latest such point and the
    time elapsed since. *)
Record Observation : Type := mkObservation {
  obsIndex : nat;
  obsDistance : float;
  obsElapsed : option (option nat * Z)
}.

Definition progresses (o : Observation) : bool :=
  match obsElapsed o with
  | Some (_, elapsed) => (elapsed >? 0)%Z
  | None => false
  end.

Definition stalls (o : Observation) : bool :=
  match obsElapsed o with
  | Some (_, elapsed) => negb (elapsed >? 0)%Z
  | None => false
  end.

Definition elapsedOf (o : Observation) : Z :=
  match obsElapsed o with
  | Some (_, elapsed) => elapsed
  | None => 0%Z
  end.

Definition eventOf (o : Observation) : NonPositiveTimeDeltaEvent :=
  mkEvent (obsIndex o)
          (match obsElapsed o with Some (k, _) => k | None => None end)
          (elapsedOf o).

(** What the main loop accumulates: series, flag and counters. *)
Record Tally : Type := mkTally {
  tallyTimeDeltasMs : list Z;
  tallyTimeConditioned : list float;
  tallyGeometryOnly : list float;
  tallyProgression : bool;
  tallyRejectedLeqZero : nat;
  tallyEvents : list NonPositiveTimeDeltaEvent;
  tallyConsidered : nat;
  tallyRejectedDistance : nat
}.

Definition tallyOfState (s : Primary.State) : Tally :=
  mkTally (Primary.timeDeltasMs s)
          (Primary.distanceDeltasMTimeConditioned s)
          (Primary.distanceDeltasMGeometryOnly s)
          (Primary.hasTimeProgression s)
          (Primary.rejectedTimestampPairsDeltaLeqZero s)
          (Primary.nonPositiveTimeDeltaEvents s)
          (Primary.consecutivePointPairsConsidered s)
          (Primary.rejectedDistanceInvalidOrZero s).

(** The same, read off the observations: what is positive (and finite) is
    stored, the rest is counted. *)
Definition tallyOf (obs : list Observation) : Tally :=
  mkTally (map elapsedOf (filter progresses obs))
          (filter acceptedDistance (map obsDistance (filter progresses obs)))
          (filter acceptedDistance (map obsDistance obs))
          (existsb progresses obs)
          (length (filter stalls obs))
          (map eventOf (filter stalls obs))
          (length obs)
          (length (filter (fun d => negb (acceptedDistance d)) (map obsDistance obs))).

Definition tallyAppend (a b : Tally) : Tally :=
  mkTally (tallyTimeDeltasMs a ++ tallyTimeDeltasMs b)
          (tallyTimeConditioned a ++ tallyTimeConditioned b)
          (tallyGeometryOnly a ++ tallyGeometryOnly b)
          (tallyProgression a || tallyProgression b)
          (tallyRejectedLeqZero a + tallyRejectedLeqZero b)
          (tallyEvents a ++ tallyEvents b)
          (tallyConsidered a + tallyConsidered b)
          (tallyRejectedDistance a + tallyRejectedDistance b).

Section Observations.
Context {E : Engine}.
Local Open Scope float_scope.

Definition distanceBetween (p q : Point) : float :=
  haversineDistance (lat p) (lon p) (lat q) (lon q).

Fixpoint observationsAfter (i : nat) (previousPoint : float * float)
         (previousTimestampMs : option Z) (previousTimestampIndex : option nat)
         (points : list Point) : list Observation :=
  match points with
  | [] => []
  | point :: rest =>
      let distance := haversineDistance (fst previousPoint) (snd previousPoint)
                                        (lat point) (lon point) in
      match parsedTimestamp point with
      | Some t =>
          mkObservation i distance
            (match previousTimestampMs with
             | Some t0 => Some (previousTimestampIndex, (t - t0)%Z)
             | None => None
             end)
          :: observationsAfter (i + 1) (lat point, lon point) (Some t) (Some i) rest
      | None =>
          mkObservation i distance None
          :: observationsAfter (i + 1) (lat point, lon point)
                               previousTimestampMs previousTimestampIndex rest
      end
  end.

Definition observations (points : list Point) : list Observation :=
  match points with
  | [] => []
  | first :: rest =>
      observationsAfter 1 (lat first, lon first) (parsedTimestamp first)
                        (match parsedTimestamp first with
                         | Some _ => Some 0%nat
                         | None => None
                         end)
                        rest
  end.

(** The timestamped points, each with its time value, in track order. *)
Definition timestampedPoints (points : list Point) : list (Point * Z) :=
  keepSome (fun point => match parsedTimestamp point with
                         | Some t => Some (point, t)
                         | None => None
                         end)
           points.

(** The pair the joint pass computes from two timestamped points. *)
Definition pairOf (ends : (Point * Z) * (Point * Z)) : TimeDistancePair :=
  let '((p, tp), (q, tq)) := ends in
  mkPair (Number_of_Z (tq - tp) / 1000) (distanceBetween p q).

(** [dtSec > 0 && isFinite(ddMeters) && ddMeters > 0]. *)
Definition pairAccepted (pair : TimeDistancePair) : bool :=
  gt (dtSec pair) 0 && isFinite (ddMeters pair) && gt (ddMeters pair) 0.

End Observations.

(* ================================================================== *)
(** * A reference engine *)
(* ================================================================== *)

(** One engine among those ECMAScript allows: truncated series for the
    transcendental functions and the date-time format every engine must
    read, [YYYY-MM-DDTHH:mm:ssZ].  It serves to run the embedding on
    concrete tracks; the general theorems hold for every engine. *)
Module RefEngine.

Local Open Scope float_scope.

(** [1 + y/n (1 + y/(n+1) (1 + ...))], [k] factors deep. *)
Fixpoint expSeries (k : nat) (n y : float) : float :=
  match k with
  | O => 1
  | S k' => 1 + y / n * expSeries k' (n + 1) y
  end.

Definition exp_ref (x : float) : float :=
  Nat.iter 10 (fun t => t * t) (expSeries 16 1 (x / 1024)).

(** [1/n + w (1/(n+2) + w (...))], [k] terms. *)
Fixpoint oddSeries (k : nat) (sign n w : float) : float :=
  match k with
  | O => 0
  | S k' => 1 / n + sign * w * oddSeries k' sign (n + 2) w
  end.

Definition ln2 : float := 0x1.62e42fefa39efp-1.

Definition log_ref (x : float) : float :=
  let (m, e) := Z.frexp x in
  let z := (m - 1) / (m + 1) in
  Number_of_Z e * ln2 + 2 * z * oddSeries 30 1 1 (z * z).

(** [1 - w/(n (n+1)) (1 - w/((n+2)(n+3)) (...))]. *)
Fixpoint altSeries (k : nat) (n w : float) : float :=
  match k with
  | O => 1
  | S k' => 1 - w / (n * (n + 1)) * altSeries k' (n + 2) w
  end.

Definition sin_ref (x : float) : float := x * altSeries 14 2 (x * x).
Definition cos_ref (x : float) : float := altSeries 14 1 (x * x).

Definition atan_small (t : float) : float := t * oddSeries 16 (-1) 1 (t * t).

Definition atan_unit (t : float) : float :=
  let half u := u / (1 + PrimFloat.sqrt (1 + u * u)) in
  4 * atan_small (half (half t)).

Definition atan_ref (t : float) : float :=
  if 1 <? t then Math_PI / 2 - atan_unit (1 / t)
  else if t <? -1 then - (Math_PI / 2) - atan_unit (1 / t)
  else atan_unit t.

Definition atan2_ref (y x : float) : float :=
  if 0 <? x then atan_ref (y / x)
  else if x <? 0 then
    if y <? 0 then atan_ref (y / x) - Math_PI else atan_ref (y / x) + Math_PI
  else if 0 <? y then Math_PI / 2
  else if y <? 0 then - (Math_PI / 2)
  else y.

(** Decimal digits. *)
Definition digit (c : ascii) : option Z :=
  let n := Z.of_nat (nat_of_ascii c) in
  if ((48 <=? n) && (n <=? 57))%Z then Some (n - 48)%Z else None.

Fixpoint digits (acc : Z) (cs : list ascii) : option Z :=
  match cs with
  | [] => Some acc
  | c :: rest =>
      match digit c with
      | Some d => digits (10 * acc + d) rest
      | None => None
      end
  end.

(** Days from 1970-01-01 to the given civil date (proleptic Gregorian). *)
Definition daysFromCivil (year month day : Z) : Z :=
  let y := (if month <=? 2 then year - 1 else year)%Z in
  let era := (y / 400)%Z in
  let yoe := (y - era * 400)%Z in
  let mp := ((month + 9) mod 12)%Z in
  let doy := ((153 * mp + 2) / 5 + day - 1)%Z in
  let doe := (yoe * 365 + yoe / 4 - yoe / 100 + doy)%Z in
  (era * 146097 + doe - 719468)%Z.

Definition isLeap (year : Z) : bool :=
  ((year mod 4 =? 0) && (negb (year mod 100 =? 0) || (year mod 400 =? 0)))%Z.

Definition daysInMonth (year month : Z) : Z :=
  if (month =? 2)%Z then (if isLeap year then 29 else 28)%Z
  else if ((month =? 4) || (month =? 6) || (month =? 9) || (month =? 11))%Z then 30%Z
  else 31%Z.

Definition Date_parse_ref (raw : string) : option Z :=
  match list_ascii_of_string raw with
  | [y1; y2; y3; y4; "-"%char; m1; m2; "-"%char; d1; d2; "T"%char;
     h1; h2; ":"%char; n1; n2; ":"%char; s1; s2; "Z"%char] =>
      match digits 0 [y1; y2; y3; y4], digits 0 [m1; m2], digits 0 [d1; d2],
            digits 0 [h1; h2], digits 0 [n1; n2], digits 0 [s1; s2] with
      | Some year, Some month, Some day, Some hour, Some minute, Some second =>
          if ((1 <=? month) && (month <=? 12) && (1 <=? day)
              && (day <=? daysInMonth year month)
              && (hour <=? 23) && (minute <=? 59) && (second <=? 59))%Z
          then Some ((((daysFromCivil year month day * 24 + hour) * 60 + minute) * 60
                      + second) * 1000)%Z
          else None
      | _, _, _, _, _, _ => None
      end
  | _ => None
  end.

(** This engine takes up to 65535 spread arguments. *)
Definition acceptsArguments_ref (n : nat) : bool := (N.of_nat n <=? 65535)%N.

#[export] Instance engine : Engine := {|
  sin_impl := sin_ref;
  cos_impl := cos_ref;
  atan2_impl := atan2_ref;
  log_impl := log_ref;
  exp_impl := exp_ref;
  Date_parse := Date_parse_ref;
  acceptsArguments := acceptsArguments_ref
|}.

End RefEngine.

(* ================================================================== *)
(** * Sample tracks *)
(* ================================================================== *)

Module Samples.

Local Open Scope float_scope.
Local Open Scope string_scope.

(** A series for the density estimator. *)
Definition series : list float := [2; 0.5; 8].

(** A long series at a constant value: two hundred thousand times 1. *)
Definition longSeries : list float := repeat 1 (N.to_nat 200000).

(** Three points along the equator; the middle one has no timestamp. *)
Definition gappedTrack : list Point :=
  [ mkPoint 0 0 (Some "2024-01-01T00:00:00Z");
    mkPoint 0 0.125 None;
    mkPoint 0 0.25 (Some "2024-01-01T00:00:10Z") ].

(** A track whose second and fourth points carry the same time. *)
Definition stalledBefore : list Point := [ mkPoint 0 0 None ].
Definition stalledFirst : Point := mkPoint 0 0.125 (Some "2024-01-01T00:00:00Z").
Definition stalledGap : list Point := [ mkPoint 0 0.25 None ].
Definition stalledSecond : Point := mkPoint 0 0.375 (Some "2024-01-01T00:00:00Z").
Definition stalledAfter : list Point := [ mkPoint 0 0.5 (Some "2024-01-01T00:00:05Z") ].

Definition stalledTrack : list Point :=
  stalledBefore ++ stalledFirst :: stalledGap ++ stalledSecond :: stalledAfter.

End Samples.

(* ================================================================== *)
(** * The timestamp audit ([src/js/timestamp-audit.js]) *)
(* ================================================================== *)

(** The time values of the timestamped points, in track order. *)
Definition timeline {E : Engine} (points : list Point) : list Z :=
  keepSome parsedTimestamp points.

(** A point without a usable timestamp, and the points that follow the
    first timestamped one. *)
Definition untimestamped {E : Engine} (point : Point) : bool :=
  match parsedTimestamp point with
  | Some _ => false
  | None => true
  end.

Fixpoint afterFirstTimestamped {E : Engine} (points : list Point) : list Point :=
  match points with
  | [] => []
  | point :: rest =>
      match parsedTimestamp point with
      | Some _ => rest
      | None => afterFirstTimestamped rest
      end
  end.

(** The two rejection tests of the joint pass. *)
Definition nonPositiveDt (pair : TimeDistancePair) : bool :=
  le (dtSec pair) 0.

Definition invalidOrZeroDistance (pair : TimeDistancePair) : bool :=
  negb (isFinite (ddMeters pair)) || le (ddMeters pair) 0.

(** The coordinates of the points, in track order. *)
Definition coordinates (points : list Point) : list (float * float) :=
  map (fun point => (lat point, lon point)) points.

(** [Subsequence xs ys]: [xs] is [ys] with some elements left out. *)
Inductive Subsequence {A : Type} : list A -> list A -> Prop :=
| Subsequence_nil : Subsequence [] []
| Subsequence_keep x xs ys : Subsequence xs ys -> Subsequence (x :: xs) (x :: ys)
| Subsequence_drop x xs ys : Subsequence xs ys -> Subsequence xs (x :: ys).

(** What the host adds to the engine: the local time zone, as the offset in
    milliseconds to add to a time value (ECMAScript's LocalTime). *)
Class Host : Type := {
  localOffsetMs : Z -> Z
}.

(** [String(n)] for a non-negative integer, and [padStart(2, '0')]. *)
Definition String_of_Z (n : Z) : string :=
  DecimalString.NilZero.string_of_uint (N.to_uint (Z.to_N n)).

Definition padStart2 (s : string) : string :=
  match String.length s with
  | O => "00"%string
  | S O => String "0"%char s
  | _ => s
  end.

(** A time of day as the eight characters [HH:MM:SS]: two decimal digits
    each for the hour, the minute and the second, colons between. *)
Definition decimalDigit (n : Z) : ascii := ascii_of_nat (48 + Z.to_nat n).

Definition twoDigits (n : Z) : string :=
  String (decimalDigit (n / 10)) (String (decimalDigit (n mod 10)) EmptyString).

Definition HH_MM_SS (hours minutes seconds : Z) : string :=
  (twoDigits hours ++ ":" ++ twoDigits minutes ++ ":" ++ twoDigits seconds)%string.

(** [getHours], [getMinutes] and [getSeconds] of the date at time value
    [t]: the time of day in the host's time zone. *)
Definition getHours {H : Host} (t : Z) : Z := ((t + localOffsetMs t) / 3600000) mod 24.
Definition getMinutes {H : Host} (t : Z) : Z := ((t + localOffsetMs t) / 60000) mod 60.
Definition getSeconds {H : Host} (t : Z) : Z := ((t + localOffsetMs t) / 1000) mod 60.

Module TimestampAudit.

Record BackwardTimestampEvent : Type := mkBackward {
  backwardIndex : nat;
  backwardPrevIndex : option nat;
  prevTime : string;
  currTime : string
}.

Record DuplicateTimestampEvent : Type := mkDuplicate {
  duplicateIndex : nat;
  duplicatePrevIndex : option nat;
  time : string
}.

(** The object [auditTimestamps] returns. *)
Record AuditMetadata : Type := mkAuditMetadata {
  totalPointsChecked : nat;
  missingTimestampCount : nat;
  unparsableTimestampCount : nat;
  duplicateTimestampCount : nat;
  backwardTimestampCount : nat;
  strictlyIncreasingCount : nat;
  maxBackwardJumpMs : option Z;
  backwardTimestampEvents : list BackwardTimestampEvent;
  duplicateTimestampEvents : list DuplicateTimestampEvent
}.

(** The local variables of the loop. *)
Record State : Type := mkState {
  missing : nat;
  unparsable : nat;
  duplicates : nat;
  backwards : nat;
  increasing : nat;
  maxJump : option Z;
  backwardEvents : list BackwardTimestampEvent;
  duplicateEvents : list DuplicateTimestampEvent;
  lastValidTimestampMs : option Z;
  lastValidTimestampIndex : option nat;
  lastValidTimestampRaw : option string
}.

Definition init : State := mkState 0 0 0 0 0 None [] [] None None None.

Definition incr_missing (s : State) : State :=
  let 'mkState n1 n2 n3 n4 n5 mj be de lm li lr := s in
  mkState (S n1) n2 n3 n4 n5 mj be de lm li lr.
Definition incr_unparsable (s : State) : State :=
  let 'mkState n1 n2 n3 n4 n5 mj be de lm li lr := s in
  mkState n1 (S n2) n3 n4 n5 mj be de lm li lr.
Definition incr_duplicates (s : State) : State :=
  let 'mkState n1 n2 n3 n4 n5 mj be de lm li lr := s in
  mkState n1 n2 (S n3) n4 n5 mj be de lm li lr.
Definition incr_backwards (s : State) : State :=
  let 'mkState n1 n2 n3 n4 n5 mj be de lm li lr := s in
  mkState n1 n2 n3 (S n4) n5 mj be de lm li lr.
Definition incr_increasing (s : State) : State :=
  let 'mkState n1 n2 n3 n4 n5 mj be de lm li lr := s in
  mkState n1 n2 n3 n4 (S n5) mj be de lm li lr.
Definition set_maxJump (m : option Z) (s : State) : State :=
  let 'mkState n1 n2 n3 n4 n5 mj be de lm li lr := s in
  mkState n1 n2 n3 n4 n5 m be de lm li lr.
Definition push_backwardEvents (e : BackwardTimestampEvent) (s : State) : State :=
  let 'mkState n1 n2 n3 n4 n5 mj be de lm li lr := s in
  mkState n1 n2 n3 n4 n5 mj (be ++ [e]) de lm li lr.
Definition push_duplicateEvents (e : DuplicateTimestampEvent) (s : State) : State :=
  let 'mkState n1 n2 n3 n4 n5 mj be de lm li lr := s in
  mkState n1 n2 n3 n4 n5 mj be (de ++ [e]) lm li lr.
Definition set_lastValid (ms : option Z) (i : option nat) (raw : option string)
           (s : State) : State :=
  let 'mkState n1 n2 n3 n4 n5 mj be de lm li lr := s in
  mkState n1 n2 n3 n4 n5 mj be de ms i raw.

Section Audit.
Context {E : Engine} {H : Host}.

(** The helper [formatTime]: empty for no string, the string itself when it
    does not parse, else the local time of day as [HH:MM:SS]. *)
Definition formatTime (timeRaw : option string) : string :=
  match timeRaw with
  | None => ""%string
  | Some ""%string => ""%string
  | Some raw =>
      match Date_parse raw with
      | None => raw
      | Some t =>
          let local := (t + localOffsetMs t)%Z in
          let hours := padStart2 (String_of_Z ((local / 3600000) mod 24)) in
          let minutes := padStart2 (String_of_Z ((local / 60000) mod 60)) in
          let seconds := padStart2 (String_of_Z ((local / 1000) mod 60)) in
          (hours ++ ":" ++ minutes ++ ":" ++ seconds)%string
      end
  end.

(** [text] is the time of day, in the host's time zone and written
    [HH:MM:SS], of the timestamp of the point at position [k]. *)
Definition showsTimeOf (points : list Point) (k : nat) (text : string) : Prop :=
  exists point raw t,
    nth_error points k = Some point /\ timeRaw point = Some raw /\
    Date_parse raw = Some t /\
    (0 <= getHours t < 24)%Z /\ (0 <= getMinutes t < 60)%Z /\
    (0 <= getSeconds t < 60)%Z /\
    text = HH_MM_SS (getHours t) (getMinutes t) (getSeconds t) /\
    String.length text = 8%nat.

(** The body of the loop at index [i]; a [continue] ends the iteration. *)
Definition step (s : State) (i : nat) (point : Point) : State :=
  match timeRaw point with
  | None => incr_missing s
  | Some raw =>
      match Date_parse raw with
      | None => incr_unparsable s
      | Some timestampMs =>
          let s :=
            match lastValidTimestampMs s with
            | Some last =>
                if (timestampMs =? last)%Z then
                  let s := incr_duplicates s in
                  push_duplicateEvents
                    (mkDuplicate i (lastValidTimestampIndex s) (formatTime (Some raw))) s
                else if (timestampMs <? last)%Z then
                  let s := incr_backwards s in
                  let backwardJump := (last - timestampMs)%Z in
                  let s :=
                    match maxJump s with
                    | None => set_maxJump (Some backwardJump) s
                    | Some m =>
                        if (backwardJump >? m)%Z then set_maxJump (Some backwardJump) s
                        else s
                    end in
                  push_backwardEvents
                    (mkBackward i (lastValidTimestampIndex s)
                                (formatTime (lastValidTimestampRaw s))
                                (formatTime (Some raw))) s
                else if (timestampMs >? last)%Z then incr_increasing s
                else s
            | None => s
            end in
          set_lastValid (Some timestampMs) (Some i) (Some raw) s
      end
  end.

Definition auditTimestamps (points : list Point) : AuditMetadata :=
  let totalPointsChecked := length points in
  let s := forEachIndexed step 0 points init in
  mkAuditMetadata totalPointsChecked (missing s) (unparsable s) (duplicates s)
                  (backwards s) (increasing s) (maxJump s)
                  (backwardEvents s) (duplicateEvents s).

(** A point without [timeRaw], and one whose [timeRaw] does not parse. *)
Definition isMissing (point : Point) : bool :=
  match timeRaw point with
  | None => true
  | Some _ => false
  end.

Definition isUnparsable (point : Point) : bool :=
  match timeRaw point with
  | None => false
  | Some raw =>
      match Date_parse raw with
      | None => true
      | Some _ => false
      end
  end.

(** The timestamped points with their positions: index in the array, raw
    string and time value. *)
Fixpoint stampsFrom (i : nat) (points : list Point) : list (nat * string * Z) :=
  match points with
  | [] => []
  | point :: rest =>
      match timeRaw point with
      | Some raw =>
          match Date_parse raw with
          | Some t => (i, raw, t) :: stampsFrom (i + 1) rest
          | None => stampsFrom (i + 1) rest
          end
      | None => stampsFrom (i + 1) rest
      end
  end.

Definition stamps (points : list Point) : list (nat * string * Z) :=
  stampsFrom 0 points.

Definition stampIndex (s : nat * string * Z) : nat := fst (fst s).
Definition stampRaw (s : nat * string * Z) : string := snd (fst s).
Definition stampMs (s : nat * string * Z) : Z := snd s.

(** How a timestamped point stands to the timestamped point before it. *)
Definition sameTime (ab : (nat * string * Z) * (nat * string * Z)) : bool :=
  (stampMs (snd ab) =? stampMs (fst ab))%Z.
Definition goesBack (ab : (nat * string * Z) * (nat * string * Z)) : bool :=
  (stampMs (snd ab) <? stampMs (fst ab))%Z.
Definition goesForward (ab : (nat * string * Z) * (nat * string * Z)) : bool :=
  (stampMs (snd ab) >? stampMs (fst ab))%Z.
Definition jumpBack (ab : (nat * string * Z) * (nat * string * Z)) : Z :=
  (stampMs (fst ab) - stampMs (snd ab))%Z.

Definition duplicateEventOf (ab : (nat * string * Z) * (nat * string * Z))
  : DuplicateTimestampEvent :=
  mkDuplicate (stampIndex (snd ab)) (Some (stampIndex (fst ab)))
              (formatTime (Some (stampRaw (snd ab)))).

Definition backwardEventOf (ab : (nat * string * Z) * (nat * string * Z))
  : BackwardTimestampEvent :=
  mkBackward (stampIndex (snd ab)) (Some (stampIndex (fst ab)))
             (formatTime (Some (stampRaw (fst ab))))
             (formatTime (Some (stampRaw (snd ab)))).

(** The pairs of timestamped neighbours a stretch of the array brings,
    given the last timestamped point before it, if any. *)
Definition segmentPairs (anchor : option (nat * string * Z)) (i : nat)
           (points : list Point)
  : list ((nat * string * Z) * (nat * string * Z)) :=
  adjacentPairs (match anchor with
                 | Some a => a :: stampsFrom i points
                 | None => stampsFrom i points
                 end).

(** A state whose last valid timestamp is [anchor]. *)
Definition anchored (s : State) (anchor : option (nat * string * Z)) : Prop :=
  match anchor with
  | Some (k, raw, t) =>
      lastValidTimestampMs s = Some t /\
      lastValidTimestampIndex s = Some k /\
      lastValidTimestampRaw s = Some raw
  | None => lastValidTimestampMs s = None
  end.

(** The last timestamped point once a stretch has been read. *)
Definition anchorAfter (anchor : option (nat * string * Z)) (i : nat)
           (points : list Point) : option (nat * string * Z) :=
  match rev (stampsFrom i points) with
  | a :: _ => Some a
  | [] => anchor
  end.

(** Counters and logs, of a state and of a stretch of the array. *)
Record Tally : Type := mkTally {
  tallyMissing : nat;
  tallyUnparsable : nat;
  tallyDuplicates : nat;
  tallyBackwards : nat;
  tallyIncreasing : nat;
  tallyBackwardEvents : list BackwardTimestampEvent;
  tallyDuplicateEvents : list DuplicateTimestampEvent
}.

Definition tallyOfState (s : State) : Tally :=
  mkTally (missing s) (unparsable s) (duplicates s) (backwards s) (increasing s)
          (backwardEvents s) (duplicateEvents s).

Definition tallyOfSegment (anchor : option (nat * string * Z)) (i : nat)
           (points : list Point) : Tally :=
  let pairs := segmentPairs anchor i points in
  mkTally (length (filter isMissing points))
          (length (filter isUnparsable points))
          (length (filter sameTime pairs))
          (length (filter goesBack pairs))
          (length (filter goesForward pairs))
          (map backwardEventOf (filter goesBack pairs))
          (map duplicateEventOf (filter sameTime pairs)).

Definition tallyAppend (a b : Tally) : Tally :=
  mkTally (tallyMissing a + tallyMissing b)
          (tallyUnparsable a + tallyUnparsable b)
          (tallyDuplicates a + tallyDuplicates b)
          (tallyBackwards a + tallyBackwards b)
          (tallyIncreasing a + tallyIncreasing b)
          (tallyBackwardEvents a ++ tallyBackwardEvents b)
          (tallyDuplicateEvents a ++ tallyDuplicateEvents b).

End Audit.

(** The jump the loop keeps: the greater one, the earlier of equal ones. *)
Definition keepGreater (best : option Z) (jump : Z) : option Z :=
  match best with
  | None => Some jump
  | Some m => if (jump >? m)%Z then Some jump else best
  end.

Definition greatestJump (jumps : list Z) : option Z :=
  fold_left keepGreater jumps None.

End TimestampAudit.

(** A host on UTC. *)
Module UtcHost.
#[export] Instance host : Host := {| localOffsetMs := fun _ => 0%Z |}.
End UtcHost.

(* ================================================================== *)
(** * The earlier revision of the sampling auditor *)
(* ================================================================== *)

(** [src/js/sampling-audit.js] opens with an earlier revision of
    [auditSampling]: one distance series, gated by [hasValidTimestamps]
    instead of [hasTimeProgression], no counters, no joint pass.  The
    console lines and the two downloads that follow the construction of the
    result object do not change it and are left out. *)
Module Earlier.

(** The local variables of the loop. *)
Module Loop.
Record State : Type := mkState {
  timeDeltasMs : list Z;
  distanceDeltasM : list float;
  previousTimestampMs : option Z;
  previousPoint : option (float * float)
}.

Definition init : State := mkState [] [] None None.

Definition push_timeDeltasMs (d : Z) (s : State) : State :=
  let 'mkState td dd pt pp := s in mkState (td ++ [d]) dd pt pp.
Definition push_distanceDeltasM (d : float) (s : State) : State :=
  let 'mkState td dd pt pp := s in mkState td (dd ++ [d]) pt pp.
Definition set_previousTimestampMs (t : option Z) (s : State) : State :=
  let 'mkState td dd pt pp := s in mkState td dd t pp.
Definition set_previousPoint (p : option (float * float)) (s : State) : State :=
  let 'mkState td dd pt pp := s in mkState td dd pt p.
End Loop.

(** The object the earlier [auditSampling] returns. *)
Record AuditResult : Type := mkAuditResult {
  timeDeltasMs : list Z;
  totalDeltaCount : nat;
  minDeltaMs : option Z;
  maxDeltaMs : option Z;
  medianDeltaMs : option float;
  distanceDeltasM : list float
}.

Section Auditor.
Context {E : Engine}.
Local Open Scope float_scope.

(** The distance to the previous point, pushed when finite and positive. *)
Definition pushDistance (s : Loop.State) (point : Point) : Loop.State :=
  match Loop.previousPoint s with
  | Some previousPoint =>
      let distance := haversineDistance (fst previousPoint) (snd previousPoint)
                                        (lat point) (lon point) in
      if acceptedDistance distance then Loop.push_distanceDeltasM distance s else s
  | None => s
  end.

(** The body of the main loop. *)
Definition step (hasValidTimestamps : bool) (s : Loop.State) (i : nat) (point : Point)
  : Loop.State :=
  let s :=
    match parsedTimestamp point with
    | Some currentTimestampMs =>
        let s :=
          match Loop.previousTimestampMs s with
          | Some previousTimestampMs =>
              let delta := (currentTimestampMs - previousTimestampMs)%Z in
              if (delta >? 0)%Z then
                let s := Loop.push_timeDeltasMs delta s in
                pushDistance s point
              else s
          | None => s
          end in
        Loop.set_previousTimestampMs (Some currentTimestampMs) s
    | None =>
        if negb hasValidTimestamps then pushDistance s point else s
    end in
  Loop.set_previousPoint (Some (lat point, lon point)) s.

Definition auditSampling (points : list Point) : AuditResult :=
  let hasValidTimestamps := presenceScan points in
  let s := forEachIndexed (step hasValidTimestamps) 0 points Loop.init in
  let totalDeltaCount := length (Loop.timeDeltasMs s) in
  let sortedDeltas := sortAscending (Loop.timeDeltasMs s) in
  let stats :=
    if (0 <? totalDeltaCount)%nat
    then (Some (nth 0 sortedDeltas 0%Z),
          Some (nth (length sortedDeltas - 1) sortedDeltas 0%Z),
          Some (medianOfSorted sortedDeltas))
    else (None, None, None) in
  {| timeDeltasMs := Loop.timeDeltasMs s;
     totalDeltaCount := totalDeltaCount;
     minDeltaMs := fst (fst stats);
     maxDeltaMs := snd (fst stats);
     medianDeltaMs := snd stats;
     distanceDeltasM := Loop.distanceDeltasM s |}.

End Auditor.

End Earlier.

(** The loops of the two revisions, side by side. *)
Definition inStep (hasValidTimestamps : bool) (s : Earlier.Loop.State) (s' : Primary.State)
  : Prop :=
  Earlier.Loop.timeDeltasMs s = Primary.timeDeltasMs s' /\
  Earlier.Loop.previousTimestampMs s = Primary.previousTimestampMs s' /\
  Earlier.Loop.previousPoint s = Primary.previousPoint s' /\
  Earlier.Loop.distanceDeltasM s
  = if hasValidTimestamps then Primary.distanceDeltasMTimeConditioned s'
    else Primary.distanceDeltasMGeometryOnly s'.

(* ================================================================== *)
(** * Ingestion ([src/js/gpx-ingestion-module.js]) *)
(* ================================================================== *)

(** What the browser adds: the global [parseFloat] on a string,
    [String.prototype.trim], the DOM nodes (kept, never inspected), and
    [DOMParser.parseFromString] followed by the selector queries the code
    makes on the document. *)
Module Ingestion.

Inductive PointType : Type := wpt | rtept | trkpt.

(** What the code reads of a point element: two attributes
    ([getAttribute] answers [null] for a missing one) and the first [ele],
    [time] and [extensions] descendants ([querySelector] answers [null] when
    there is none), the first two through [textContent]. *)
Record PointElement (Node : Type) : Type := mkPointElement {
  attrLat : option string;
  attrLon : option string;
  eleText : option string;
  timeText : option string;
  extensionsNode : option Node
}.
Arguments mkPointElement {Node}.
Arguments attrLat {Node}.
Arguments attrLon {Node}.
Arguments eleText {Node}.
Arguments timeText {Node}.
Arguments extensionsNode {Node}.

(** What the code reads of the parsed document: the text of a
    [parsererror] element, if any, and the three [querySelectorAll] lists. *)
Record Document (Node : Type) : Type := mkDocument {
  parsererror : option string;
  waypoints : list (PointElement Node);
  routePoints : list (PointElement Node);
  trackPoints : list (PointElement Node)
}.
Arguments mkDocument {Node}.
Arguments parsererror {Node}.
Arguments waypoints {Node}.
Arguments routePoints {Node}.
Arguments trackPoints {Node}.

Class Browser : Type := {
  Node : Type;
  parseFloat : string -> float;
  trim : string -> string
}.

Class DomParser {B : Browser} : Type := {
  parseFromString : string -> Document Node
}.

(** [rawData], logged for a rejected point. *)
Record RawData : Type := mkRawData {
  rawPointType : PointType;
  rawIndex : nat;
  rawLat : option string;
  rawLon : option string;
  rawEle : option string;
  rawTime : option string
}.

(** The two rejection messages, by the values they show. *)
Inductive RejectionReason : Type :=
| NotParseable (rawLat rawLon : option string)
| OutOfRangeOrNonFinite (lat lon : float).

(** A point as ingestion returns it. *)
Record GpxPoint (Node : Type) : Type := mkGpxPoint {
  index : nat;
  pointType : PointType;
  lat : float;
  lon : float;
  ele : option float;
  timeRaw : option string;
  extensions : option Node
}.
Arguments mkGpxPoint {Node}.
Arguments index {Node}.
Arguments pointType {Node}.
Arguments lat {Node}.
Arguments lon {Node}.
Arguments ele {Node}.
Arguments timeRaw {Node}.
Arguments extensions {Node}.

(** The object [parsePointElement] returns. *)
Record ParseOutcome (Node : Type) : Type := mkParseOutcome {
  valid : bool;
  point : option (GpxPoint Node);
  rejectionReason : option RejectionReason;
  rawData : option RawData
}.
Arguments mkParseOutcome {Node}.
Arguments valid {Node}.
Arguments point {Node}.
Arguments rejectionReason {Node}.
Arguments rawData {Node}.

(** What [console.log] prints. *)
Inductive ConsoleLine : Type :=
| FirstRejectedPoint (rawData : option RawData)
| RejectionReasonLine (reason : option RejectionReason).

Record Stats : Type := mkStats {
  totalPointsFound : nat;
  pointsDiscarded : nat;
  remainingPoints : nat
}.

(** The object [parseGPX] returns. *)
Record ParseResult (Node : Type) : Type := mkParseResult {
  points : list (GpxPoint Node);
  stats : Stats
}.
Arguments mkParseResult {Node}.
Arguments points {Node}.
Arguments stats {Node}.

(** How [parseGPX] ends: it returns, or throws an [Error] with a message. *)
Inductive Outcome (A : Type) : Type :=
| Returned (value : A)
| Threw (message : string).
Arguments Returned {A} value.
Arguments Threw {A} message.

(** The local variables of [parseGPX], with the console. *)
Record State (Node : Type) : Type := mkState {
  collected : list (GpxPoint Node);
  globalIndex : nat;
  total : nat;
  discarded : nat;
  firstRejectionLogged : bool;
  console : list ConsoleLine
}.
Arguments mkState {Node}.
Arguments collected {Node}.
Arguments globalIndex {Node}.
Arguments total {Node}.
Arguments discarded {Node}.
Arguments firstRejectionLogged {Node}.
Arguments console {Node}.

Section Parse.
Context {B : Browser} {P : DomParser}.
Local Open Scope float_scope.

(** [parseFloat] of an attribute: a missing one is the string [null]. *)
Definition parseFloatOf (raw : option string) : float :=
  match raw with
  | Some s => parseFloat s
  | None => parseFloat "null"
  end.

(** [lat < -90 || lat > 90 || lon < -180 || lon > 180]. *)
Definition outOfRange (lat lon : float) : bool :=
  (lat <? -90) || gt lat 90 || (lon <? -180) || gt lon 180.

Definition parsePointElement (pointElement : PointElement Node) (index : nat)
           (pointType : PointType) : ParseOutcome Node :=
  let rawLat := attrLat pointElement in
  let rawLon := attrLon pointElement in
  let rawEle := eleText pointElement in
  let rawTime := option_map trim (timeText pointElement) in
  let rawData := mkRawData pointType index rawLat rawLon rawEle rawTime in
  let lat := parseFloatOf rawLat in
  let lon := parseFloatOf rawLon in
  if isNaN lat || isNaN lon then
    mkParseOutcome false None (Some (NotParseable rawLat rawLon)) (Some rawData)
  else if negb (isFinite lat) || negb (isFinite lon) || outOfRange lat lon then
    mkParseOutcome false None (Some (OutOfRangeOrNonFinite lat lon)) (Some rawData)
  else
    let ele := option_map parseFloat (eleText pointElement) in
    let elevation :=
      match ele with
      | Some e => if negb (isNaN e) then Some e else None
      | None => None
      end in
    let timeRaw :=
      match timeText pointElement with
      | Some text =>
          let t := trim text in
          if String.eqb t "" then None else Some t
      | None => None
      end in
    let extensions := extensionsNode pointElement in
    mkParseOutcome true
                   (Some (mkGpxPoint index pointType lat lon elevation timeRaw extensions))
                   None None.

(** The helper [processPoint]: one element, at the next global index. *)
Definition processPoint (pointType : PointType) (s : State Node)
           (pointElement : PointElement Node) : State Node :=
  let result := parsePointElement pointElement (globalIndex s) pointType in
  let s := mkState (collected s) (globalIndex s + 1) (total s) (discarded s)
                   (firstRejectionLogged s) (console s) in
  match valid result, point result with
  | true, Some p =>
      mkState (collected s ++ [p]) (globalIndex s) (total s) (discarded s)
              (firstRejectionLogged s) (console s)
  | _, _ =>
      let s := mkState (collected s) (globalIndex s) (total s) (discarded s + 1)
                       (firstRejectionLogged s) (console s) in
      if negb (firstRejectionLogged s) then
        mkState (collected s) (globalIndex s) (total s) (discarded s) true
                (console s ++ [FirstRejectedPoint (rawData result);
                               RejectionReasonLine (rejectionReason result)])
      else s
  end.

(** One group: [totalPointsFound += elements.length], then [forEach]. *)
Definition processGroup (pointType : PointType) (s : State Node)
           (elements : list (PointElement Node)) : State Node :=
  let s := mkState (collected s) (globalIndex s) (total s + length elements) (discarded s)
                   (firstRejectionLogged s) (console s) in
  fold_left (processPoint pointType) elements s.

Definition init : State Node := mkState [] 0 0 0 false [].

Definition parseDocument (xmlDoc : Document Node) : State Node :=
  let s := processGroup wpt init (waypoints xmlDoc) in
  let s := processGroup rtept s (routePoints xmlDoc) in
  processGroup trkpt s (trackPoints xmlDoc).

Definition parseGPX (gpxString : string) : Outcome (ParseResult Node) :=
  let xmlDoc := parseFromString gpxString in
  match parsererror xmlDoc with
  | Some text => Threw ("GPX parsing error: " ++ text)
  | None =>
      let s := parseDocument xmlDoc in
      Returned (mkParseResult (collected s)
                              (mkStats (total s) (discarded s) (length (collected s))))
  end.

(** What [parseGPX] prints before it returns. *)
Definition consoleOf (gpxString : string) : list ConsoleLine :=
  let xmlDoc := parseFromString gpxString in
  match parsererror xmlDoc with
  | Some _ => []
  | None => console (parseDocument xmlDoc)
  end.

(** The elements of the document, each with its type, in the order
    [parseGPX] visits them. *)
Definition elementsOf (xmlDoc : Document Node) : list (PointType * PointElement Node) :=
  map (pair wpt) (waypoints xmlDoc)
  ++ map (pair rtept) (routePoints xmlDoc)
  ++ map (pair trkpt) (trackPoints xmlDoc).

(** Does [parsePointElement] accept the element. *)
Definition accepted (pointElement : PointElement Node) : bool :=
  let lat := parseFloatOf (attrLat pointElement) in
  let lon := parseFloatOf (attrLon pointElement) in
  negb (isNaN lat || isNaN lon)
  && negb (negb (isFinite lat) || negb (isFinite lon) || outOfRange lat lon).

(** The points [parseGPX] collects from the elements visited from global
    index [k] on. *)
Fixpoint parseFrom (k : nat) (elements : list (PointType * PointElement Node))
  : list (GpxPoint Node) :=
  match elements with
  | [] => []
  | (pointType, pointElement) :: rest =>
      match point (parsePointElement pointElement k pointType) with
      | Some p => p :: parseFrom (k + 1) rest
      | None => parseFrom (k + 1) rest
      end
  end.

(** The first element [parsePointElement] rejects, with its global index. *)
Fixpoint firstRejected (k : nat) (elements : list (PointType * PointElement Node))
  : option (ParseOutcome Node) :=
  match elements with
  | [] => None
  | (pointType, pointElement) :: rest =>
      if accepted pointElement then firstRejected (k + 1) rest
      else Some (parsePointElement pointElement k pointType)
  end.

(** The lines printed for a rejection. *)
Definition logLines (o : option (ParseOutcome Node)) : list ConsoleLine :=
  match o with
  | Some o => [FirstRejectedPoint (rawData o); RejectionReasonLine (rejectionReason o)]
  | None => []
  end.

Definition rejected (e : PointType * PointElement Node) : bool :=
  negb (accepted (snd e)).

(** The fields of a point the audits read. *)
Definition toPoint (p : GpxPoint Node) : Point :=
  mkPoint (lat p) (lon p) (timeRaw p).

(** What holds of a point [parsePointElement] returns. *)
Definition wellFormed (p : GpxPoint Node) : Prop :=
  isFinite (lat p) = true /\ isFinite (lon p) = true /\
  le (-90) (lat p) = true /\ le (lat p) 90 = true /\
  le (-180) (lon p) = true /\ le (lon p) 180 = true /\
  (forall e, ele p = Some e -> isNaN e = false) /\
  timeRaw p <> Some ""%string.

End Parse.

End Ingestion.

(** A stand-in for the browser, for running the embedding on the samples
    below: it agrees with [parseFloat] on plain decimal numerals (an
    optional minus sign, digits, an optional fraction; at most fifteen
    digits, so that the quotient below is the nearest double) and on strings
    that start with no numeral, where both answer NaN; it trims ASCII white
    space; its nodes are strings.  The general theorems hold for every
    browser. *)
Module RefBrowser.

Local Open Scope float_scope.

Fixpoint beforeDot (cs : list ascii) : list ascii * option (list ascii) :=
  match cs with
  | [] => ([], None)
  | "."%char :: rest => ([], Some rest)
  | c :: rest => let (whole, frac) := beforeDot rest in (c :: whole, frac)
  end.

Definition parseFloat_ref (s : string) : float :=
  let cs := list_ascii_of_string s in
  let (negative, body) :=
    match cs with
    | "-"%char :: rest => (true, rest)
    | _ => (false, cs)
    end in
  let (whole, dotted) := beforeDot body in
  let frac := match dotted with Some frac => frac | None => [] end in
  if Nat.eqb (length whole + length frac) 0 || Nat.ltb 15 (length whole + length frac)
  then nan
  else
    match RefEngine.digits 0 (whole ++ frac) with
    | Some n =>
        let magnitude := Number_of_Z n / Number_of_Z (10 ^ Z.of_nat (length frac)) in
        if negative then - magnitude else magnitude
    | None => nan
    end.

Definition isWhiteSpace (c : ascii) : bool :=
  let n := nat_of_ascii c in
  Nat.eqb n 32 || (Nat.leb 9 n && Nat.leb n 13).

Fixpoint trimStart (cs : list ascii) : list ascii :=
  match cs with
  | c :: rest => if isWhiteSpace c then trimStart rest else cs
  | [] => []
  end.

Definition trim_ref (s : string) : string :=
  string_of_list_ascii
    (rev (trimStart (rev (trimStart (list_ascii_of_string s))))).

#[export] Instance browser : Ingestion.Browser := {|
  Ingestion.Node := string;
  Ingestion.parseFloat := parseFloat_ref;
  Ingestion.trim := trim_ref
|}.

End RefBrowser.

(** More sample data. *)
Module Tracks.

Local Open Scope float_scope.
Local Open Scope string_scope.

(** Eight points: one without a timestamp, one with an unparsable one, a
    duplicate and two steps back. *)
Definition jumpy : list Point :=
  [ mkPoint 0 0 (Some "2024-01-01T10:00:00Z");
    mkPoint 0 0.125 None;
    mkPoint 0 0.25 (Some "2024-01-01T10:00:05Z");
    mkPoint 0 0.375 (Some "yesterday");
    mkPoint 0 0.5 (Some "2024-01-01T10:00:05Z");
    mkPoint 0 0.625 (Some "2024-01-01T09:59:50Z");
    mkPoint 0 0.75 (Some "2024-01-01T10:00:10Z");
    mkPoint 0 0.875 (Some "2024-01-01T10:00:08Z") ].

(** The same time values, elsewhere and with nothing in between. *)
Definition jumpyTimesOnly : list Point :=
  [ mkPoint 1 1 (Some "2024-01-01T10:00:00Z");
    mkPoint 1 1 (Some "2024-01-01T10:00:05Z");
    mkPoint 1 1 (Some "2024-01-01T10:00:05Z");
    mkPoint 1 1 (Some "2024-01-01T09:59:50Z");
    mkPoint 1 1 (Some "2024-01-01T10:00:10Z");
    mkPoint 1 1 (Some "2024-01-01T10:00:08Z") ].

(** The same coordinates, without timestamps. *)
Definition jumpyUntimed : list Point :=
  map (fun point => mkPoint (lat point) (lon point) None) jumpy.

(** Two points apart, at the same time. *)
Definition frozenClock : list Point :=
  [ mkPoint 0 0 (Some "2024-01-01T10:00:00Z");
    mkPoint 0 0.125 (Some "2024-01-01T10:00:00Z") ].

(** Deltas of a track sampled every five seconds, with two invalid
    entries. *)
Definition steady : list float := [5; 5; 0; 5; -1; 5].

(** A document of one waypoint and four track points: the second track
    point lies north of the pole, the third has no longitude. *)
Definition document : Ingestion.Document string :=
  Ingestion.mkDocument None
    [ Ingestion.mkPointElement (Some "47.5") (Some "8.25") (Some "431.5") None None ]
    []
    [ Ingestion.mkPointElement (Some "47.5") (Some "8.5") None
                               (Some " 2024-01-01T10:00:00Z ") None;
      Ingestion.mkPointElement (Some "91") (Some "8.5") None
                               (Some "2024-01-01T10:00:05Z") None;
      Ingestion.mkPointElement (Some "47.5") None None None None;
      Ingestion.mkPointElement (Some "-47.5") (Some "-8.5") (Some "high")
                               (Some "   ") (Some "<extensions/>") ].

End Tracks.
(* ================================================================== *)
(** * Rounding in binary64 *)
(* ================================================================== *)

(** The kernel specifies the arithmetic of doubles by the algorithms of
    [SpecFloat]: an operation computes a mantissa, an exponent and the
    location of the exact result between two mantissas, shifts the mantissa
    to the exponent of the format and rounds to nearest, ties to even.
    What follows names the notions needed to read these algorithms as a
    function of the exact result, so as to compare the doubles of the grid
    of [computeKDE] with one another. *)
Module Binary64.

Local Open Scope Z_scope.





















End Binary64.

(** The abscissa [computeKDE] computes at index [i] of a grid of [n]
    points, part by part. *)
Section GridParts.
Local Open Scope float_scope.


End GridParts.
(* ================================================================== *)
(** * Facts about doubles *)
(* ================================================================== *)

Module DoubleFacts.

Local Open Scope float_scope.

Lemma SFeqb_finite_refl s m e :
  SFeqb (S754_finite s m e) (S754_finite s m e) = true.
Proof.
  unfold SFeqb, SFcompare.
  change (IntDef.Z.compare e e) with (Z.compare e e).
  rewrite Z.compare_refl.
  change (PosDef.Pos.compare_cont Eq m m) with (Pos.compare_cont Eq m m).
  rewrite Pos.compare_cont_refl. destruct s; reflexivity.
Qed.

Lemma is_nan_Prim2SF x : is_nan x = true <-> Prim2SF x = S754_nan.
Proof.
  unfold is_nan. rewrite FloatAxioms.eqb_spec.
  destruct (Prim2SF x) as [s| s| |s m e].
  - simpl; split; discriminate.
  - destruct s; simpl; split; discriminate.
  - simpl; split; reflexivity.
  - rewrite SFeqb_finite_refl. simpl; split; discriminate.
Qed.

(** There is one NaN. *)
Lemma is_nan_eq x : is_nan x = true -> x = nan.
Proof.
  intros H. apply Prim2SF_inj. apply is_nan_Prim2SF in H. now rewrite H.
Qed.

Ltac nan_absorbs :=
  apply Prim2SF_inj;
  rewrite ?mul_spec, ?add_spec, ?sub_spec, ?div_spec;
  change (Prim2SF nan) with S754_nan;
  match goal with
  | |- context [Prim2SF ?x] =>
      destruct (Prim2SF x) as [[|]|[|]| |[|] ? ?]; reflexivity
  end.

Lemma mul_nan_r x : x * nan = nan.
Proof. nan_absorbs. Qed.

Lemma mul_nan_l x : nan * x = nan.
Proof. nan_absorbs. Qed.

Lemma add_nan_r x : x + nan = nan.
Proof. nan_absorbs. Qed.

Lemma sub_nan_l x : nan - x = nan.
Proof. nan_absorbs. Qed.

Lemma div_nan_l x : nan / x = nan.
Proof. nan_absorbs. Qed.

Lemma is_zero_Prim2SF h : is_zero h = true -> exists s, Prim2SF h = S754_zero s.
Proof.
  unfold is_zero. rewrite FloatAxioms.eqb_spec.
  change (Prim2SF zero) with (S754_zero false).
  destruct (Prim2SF h) as [s|[|]| |[|] m e]; simpl; try discriminate.
  intros _. now exists s.
Qed.

(** Dividing by a zero never gives a finite quotient. *)
Lemma div_by_zero x h : is_zero h = true -> nan_or_inf (x / h).
Proof.
  intros Hh. destruct (is_zero_Prim2SF h Hh) as [s Hs].
  unfold nan_or_inf. rewrite div_spec, Hs.
  destruct (Prim2SF x) as [sx|sx| |sx m e]; simpl; eauto.
Qed.

(** The exponent of the Gaussian kernel, [-0.5 * u * u], at such a quotient. *)
Lemma kernel_exponent_nan_or_inf u :
  nan_or_inf u -> -0.5 * u * u = nan \/ -0.5 * u * u = neg_infinity.
Proof.
  intros [Hu|[s Hu]].
  - left. apply Prim2SF_inj. rewrite !mul_spec, Hu.
    destruct (Prim2SF (-0.5)); reflexivity.
  - right. apply Prim2SF_inj. rewrite !mul_spec, Hu.
    destruct s; reflexivity.
Qed.

Lemma mul_zero_nan_or_inf x : nan_or_inf x -> 0 * x = nan.
Proof.
  intros [Hx|[s Hx]]; apply Prim2SF_inj; rewrite mul_spec, Hx; reflexivity.
Qed.

(** The normalisation constant [1 / (n * h * sqrt(2 pi))] at a zero [h]. *)
Lemma normalization_zero_bandwidth n h :
  is_zero h = true -> nan_or_inf (1 / (n * h * Math_sqrt (2 * Math_PI))).
Proof.
  intros Hh. destruct (is_zero_Prim2SF h Hh) as [s Hs].
  unfold nan_or_inf. rewrite div_spec, !mul_spec, Hs.
  set (c := Prim2SF (Math_sqrt (2 * Math_PI))). vm_compute in c. subst c.
  change (Prim2SF 1) with (S754_finite false 4503599627370496 (-52)).
  destruct (Prim2SF n) as [sn|sn| |sn m e]; destruct s; simpl; eauto.
Qed.

End DoubleFacts.

(* ================================================================== *)
(** * Loops that push *)
(* ================================================================== *)

Lemma fold_left_push {A B : Type} (f : B -> A) (xs : list B) (acc : list A) :
  fold_left (fun out x => out ++ [f x]) xs acc = acc ++ map f xs.
Proof.
  revert acc. induction xs as [|x xs IH]; intros acc; simpl.
  - now rewrite app_nil_r.
  - rewrite IH, <- app_assoc. reflexivity.
Qed.

Lemma fold_left_push_if {A B : Type} (keep : B -> bool) (f : B -> A)
      (xs : list B) (acc : list A) :
  fold_left (fun out x => if keep x then out ++ [f x] else out) xs acc
  = acc ++ map f (filter keep xs).
Proof.
  revert acc. induction xs as [|x xs IH]; intros acc; simpl.
  - now rewrite app_nil_r.
  - rewrite IH. destruct (keep x); simpl.
    + now rewrite <- app_assoc.
    + reflexivity.
Qed.

(** A counting loop over [xs[j]] reads the elements in order. *)
Lemma fold_left_seq_nth {A S : Type} (body : S -> A -> S) (d : A) (xs : list A) (s : S) :
  fold_left (fun acc j => body acc (nth j xs d)) (seq 0 (length xs)) s
  = fold_left body xs s.
Proof.
  enough (H : forall pre s,
             fold_left (fun acc j => body acc (nth j (pre ++ xs) d))
                       (seq (length pre) (length xs)) s
             = fold_left body xs s) by exact (H [] s).
  induction xs as [|x xs IH]; intros pre s0; simpl.
  - reflexivity.
  - rewrite app_nth2, Nat.sub_diag by lia. simpl.
    specialize (IH (pre ++ [x]) (body s0 x)).
    rewrite <- app_assoc, length_app in IH. simpl in IH.
    rewrite Nat.add_1_r in IH. exact IH.
Qed.

(* ================================================================== *)
(** * The density estimator: theorems *)
(* ================================================================== *)

Section KDEFacts.
Context {E : Engine}.
Local Open Scope float_scope.
Import DoubleFacts.

Lemma some_valid_datum data :
  (exists d, In d data /\ validDatum d = true) <->
  Nat.eqb (length (filter validDatum data)) 0 = false.
Proof.
  rewrite Nat.eqb_neq. split.
  - intros (d & Hin & Hd) Hlen.
    apply length_zero_iff_nil in Hlen.
    assert (Hf : In d (filter validDatum data)) by (apply filter_In; auto).
    rewrite Hlen in Hf. exact Hf.
  - intros Hlen. destruct (filter validDatum data) as [|d rest] eqn:Hf.
    + now elim Hlen.
    + exists d. apply filter_In. rewrite Hf. now left.
Qed.

(** How a call of [computeKDE] ends: an empty curve when nothing is kept;
    else a [RangeError] when the engine does not take the kept values as
    arguments, and the curve of the loop when it does. *)
Lemma computeKDE_outcome data h numPoints :
  computeKDE data h numPoints
  = if Nat.eqb (length (filter validDatum data)) 0 then Normal []
    else if acceptsArguments (length (filter validDatum data))
         then Normal (curveOf data h numPoints)
         else Throw RangeError.
Proof.
  unfold computeKDE, spread, andThen, curveOf, normalizationOf, validDataLogOf.
  rewrite !length_map.
  destruct (Nat.eqb (length (filter validDatum data)) 0); [reflexivity|].
  destruct (acceptsArguments (length (filter validDatum data))); [|reflexivity].
  rewrite fold_left_push. reflexivity.
Qed.

(** With a valid datum the curve is the loop body at 0, ..., numPoints-1. *)
Lemma computeKDE_some_valid data h numPoints :
  (exists d, In d data /\ validDatum d = true) ->
  acceptsArguments (length (filter validDatum data)) = true ->
  computeKDE data h numPoints = Normal (curveOf data h numPoints).
Proof.
  intros Hv Hfits. apply some_valid_datum in Hv.
  now rewrite computeKDE_outcome, Hv, Hfits.
Qed.

Lemma computeKDE_refused data h numPoints :
  (exists d, In d data /\ validDatum d = true) ->
  acceptsArguments (length (filter validDatum data)) = false ->
  computeKDE data h numPoints = Throw RangeError.
Proof.
  intros Hv Hfits. apply some_valid_datum in Hv.
  now rewrite computeKDE_outcome, Hv, Hfits.
Qed.

Lemma no_valid_datum data :
  (forall d, In d data -> validDatum d = false) -> filter validDatum data = [].
Proof.
  intros Hnone. induction data as [|d data IH]; simpl; [reflexivity|].
  rewrite (Hnone d) by now left. apply IH. intros d' Hd'. apply Hnone. now right.
Qed.

Lemma computeKDE_no_valid data h numPoints :
  (forall d, In d data -> validDatum d = false) ->
  computeKDE data h numPoints = Normal [].
Proof.
  intros Hnone. rewrite computeKDE_outcome, (no_valid_datum data Hnone). reflexivity.
Qed.

Lemma length_curveOf data h numPoints : length (curveOf data h numPoints) = numPoints.
Proof. unfold curveOf. now rewrite length_map, length_seq. Qed.


Lemma validDataLogOf_nonempty data :
  (exists d, In d data /\ validDatum d = true) -> validDataLogOf data <> [].
Proof.
  intros Hv Hnil. apply some_valid_datum in Hv. apply Nat.eqb_neq in Hv.
  apply Hv. unfold validDataLogOf in Hnil.
  apply (f_equal (@length float)) in Hnil. now rewrite length_map in Hnil.
Qed.

(** A NaN abscissa makes every kernel NaN. *)
Lemma kernelSum_nan logs h :
  logs <> [] -> kernelSum logs h nan = nan.
Proof.
  intros Hne. unfold kernelSum.
  rewrite (fold_left_seq_nth
             (fun density l => density + Math_exp (-0.5 * ((nan - l) / h) * ((nan - l) / h)))).
  assert (Hstep : forall l density,
             density + Math_exp (-0.5 * ((nan - l) / h) * ((nan - l) / h)) = nan).
  { intros l density. rewrite sub_nan_l, div_nan_l, !mul_nan_r.
    change (Math_exp nan) with nan. apply add_nan_r. }
  destruct logs as [|l logs]; [now elim Hne|]. clear Hne. simpl. rewrite Hstep.
  induction logs as [|l' logs IH]; simpl; [reflexivity|].
  rewrite Hstep. exact IH.
Qed.

(** With a zero bandwidth every kernel is +0 or NaN, and so is their sum. *)
Lemma kernelSum_zero_bandwidth logs h xLog :
  is_zero h = true -> kernelSum logs h xLog = 0 \/ kernelSum logs h xLog = nan.
Proof.
  intros Hh. unfold kernelSum.
  rewrite (fold_left_seq_nth
             (fun density l => density + Math_exp (-0.5 * ((xLog - l) / h) * ((xLog - l) / h)))).
  assert (Hstep : forall l density, density = 0 \/ density = nan ->
             let density' := density + Math_exp (-0.5 * ((xLog - l) / h) * ((xLog - l) / h)) in
             density' = 0 \/ density' = nan).
  { intros l density Hd.
    destruct (kernel_exponent_nan_or_inf _ (div_by_zero (xLog - l) h Hh)) as [Hk|Hk];
      cbv zeta; rewrite Hk.
    - right. change (Math_exp nan) with nan. apply add_nan_r.
    - change (Math_exp neg_infinity) with 0.
      destruct Hd as [->| ->]; [left; reflexivity | right; reflexivity]. }
  enough (Hfold : forall density, density = 0 \/ density = nan ->
             let r := fold_left
                        (fun density l =>
                           density + Math_exp (-0.5 * ((xLog - l) / h) * ((xLog - l) / h)))
                        logs density in
             r = 0 \/ r = nan) by (apply Hfold; now left).
  induction logs as [|l logs IH]; intros density Hd; simpl; [exact Hd|].
  apply IH. apply Hstep. exact Hd.
Qed.

Lemma density_zero_bandwidth logs h xLog n :
  is_zero h = true ->
  kernelSum logs h xLog * (1 / (n * h * Math_sqrt (2 * Math_PI))) = nan.
Proof.
  intros Hh.
  destruct (kernelSum_zero_bandwidth logs h xLog Hh) as [-> | ->].
  - apply mul_zero_nan_or_inf. now apply normalization_zero_bandwidth.
  - apply mul_nan_l.
Qed.

(** With a zero bandwidth every density of the curve is NaN. *)
Lemma curveOf_zero_bandwidth data h numPoints :
  is_zero h = true ->
  Forall (fun p => isNaN (y p) = true) (curveOf data h numPoints).
Proof.
  intros Hh. apply Forall_forall. intros p Hp.
  apply in_map_iff in Hp. destruct Hp as (i & <- & _).
  unfold kdePointAt, normalizationOf; simpl.
  now rewrite density_zero_bandwidth.
Qed.

End KDEFacts.
(* ================================================================== *)
(** * Comparing doubles *)
(* ================================================================== *)

Module DoubleOrder.

Import DoubleFacts.
Local Open Scope float_scope.

Lemma SFcompare_antisym x y :
  SFcompare y x = option_map CompOpp (SFcompare x y).
Proof.
  destruct x as [sx|sx| |sx mx ex], y as [sy|sy| |sy my ey]; cbn [SFcompare option_map];
    try reflexivity; try (destruct sx; reflexivity); try (destruct sy; reflexivity);
    try (destruct sx, sy; reflexivity).
  change (IntDef.Z.compare ey ex) with (Z.compare ey ex).
  change (IntDef.Z.compare ex ey) with (Z.compare ex ey).
  change (PosDef.Pos.compare_cont Eq my mx) with (Pos.compare_cont Eq my mx).
  change (PosDef.Pos.compare_cont Eq mx my) with (Pos.compare_cont Eq mx my).
  rewrite (Z.compare_antisym ex ey).
  assert (Hm : Pos.compare_cont Eq my mx = CompOpp (Pos.compare_cont Eq mx my))
    by (symmetry; apply (Pos.compare_cont_antisym mx my Eq)).
  rewrite Hm.
  destruct sx, sy; cbn [CompOpp]; try reflexivity;
    destruct (ex ?= ey)%Z; cbn [CompOpp]; reflexivity.
Qed.

Lemma ltb_asym a b : (a <? b) = true -> (b <? a) = false.
Proof.
  rewrite !ltb_spec. unfold SFltb. rewrite (SFcompare_antisym (Prim2SF a) (Prim2SF b)).
  destruct (SFcompare (Prim2SF a) (Prim2SF b)) as [[| |]|]; cbn; congruence.
Qed.

Lemma ltb_irrefl a : (a <? a) = false.
Proof.
  destruct (a <? a) eqn:Hlt; [|reflexivity].
  now rewrite (ltb_asym a a Hlt) in Hlt.
Qed.

Lemma leb_not_ltb a b : (a <=? b) = true -> (b <? a) = false.
Proof.
  rewrite leb_spec, ltb_spec. unfold SFleb, SFltb.
  rewrite (SFcompare_antisym (Prim2SF a) (Prim2SF b)).
  destruct (SFcompare (Prim2SF a) (Prim2SF b)) as [[| |]|]; cbn; congruence.
Qed.

(** Two doubles, neither NaN, compare. *)
Lemma not_ltb_leb a b :
  is_nan a = false -> is_nan b = false -> (a <? b) = false -> (b <=? a) = true.
Proof.
  intros Ha Hb.
  assert (Ha' : Prim2SF a <> S754_nan)
    by (intros H; apply is_nan_Prim2SF in H; congruence).
  assert (Hb' : Prim2SF b <> S754_nan)
    by (intros H; apply is_nan_Prim2SF in H; congruence).
  rewrite leb_spec, ltb_spec. unfold SFleb, SFltb.
  rewrite (SFcompare_antisym (Prim2SF a) (Prim2SF b)).
  assert (Hc : SFcompare (Prim2SF a) (Prim2SF b) <> None).
  { destruct (Prim2SF a), (Prim2SF b); cbn; congruence. }
  destruct (SFcompare (Prim2SF a) (Prim2SF b)) as [[| |]|]; cbn; congruence.
Qed.

(** No comparison holds of NaN. *)
Lemma ltb_nan_l a : is_nan a = true -> forall b, (a <? b) = false.
Proof.
  intros Ha b. apply is_nan_Prim2SF in Ha. rewrite ltb_spec, Ha. reflexivity.
Qed.

Lemma ltb_nan_r b : is_nan b = true -> forall a, (a <? b) = false.
Proof.
  intros Hb a. apply is_nan_Prim2SF in Hb. rewrite ltb_spec, Hb.
  unfold SFltb, SFcompare. destruct (Prim2SF a); reflexivity.
Qed.

(** A finite double is a zero or has a mantissa and an exponent. *)
Lemma is_finite_Prim2SF x :
  is_finite x = true ->
  (exists s, Prim2SF x = S754_zero s) \/ (exists s m e, Prim2SF x = S754_finite s m e).
Proof.
  unfold is_finite, is_infinity, is_nan.
  rewrite !FloatAxioms.eqb_spec, abs_spec.
  change (Prim2SF infinity) with (S754_infinity false).
  destruct (Prim2SF x) as [s|s| |s m e]; cbn; try discriminate; eauto.
  destruct s; discriminate.
Qed.

Lemma finite_below_infinity x : is_finite x = true -> (x <? infinity) = true.
Proof.
  intros Hx. rewrite ltb_spec. change (Prim2SF infinity) with (S754_infinity false).
  destruct (is_finite_Prim2SF x Hx) as [[s ->]|(s & m & e & ->)]; reflexivity.
Qed.

Lemma finite_above_neg_infinity x : is_finite x = true -> (neg_infinity <? x) = true.
Proof.
  intros Hx. rewrite ltb_spec. change (Prim2SF neg_infinity) with (S754_infinity true).
  destruct (is_finite_Prim2SF x Hx) as [[s ->]|(s & m & e & ->)]; reflexivity.
Qed.

Lemma finite_not_nan x : is_finite x = true -> is_nan x = false.
Proof.
  unfold is_finite. destruct (is_nan x); [discriminate | reflexivity].
Qed.

(** The difference of a finite double and itself is [+0]. *)
Lemma sub_diag_finite x : is_finite x = true -> x - x = 0.
Proof.
  intros Hx. apply Prim2SF_inj. rewrite sub_spec.
  change (Prim2SF 0) with (S754_zero false).
  destruct (is_finite_Prim2SF x Hx) as [[s ->]|(s & m & e & ->)].
  - destruct s; reflexivity.
  - unfold SF64sub, SFsub. cbv zeta.
    match goal with
    | |- binary_normalize _ _ ?d _ _ = _ =>
        replace d with 0%Z by (symmetry; apply Z.sub_diag)
    end.
    reflexivity.
Qed.

End DoubleOrder.
(* ================================================================== *)
(** * Rounding in binary64: the operations as functions of the exact result *)
(* ================================================================== *)

Module Binary64Facts.

Import Binary64.
Import DoubleFacts DoubleOrder.
Local Open Scope Z_scope.

(** ** Keys *)








(** ** Digits and shifts *)













(** ** The rounding of the kernel *)












(** ** Values and comparison *)






(** ** The value of a rounding *)












(** ** The operations on mantissas and exponents *)















(** ** The operations on values *)














Local Open Scope float_scope.

(** ** Primitive doubles *)
















(** ** The grid of [computeKDE] *)





(** A grid of [n] points, from 2 to [2 ^ 53], between a minimum and a
    maximum whose difference is finite. *)
Section Grid.
Variables (xMin xMax : float) (n : nat).
Hypothesis HD : is_finite (xMax - xMin) = true.
Hypothesis Hle : (xMin <=? xMax) = true.
Hypothesis Hn2 : (2 <= n)%nat.
Hypothesis Hn53 : (Z.of_nat n <= 2 ^ 53)%Z.










End Grid.

(** ** [Math.min] and [Math.max] *)







End Binary64Facts.
Section KDEClaims.
Context {E : Engine}.
Local Open Scope float_scope.
Import DoubleFacts.

(** C1 (as amended).  [computeKDE] validates no bandwidth: for every
    [h <= 0] the call does not fail with [InvalidBandwidth].  It returns an
    empty curve when the series has no positive finite value; otherwise it
    throws a [RangeError] from [Math.min(...validDataLog)] when the engine
    does not take the kept values as arguments, and else returns a curve of
    [numPoints] points; when [h] is a zero every density of that curve is
    NaN. *)
Theorem computeKDE_nonpositive_bandwidth_not_rejected
        (data : list float) (h : float) (numPoints : nat) :
  le h 0 = true ->
  let kept := filter validDatum data in
  computeKDE data h numPoints <> Throw InvalidBandwidth /\
  (kept = [] -> computeKDE data h numPoints = Normal []) /\
  (kept <> [] -> acceptsArguments (length kept) = false ->
   computeKDE data h numPoints = Throw RangeError) /\
  (kept <> [] -> acceptsArguments (length kept) = true ->
   exists curve,
     computeKDE data h numPoints = Normal curve /\
     length curve = numPoints /\
     (is_zero h = true -> Forall (fun p => isNaN (y p) = true) curve)).
Proof.
  intros _ kept. subst kept. rewrite computeKDE_outcome.
  destruct (filter validDatum data) as [|d kept] eqn:Hkept; cbn [length Nat.eqb].
  - repeat split; try discriminate; intros Hne; now elim Hne.
  - destruct (acceptsArguments (S (length kept))) eqn:Hfits.
    + repeat split; try discriminate.
      intros _ _. exists (curveOf data h numPoints).
      split; [reflexivity|]. split; [apply length_curveOf|].
      apply curveOf_zero_bandwidth.
    + repeat split; try discriminate.
Qed.


(** C10 (as amended).  With [numPoints = 1] and a series holding a positive
    finite value, the call throws a [RangeError] when the engine does not
    take the kept values as arguments of [Math.min]; otherwise the curve is
    one point whose [xLog] and [xLinear] are NaN (and whose density is NaN
    as well): the grid fraction is [0 / (1 - 1)], which is NaN. *)
Theorem computeKDE_one_point_grid_is_NaN (data : list float) (bandwidth : float) :
  (exists d, In d data /\ validDatum d = true) ->
  isNaN (Number_of_nat 0 / (Number_of_nat 1 - 1)) = true /\
  (acceptsArguments (length (filter validDatum data)) = false ->
   computeKDE data bandwidth 1 = Throw RangeError) /\
  (acceptsArguments (length (filter validDatum data)) = true ->
   exists p,
     computeKDE data bandwidth 1 = Normal [p] /\
     isNaN (xLog p) = true /\ isNaN (xLinear p) = true /\ isNaN (y p) = true).
Proof.
  intros Hv. split; [reflexivity|]. split.
  - now apply computeKDE_refused.
  - intros Hfits. rewrite (computeKDE_some_valid data bandwidth 1 Hv Hfits).
    eexists. split; [reflexivity|].
    unfold kdePointAt.
    change (Number_of_nat 0 / (Number_of_nat 1 - 1)) with nan.
    rewrite mul_nan_r, add_nan_r. cbn [xLog xLinear y].
    rewrite (kernelSum_nan _ _ (validDataLogOf_nonempty data Hv)), mul_nan_l.
    repeat split; reflexivity.
Qed.

End KDEClaims.

(** C7.  [detectPeaks] returns the points at exactly the interior indices
    [i], [1 <= i <= m - 2], where [y_i > y_(i-1)] and [y_i > y_(i+1)], in
    increasing order of [i]; a curve of fewer than three points has no peak;
    and the values 1, 3, 1, 2, 1 have the two peaks 3 (index 1) and 2
    (index 3). *)
Theorem detectPeaks_interior_strict_maxima (kdePoints : list KdePoint) :
  detectPeaks kdePoints
  = map (fun i => nth i kdePoints undefinedKdePoint) (peakIndices kdePoints) /\
  (forall i,
      In i (peakIndices kdePoints) <->
      (1 <= i /\ i + 2 <= length kdePoints /\
       gt (y (nth i kdePoints undefinedKdePoint))
          (y (nth (i - 1) kdePoints undefinedKdePoint)) = true /\
       gt (y (nth i kdePoints undefinedKdePoint))
          (y (nth (i + 1) kdePoints undefinedKdePoint)) = true)%nat) /\
  ((length kdePoints < 3)%nat -> detectPeaks kdePoints = []) /\
  (forall a0 b0 a1 b1 a2 b2 a3 b3 a4 b4 : float,
      detectPeaks [mkKdePoint a0 b0 1; mkKdePoint a1 b1 3; mkKdePoint a2 b2 1;
                   mkKdePoint a3 b3 2; mkKdePoint a4 b4 1]
      = [mkKdePoint a1 b1 3; mkKdePoint a3 b3 2] /\
      peakIndices [mkKdePoint a0 b0 1; mkKdePoint a1 b1 3; mkKdePoint a2 b2 1;
                   mkKdePoint a3 b3 2; mkKdePoint a4 b4 1]
      = [1; 3]%nat).
Proof.
  split; [|split; [|split]].
  - unfold detectPeaks, peakIndices.
    destruct (length kdePoints <? 3)%nat eqn:Hlen.
    + apply Nat.ltb_lt in Hlen.
      replace (length kdePoints - 1 - 1)%nat with 0%nat by lia. reflexivity.
    + rewrite fold_left_push_if
        with (f := fun i => let curr := nth i kdePoints undefinedKdePoint in
                            mkKdePoint (xLog curr) (xLinear curr) (y curr)).
      simpl. apply map_ext. intros i. now destruct (nth i kdePoints undefinedKdePoint).
  - intros i. unfold peakIndices, isPeakAt.
    rewrite filter_In, in_seq, andb_true_iff. split.
    + intros (Hrange & Hprev & Hnext). repeat split; (lia || assumption).
    + intros (Hlow & Hhigh & Hprev & Hnext). repeat split; (lia || assumption).
  - intros Hlen. unfold detectPeaks.
    apply Nat.ltb_lt in Hlen. now rewrite Hlen.
  - intros a0 b0 a1 b1 a2 b2 a3 b3 a4 b4. split; reflexivity.
Qed.

(** The sample series holds a valid datum, and the reference engine takes
    its three kept values as arguments. *)
Lemma sample_series_has_valid_datum :
  exists d, In d Samples.series /\ validDatum d = true.
Proof. exists 2%float. split; [now left | reflexivity]. Qed.


(** The long series holds a valid datum, and the reference engine does not
    take its kept values as arguments. *)
Lemma long_series_has_valid_datum :
  exists d, In d Samples.longSeries /\ validDatum d = true.
Proof. exists 1%float. split; [now left | reflexivity]. Qed.

Lemma long_series_does_not_fit :
  acceptsArguments (Engine := RefEngine.engine)
                   (length (filter validDatum Samples.longSeries)) = false.
Proof. vm_compute. reflexivity. Qed.

Lemma computeKDE_nonpositive_bandwidth_not_rejected_witness :
  le 0 0 = true /\
  let kept := filter validDatum Samples.series in
  computeKDE (E := RefEngine.engine) Samples.series 0%float 4 <> Throw InvalidBandwidth /\
  (kept = [] -> computeKDE (E := RefEngine.engine) Samples.series 0%float 4 = Normal []) /\
  (kept <> [] -> acceptsArguments (Engine := RefEngine.engine) (length kept) = false ->
   computeKDE (E := RefEngine.engine) Samples.series 0%float 4 = Throw RangeError) /\
  (kept <> [] -> acceptsArguments (Engine := RefEngine.engine) (length kept) = true ->
   exists curve,
     computeKDE (E := RefEngine.engine) Samples.series 0%float 4 = Normal curve /\
     length curve = 4%nat /\
     (is_zero 0 = true -> Forall (fun p => isNaN (y p) = true) curve)).
Proof.
  split; [reflexivity|].
  apply (computeKDE_nonpositive_bandwidth_not_rejected (E := RefEngine.engine)).
  reflexivity.
Defined.

(** The rejection of a non-positive bandwidth does not hold of the code:
    with bandwidth 0, and with bandwidth -1, the call
    returns a curve instead of failing with [InvalidBandwidth]; at 0 all four
    densities are NaN, at -1 all four are negative. *)
Lemma computeKDE_invalid_bandwidth_counterexample :
  (le 0 0 = true /\
   computeKDE (E := RefEngine.engine) Samples.series 0%float 4
   <> Throw InvalidBandwidth /\
   exists curve,
     computeKDE (E := RefEngine.engine) Samples.series 0%float 4 = Normal curve /\
     map (fun p => isNaN (y p)) curve = [true; true; true; true]) /\
  (le (-1) 0 = true /\
   computeKDE (E := RefEngine.engine) Samples.series (-1)%float 4
   <> Throw InvalidBandwidth /\
   exists curve,
     computeKDE (E := RefEngine.engine) Samples.series (-1)%float 4 = Normal curve /\
     map (fun p => gt 0 (y p)) curve = [true; true; true; true]).
Proof.
  split; (split; [reflexivity|]); (split; [vm_compute; discriminate|]);
    eexists; (split; [vm_compute; reflexivity|]); vm_compute; reflexivity.
Qed.



Lemma computeKDE_one_point_grid_is_NaN_witness :
  (exists d, In d Samples.series /\ validDatum d = true) /\
  isNaN (Number_of_nat 0 / (Number_of_nat 1 - 1)) = true /\
  (acceptsArguments (Engine := RefEngine.engine)
                    (length (filter validDatum Samples.series)) = false ->
   computeKDE (E := RefEngine.engine) Samples.series 0.5%float 1 = Throw RangeError) /\
  (acceptsArguments (Engine := RefEngine.engine)
                    (length (filter validDatum Samples.series)) = true ->
   exists p,
     computeKDE (E := RefEngine.engine) Samples.series 0.5%float 1 = Normal [p] /\
     isNaN (xLog p) = true /\ isNaN (xLinear p) = true /\ isNaN (y p) = true).
Proof.
  split; [exact sample_series_has_valid_datum|].
  exact (computeKDE_one_point_grid_is_NaN (E := RefEngine.engine) Samples.series
                                          0.5%float sample_series_has_valid_datum).
Defined.

(** Returning a single NaN point does not hold of every series with a
    positive finite value: on the long series the reference engine throws
    at [Math.min(...validDataLog)], before the grid loop, and there is no
    curve. *)
Lemma computeKDE_one_point_grid_counterexample :
  (exists d, In d Samples.longSeries /\ validDatum d = true) /\
  computeKDE (E := RefEngine.engine) Samples.longSeries 0.5%float 1 = Throw RangeError /\
  ~ (exists p, computeKDE (E := RefEngine.engine) Samples.longSeries 0.5%float 1
               = Normal [p]).
Proof.
  split; [exact long_series_has_valid_datum|].
  assert (Hthrow : computeKDE (E := RefEngine.engine) Samples.longSeries 0.5%float 1
                   = Throw RangeError)
    by (apply computeKDE_refused;
        [exact long_series_has_valid_datum | exact long_series_does_not_fit]).
  split; [exact Hthrow|].
  intros [p Hp]. rewrite Hthrow in Hp. discriminate.
Qed.

(* ================================================================== *)
(** * The sampling auditor: the main loop and its observations *)
(* ================================================================== *)

Lemma forEachIndexed_app {A S : Type} (body : S -> nat -> A -> S) (xs ys : list A) :
  forall i s,
    forEachIndexed body i (xs ++ ys) s
    = forEachIndexed body (i + length xs) ys (forEachIndexed body i xs s).
Proof.
  induction xs as [|x xs IH]; intros i s; simpl.
  - now rewrite Nat.add_0_r.
  - rewrite IH. f_equal. lia.
Qed.

Lemma tallyOf_app l1 l2 : tallyOf (l1 ++ l2) = tallyAppend (tallyOf l1) (tallyOf l2).
Proof.
  unfold tallyOf, tallyAppend; simpl.
  repeat (rewrite ?filter_app, ?map_app, ?length_app, ?existsb_app).
  reflexivity.
Qed.

Lemma tallyAppend_assoc a b c :
  tallyAppend (tallyAppend a b) c = tallyAppend a (tallyAppend b c).
Proof.
  unfold tallyAppend; simpl.
  now rewrite <- !app_assoc, <- !Nat.add_assoc, <- orb_assoc.
Qed.

Lemma tallyAppend_nil_r a : tallyAppend a (tallyOf []) = a.
Proof.
  destruct a. unfold tallyAppend, tallyOf; simpl.
  now rewrite !app_nil_r, !Nat.add_0_r, orb_false_r.
Qed.

Lemma tallyAppend_nil_l a : tallyAppend (tallyOf []) a = a.
Proof. now destruct a. Qed.

Lemma filter_partition_length {A : Type} (f : A -> bool) (xs : list A) :
  length (filter f xs) + length (filter (fun x => negb (f x)) xs) = length xs.
Proof.
  induction xs as [|x xs IH]; simpl; [reflexivity|].
  destruct (f x); simpl; lia.
Qed.

Section AuditorFacts.
Context {E : Engine}.
Local Open Scope float_scope.

(** One iteration of the main loop, once a point has been seen. *)
Lemma primaryStep_tally s i point prev :
  Primary.previousPoint s = Some prev ->
  let s' := primaryStep s i point in
  tallyOfState s'
  = tallyAppend (tallyOfState s)
                (tallyOf (observationsAfter i prev (Primary.previousTimestampMs s)
                                            (Primary.previousTimestampIndex s) [point])) /\
  Primary.previousPoint s' = Some (lat point, lon point) /\
  Primary.previousTimestampMs s'
  = match parsedTimestamp point with
    | Some t => Some t
    | None => Primary.previousTimestampMs s
    end /\
  Primary.previousTimestampIndex s'
  = match parsedTimestamp point with
    | Some _ => Some i
    | None => Primary.previousTimestampIndex s
    end.
Proof.
  destruct s as [td tc go pt pp hp n1 n2 n3 n4 ev n5 n6 pi]. simpl.
  intros ->. unfold primaryStep. simpl.
  destruct (acceptedDistance _) eqn:Hacc;
    destruct (parsedTimestamp point) as [t|] eqn:Ht; simpl;
    try destruct pt as [t0|]; simpl;
    try destruct (t - t0 >? 0)%Z eqn:Hd; simpl;
    unfold tallyOf, tallyAppend, tallyOfState, progresses, stalls, eventOf, elapsedOf; simpl;
    rewrite ?Hd, ?Hacc; simpl; rewrite ?Hacc; simpl;
    rewrite ?app_nil_r, ?Nat.add_0_r, ?orb_false_r, ?orb_true_r, ?Nat.add_1_r; auto.
Qed.

(** The first iteration: nothing to compare the point with. *)
Lemma primaryStep_first point :
  let s' := primaryStep Primary.init 0 point in
  tallyOfState s' = tallyOf [] /\
  Primary.previousPoint s' = Some (lat point, lon point) /\
  Primary.previousTimestampMs s' = parsedTimestamp point /\
  Primary.previousTimestampIndex s'
  = match parsedTimestamp point with Some _ => Some 0%nat | None => None end.
Proof.
  unfold primaryStep. simpl.
  destruct (parsedTimestamp point); simpl; auto.
Qed.

Lemma primaryLoop_tally rest :
  forall i s prev,
    Primary.previousPoint s = Some prev ->
    tallyOfState (forEachIndexed primaryStep i rest s)
    = tallyAppend (tallyOfState s)
                  (tallyOf (observationsAfter i prev (Primary.previousTimestampMs s)
                                              (Primary.previousTimestampIndex s) rest)).
Proof.
  induction rest as [|point rest IH]; intros i s prev Hprev.
  - simpl. now rewrite tallyAppend_nil_r.
  - cbn [forEachIndexed].
    destruct (primaryStep_tally s i point prev Hprev) as (Ht & Hp & Hts & Hti).
    rewrite (IH (i + 1)%nat _ _ Hp), Ht, Hts, Hti, tallyAppend_assoc.
    f_equal. rewrite <- tallyOf_app. f_equal.
    cbn [observationsAfter]. destruct (parsedTimestamp point); reflexivity.
Qed.

(** The main loop stores and counts what [tallyOf] says. *)
Lemma primaryPass_tally points :
  tallyOfState (primaryPass points) = tallyOf (observations points).
Proof.
  destruct points as [|first rest]; [reflexivity|].
  unfold primaryPass. cbn [forEachIndexed].
  destruct (primaryStep_first first) as (Ht & Hp & Hts & Hti).
  rewrite (primaryLoop_tally rest _ _ _ Hp), Ht, Hts, Hti, tallyAppend_nil_l.
  reflexivity.
Qed.

Lemma observationsAfter_length rest :
  forall i prev pt pi, length (observationsAfter i prev pt pi rest) = length rest.
Proof.
  induction rest as [|point rest IH]; intros i prev pt pi; simpl; [reflexivity|].
  destruct (parsedTimestamp point); simpl; now rewrite IH.
Qed.

Lemma observations_length points :
  length (observations points) = (length points - 1)%nat.
Proof.
  destruct points as [|first rest]; [reflexivity|].
  unfold observations. rewrite observationsAfter_length. simpl. lia.
Qed.

Lemma observationsAfter_indices rest :
  forall i prev pt pi,
    map obsIndex (observationsAfter i prev pt pi rest) = seq i (length rest).
Proof.
  induction rest as [|point rest IH]; intros i prev pt pi; simpl; [reflexivity|].
  destruct (parsedTimestamp point); simpl; rewrite IH; f_equal; f_equal; lia.
Qed.

(** The distances observed are those between neighbours in the track. *)
Lemma observationsAfter_distances rest :
  forall i previous pt pi,
    map obsDistance (observationsAfter i (lat previous, lon previous) pt pi rest)
    = map (fun pq => distanceBetween (fst pq) (snd pq)) (adjacentPairs (previous :: rest)).
Proof.
  induction rest as [|point rest IH]; intros i previous pt pi; [reflexivity|].
  cbn [observationsAfter adjacentPairs].
  destruct (parsedTimestamp point); cbn [map obsDistance]; rewrite IH; reflexivity.
Qed.

Lemma observations_distances points :
  map obsDistance (observations points)
  = map (fun pq => distanceBetween (fst pq) (snd pq)) (adjacentPairs points).
Proof.
  destruct points as [|first rest]; [reflexivity|].
  apply observationsAfter_distances.
Qed.

(** The times elapsed are those between neighbours among the timestamped
    points. *)
Lemma observationsAfter_elapsed rest :
  forall i prev pt pi,
    keepSome (fun o => option_map snd (obsElapsed o)) (observationsAfter i prev pt pi rest)
    = match pt with
      | Some t0 =>
          map (fun ab => (snd (snd ab) - snd (fst ab))%Z)
              (adjacentPairs ((mkPoint 0 0 None, t0) :: timestampedPoints rest))
      | None =>
          map (fun ab => (snd (snd ab) - snd (fst ab))%Z)
              (adjacentPairs (timestampedPoints rest))
      end.
Proof.
  induction rest as [|point rest IH]; intros i prev pt pi.
  - destruct pt; reflexivity.
  - cbn [observationsAfter]. unfold timestampedPoints. cbn [keepSome].
    fold (timestampedPoints rest).
    destruct (parsedTimestamp point) as [t|] eqn:Ht.
    + cbn [keepSome obsElapsed]. specialize (IH (i + 1)%nat (lat point, lon point) (Some t) (Some i)).
      destruct pt as [t0|]; cbn [option_map keepSome adjacentPairs map fst snd].
      * rewrite IH. destruct (timestampedPoints rest); reflexivity.
      * rewrite IH. destruct (timestampedPoints rest); reflexivity.
    + cbn [keepSome obsElapsed option_map]. apply IH.
Qed.

Lemma observations_elapsed points :
  keepSome (fun o => option_map snd (obsElapsed o)) (observations points)
  = map (fun ab => (snd (snd ab) - snd (fst ab))%Z) (adjacentPairs (timestampedPoints points)).
Proof.
  destruct points as [|first rest]; [reflexivity|].
  unfold observations. rewrite observationsAfter_elapsed.
  unfold timestampedPoints. cbn [keepSome].
  destruct (parsedTimestamp first) as [t|]; [|reflexivity].
  fold (timestampedPoints rest).
  destruct (timestampedPoints rest); reflexivity.
Qed.

End AuditorFacts.

Lemma progresses_elapsed obs :
  map elapsedOf (filter progresses obs)
  = filter (fun d => (d >? 0)%Z) (keepSome (fun o => option_map snd (obsElapsed o)) obs).
Proof.
  induction obs as [|o obs IH]; [reflexivity|].
  destruct o as [i d [[k e]|]]; unfold progresses, elapsedOf in *; simpl.
  - destruct (e >? 0)%Z; simpl; now rewrite IH.
  - exact IH.
Qed.

Lemma stalls_elapsed obs :
  length (filter stalls obs)
  = length (filter (fun d => negb (d >? 0)%Z)
                   (keepSome (fun o => option_map snd (obsElapsed o)) obs)).
Proof.
  induction obs as [|o obs IH]; [reflexivity|].
  destruct o as [i d [[k e]|]]; unfold stalls in *; simpl.
  - destruct (e >? 0)%Z; simpl; now rewrite IH.
  - exact IH.
Qed.

Lemma existsb_filter_nonempty {A : Type} (f : A -> bool) (xs : list A) :
  existsb f xs = true <-> filter f xs <> [].
Proof.
  induction xs as [|x xs IH]; simpl.
  - split; [discriminate | intros H; now elim H].
  - destruct (f x); simpl; [split; [discriminate | reflexivity] | exact IH].
Qed.

Lemma NoDup_map_filter {A B : Type} (f : A -> B) (keep : A -> bool) (xs : list A) :
  NoDup (map f xs) -> NoDup (map f (filter keep xs)).
Proof.
  induction xs as [|x xs IH]; simpl; intros Hnd; [constructor|].
  inversion Hnd as [|? ? Hnotin Hnd']; subst.
  destruct (keep x); simpl; [|now apply IH].
  constructor; [|now apply IH].
  intros Hin. apply Hnotin.
  apply in_map_iff in Hin. destruct Hin as (a & Ha & Hin).
  apply filter_In in Hin. apply in_map_iff. exists a. tauto.
Qed.

Lemma rejected_among_selected {A B : Type} (f : A -> B) (select : A -> bool)
      (reject : B -> bool) (xs : list A) :
  length (filter reject (map f (filter select xs)))
  <= length (filter reject (map f xs)).
Proof.
  induction xs as [|x xs IH]; simpl; [lia|].
  destruct (select x); simpl; destruct (reject (f x)); simpl; lia.
Qed.

Section AuditorClaims.
Context {E : Engine}.
Local Open Scope float_scope.

(** The fields of the result that come from the main loop. *)
Lemma auditSampling_tally points :
  let r := auditSampling points in
  let obs := observations points in
  timeDeltasMs r = map elapsedOf (filter progresses obs) /\
  distanceDeltasMTimeConditioned r
  = filter acceptedDistance (map obsDistance (filter progresses obs)) /\
  distanceDeltasMGeometryOnly r = filter acceptedDistance (map obsDistance obs) /\
  hasTimeProgression r = existsb progresses obs /\
  rejectedTimestampPairsDeltaLeqZero r = length (filter stalls obs) /\
  nonPositiveTimeDeltaEvents r = map eventOf (filter stalls obs) /\
  consecutivePointPairsConsidered r = length obs /\
  rejectedDistanceInvalidOrZero r
  = length (filter (fun d => negb (acceptedDistance d)) (map obsDistance obs)).
Proof.
  pose proof (primaryPass_tally points) as H.
  unfold tallyOfState, tallyOf in H.
  injection H as Htd Htc Hgo Hp Hrl Hev Hcn Hrd.
  cbv zeta. unfold auditSampling.
  cbn [timeDeltasMs distanceDeltasMTimeConditioned distanceDeltasMGeometryOnly
       hasTimeProgression rejectedTimestampPairsDeltaLeqZero nonPositiveTimeDeltaEvents
       consecutivePointPairsConsidered rejectedDistanceInvalidOrZero].
  repeat split; assumption.
Qed.

Lemma accepted_distances_positive_finite ds :
  Forall (fun d => isFinite d = true /\ gt d 0 = true) (filter acceptedDistance ds).
Proof.
  apply Forall_forall. intros d Hd. apply filter_In in Hd.
  destruct Hd as [_ Hd]. unfold acceptedDistance in Hd. now apply andb_prop in Hd.
Qed.

Lemma distanceDeltasM_is_the_mode_series_aux points :
  distanceDeltasM (auditSampling points)
  = distanceDeltasMTimeConditioned (auditSampling points) \/
  distanceDeltasM (auditSampling points)
  = distanceDeltasMGeometryOnly (auditSampling points).
Proof.
  unfold auditSampling; cbn [distanceDeltasM distanceDeltasMTimeConditioned
    distanceDeltasMGeometryOnly].
  destruct (Primary.hasTimeProgression (primaryPass points)); auto.
Qed.

(** C3.  [hasTimeProgression] is true exactly when [timeDeltasMs] is not
    empty. *)
Theorem hasTimeProgression_iff_timeDeltas_nonempty (points : list Point) :
  hasTimeProgression (auditSampling points) = true <->
  timeDeltasMs (auditSampling points) <> [].
Proof.
  destruct (auditSampling_tally points) as (Htd & _ & _ & Hp & _).
  rewrite Hp, Htd, existsb_filter_nonempty.
  split; intros Hne Hnil; apply Hne.
  - now destruct (filter progresses (observations points)).
  - now rewrite Hnil.
Qed.

(** C4.  The primary distance series is the time-conditioned series when
    [hasTimeProgression] is true and the geometry-only series when it is
    false (and then the time-conditioned series is empty). *)
Theorem distanceDeltasM_is_the_mode_series (points : list Point) :
  let r := auditSampling points in
  distanceDeltasM r
  = (if hasTimeProgression r then distanceDeltasMTimeConditioned r
     else distanceDeltasMGeometryOnly r) /\
  (hasTimeProgression r = true ->
   distanceDeltasM r = distanceDeltasMTimeConditioned r) /\
  (hasTimeProgression r = false ->
   distanceDeltasM r = distanceDeltasMGeometryOnly r /\
   distanceDeltasMTimeConditioned r = []).
Proof.
  cbv zeta.
  destruct (auditSampling_tally points) as (_ & Htc & _ & Hp & _).
  assert (Hmode : distanceDeltasM (auditSampling points)
                  = if hasTimeProgression (auditSampling points)
                    then distanceDeltasMTimeConditioned (auditSampling points)
                    else distanceDeltasMGeometryOnly (auditSampling points))
    by reflexivity.
  split; [exact Hmode|]. rewrite Hmode.
  split; intros Hflag; rewrite Hflag; [reflexivity|].
  split; [reflexivity|].
  rewrite Htc. rewrite Hp in Hflag.
  destruct (filter progresses (observations points)) as [|o obs] eqn:Hf; [reflexivity|].
  assert (Hne : filter progresses (observations points) <> []) by (rewrite Hf; discriminate).
  apply existsb_filter_nonempty in Hne. congruence.
Qed.

(** C5.  Every element of the time-delta series is positive (time values
    are integers, so finite); every element of the geometry-only, of the
    time-conditioned and of the primary distance series is finite and
    positive.  The distances between neighbouring points are each stored in
    the geometry-only series or counted by [rejectedDistanceInvalidOrZero];
    the time-conditioned series keeps the accepted ones among those observed
    where time progresses, and those it drops are among the ones that
    counter counts; the times elapsed between neighbouring
    timestamped points are each stored in [timeDeltasMs] or counted by
    [rejectedTimestampPairsDeltaLeqZero]. *)
Theorem delta_series_positive_finite_rest_counted (points : list Point) :
  let r := auditSampling points in
  let distances :=
    map (fun pq => distanceBetween (fst pq) (snd pq)) (adjacentPairs points) in
  let elapsed :=
    map (fun ab => (snd (snd ab) - snd (fst ab))%Z)
        (adjacentPairs (timestampedPoints points)) in
  (Forall (fun d => (0 < d)%Z) (timeDeltasMs r) /\
   Forall (fun d => isFinite d = true /\ gt d 0 = true) (distanceDeltasMGeometryOnly r) /\
   Forall (fun d => isFinite d = true /\ gt d 0 = true) (distanceDeltasMTimeConditioned r) /\
   Forall (fun d => isFinite d = true /\ gt d 0 = true) (distanceDeltasM r)) /\
  (distanceDeltasMGeometryOnly r = filter acceptedDistance distances /\
   rejectedDistanceInvalidOrZero r
   = length (filter (fun d => negb (acceptedDistance d)) distances) /\
   map obsDistance (observations points) = distances /\
   distanceDeltasMTimeConditioned r
   = filter acceptedDistance (map obsDistance (filter progresses (observations points))) /\
   (length (filter (fun d => negb (acceptedDistance d))
                   (map obsDistance (filter progresses (observations points))))
    <= rejectedDistanceInvalidOrZero r)%nat) /\
  (timeDeltasMs r = filter (fun d => (d >? 0)%Z) elapsed /\
   rejectedTimestampPairsDeltaLeqZero r
   = length (filter (fun d => negb (d >? 0)%Z) elapsed)).
Proof.
  cbv zeta.
  destruct (auditSampling_tally points) as (Htd & Htc & Hgo & Hp & Hrl & Hev & Hcn & Hrd).
  rewrite <- observations_distances, <- observations_elapsed.
  assert (Hgo' : Forall (fun d => isFinite d = true /\ gt d 0 = true)
                        (distanceDeltasMGeometryOnly (auditSampling points)))
    by (rewrite Hgo; apply accepted_distances_positive_finite).
  assert (Htc' : Forall (fun d => isFinite d = true /\ gt d 0 = true)
                        (distanceDeltasMTimeConditioned (auditSampling points)))
    by (rewrite Htc; apply accepted_distances_positive_finite).
  repeat split.
  - rewrite Htd, progresses_elapsed. apply Forall_forall. intros d Hd.
    apply filter_In in Hd. destruct Hd as [_ Hd]. now apply Z.gtb_lt in Hd.
  - exact Hgo'.
  - exact Htc'.
  - destruct (distanceDeltasM_is_the_mode_series_aux points) as [-> | ->]; assumption.
  - exact Hgo.
  - exact Hrd.
  - exact Htc.
  - rewrite Hrd. apply rejected_among_selected.
  - rewrite Htd. apply progresses_elapsed.
  - rewrite Hrl. apply stalls_elapsed.
Qed.

(** C9.  [consecutivePointPairsConsidered] is [max(0, n - 1)] for a track
    of [n] points, and each of these pairs is either stored in the
    geometry-only series (its distance is finite and positive) or counted by
    [rejectedDistanceInvalidOrZero] (it is not). *)
Theorem consecutive_pairs_stored_or_rejected (points : list Point) :
  let r := auditSampling points in
  let distances :=
    map (fun pq => distanceBetween (fst pq) (snd pq)) (adjacentPairs points) in
  Z.of_nat (consecutivePointPairsConsidered r)
  = Z.max 0 (Z.of_nat (length points) - 1) /\
  (length (distanceDeltasMGeometryOnly r) + rejectedDistanceInvalidOrZero r
   = consecutivePointPairsConsidered r)%nat /\
  distanceDeltasMGeometryOnly r = filter acceptedDistance distances /\
  rejectedDistanceInvalidOrZero r
  = length (filter (fun d => negb (acceptedDistance d)) distances).
Proof.
  cbv zeta.
  destruct (auditSampling_tally points) as (_ & _ & Hgo & _ & _ & _ & Hcn & Hrd).
  rewrite <- observations_distances.
  split; [|split; [|split; assumption]].
  - rewrite Hcn, observations_length. lia.
  - rewrite Hgo, Hrd, Hcn, filter_partition_length. apply length_map.
Qed.

(** A point without a timestamp leaves the time-delta bookkeeping alone. *)
Lemma primaryStep_untimestamped s i point :
  parsedTimestamp point = None ->
  let s' := primaryStep s i point in
  Primary.previousTimestampMs s' = Primary.previousTimestampMs s /\
  Primary.previousTimestampIndex s' = Primary.previousTimestampIndex s /\
  Primary.timeDeltasMs s' = Primary.timeDeltasMs s /\
  Primary.rejectedTimestampPairsDeltaLeqZero s'
  = Primary.rejectedTimestampPairsDeltaLeqZero s /\
  Primary.nonPositiveTimeDeltaEvents s' = Primary.nonPositiveTimeDeltaEvents s.
Proof.
  intros Ht. destruct s as [td tc go pt pp hp n1 n2 n3 n4 ev n5 n6 pi].
  unfold primaryStep. rewrite Ht. simpl.
  destruct pp as [prev|]; simpl; [destruct (acceptedDistance _)|]; simpl; auto.
Qed.

Lemma primaryLoop_untimestamped gap :
  Forall (fun g => parsedTimestamp g = None) gap ->
  forall i s,
    let s' := forEachIndexed primaryStep i gap s in
    Primary.previousTimestampMs s' = Primary.previousTimestampMs s /\
    Primary.previousTimestampIndex s' = Primary.previousTimestampIndex s /\
    Primary.timeDeltasMs s' = Primary.timeDeltasMs s /\
    Primary.rejectedTimestampPairsDeltaLeqZero s'
    = Primary.rejectedTimestampPairsDeltaLeqZero s /\
    Primary.nonPositiveTimeDeltaEvents s' = Primary.nonPositiveTimeDeltaEvents s.
Proof.
  induction 1 as [|g gap Hg _ IH]; intros i s; cbn [forEachIndexed]; [auto|].
  destruct (primaryStep_untimestamped s i g Hg) as (H1 & H2 & H3 & H4 & H5).
  destruct (IH (i + 1)%nat (primaryStep s i g)) as (K1 & K2 & K3 & K4 & K5).
  cbv zeta. rewrite K1, K2, K3, K4, K5. auto.
Qed.

(** A timestamped point becomes the anchor of the next time delta. *)
Lemma primaryStep_anchor s i point t :
  parsedTimestamp point = Some t ->
  Primary.previousTimestampMs (primaryStep s i point) = Some t /\
  Primary.previousTimestampIndex (primaryStep s i point) = Some i /\
  Primary.previousPoint (primaryStep s i point) = Some (lat point, lon point).
Proof.
  intros Ht. destruct s as [td tc go pt pp hp n1 n2 n3 n4 ev n5 n6 pi].
  unfold primaryStep. rewrite Ht. simpl.
  destruct pp as [prev|]; simpl; [destruct (acceptedDistance _) eqn:Hacc|]; simpl;
    destruct pt as [t0|]; simpl; try destruct (t - t0 >? 0)%Z; simpl;
    rewrite ?Hacc; auto.
Qed.

(** The iteration that meets the anchor's own time again. *)
Lemma primaryStep_identical_timestamp s j q t :
  Primary.previousTimestampMs s = Some t ->
  parsedTimestamp q = Some t ->
  let s' := primaryStep s j q in
  Primary.timeDeltasMs s' = Primary.timeDeltasMs s /\
  Primary.rejectedTimestampPairsDeltaLeqZero s'
  = S (Primary.rejectedTimestampPairsDeltaLeqZero s) /\
  Primary.nonPositiveTimeDeltaEvents s'
  = Primary.nonPositiveTimeDeltaEvents s ++ [mkEvent j (Primary.previousTimestampIndex s) 0].
Proof.
  destruct s as [td tc go pt pp hp n1 n2 n3 n4 ev n5 n6 pi]. simpl.
  intros -> Ht. unfold primaryStep. rewrite Ht.
  destruct pp as [prev|]; cbn -[Z.sub]; [destruct (acceptedDistance _)|];
    cbn -[Z.sub]; rewrite Z.sub_diag; cbn; auto.
Qed.

Lemma events_have_distinct_indices points :
  NoDup (nonPositiveTimeDeltaEvents (auditSampling points)).
Proof.
  destruct (auditSampling_tally points) as (_ & _ & _ & _ & _ & Hev & _).
  rewrite Hev. apply (NoDup_map_inv index).
  rewrite map_map. change (fun x => index (eventOf x)) with obsIndex.
  apply NoDup_map_filter.
  destruct points as [|first rest]; [constructor|].
  unfold observations. rewrite observationsAfter_indices. apply seq_NoDup.
Qed.

(** C8.  Let a timestamped point [p] and a later timestamped point [q]
    carry the same time, with only untimestamped points between them.  The
    iteration of the main loop at [q] leaves [timeDeltasMs] as it is, adds one
    to [rejectedTimestampPairsDeltaLeqZero] and appends the record
    [{index of q, index of p, 0}] to [nonPositiveTimeDeltaEvents].  In the
    result, 0 is no time delta, that record occurs once, and the counter is
    the number of records. *)
Theorem identical_timestamps_rejected_once
        (pre gap post : list Point) (p q : Point) (t : Z) :
  parsedTimestamp p = Some t ->
  parsedTimestamp q = Some t ->
  Forall (fun g => parsedTimestamp g = None) gap ->
  let points := pre ++ p :: gap ++ q :: post in
  let k := length pre in
  let j := (length pre + 1 + length gap)%nat in
  let before := primaryPass (pre ++ p :: gap) in
  let after := primaryStep before j q in
  let event := mkEvent j (Some k) 0 in
  let r := auditSampling points in
  primaryPass points = forEachIndexed primaryStep (j + 1) post after /\
  (Primary.timeDeltasMs after = Primary.timeDeltasMs before /\
   Primary.rejectedTimestampPairsDeltaLeqZero after
   = S (Primary.rejectedTimestampPairsDeltaLeqZero before) /\
   Primary.nonPositiveTimeDeltaEvents after
   = Primary.nonPositiveTimeDeltaEvents before ++ [event]) /\
  (~ In 0%Z (timeDeltasMs r) /\
   count_occ event_eq_dec (nonPositiveTimeDeltaEvents r) event = 1%nat /\
   rejectedTimestampPairsDeltaLeqZero r = length (nonPositiveTimeDeltaEvents r)).
Proof.
  intros Hp Hq Hgap points k j before after event r.
  (* the run, cut at q *)
  assert (Hcut : primaryPass points = forEachIndexed primaryStep (j + 1) post after).
  { subst points after before j. unfold primaryPass.
    replace (pre ++ p :: gap ++ q :: post) with ((pre ++ p :: gap) ++ q :: post)
      by (rewrite <- app_assoc; reflexivity).
    rewrite forEachIndexed_app. cbn [forEachIndexed].
    rewrite length_app. cbn [length Nat.add].
    replace (length pre + S (length gap))%nat with (length pre + 1 + length gap)%nat by lia.
    reflexivity. }
  (* the anchor when the loop reaches q *)
  assert (Hanchor : Primary.previousTimestampMs before = Some t /\
                    Primary.previousTimestampIndex before = Some k).
  { subst before k. unfold primaryPass.
    replace (pre ++ p :: gap) with (pre ++ [p] ++ gap) by reflexivity.
    rewrite !forEachIndexed_app. cbn [forEachIndexed].
    destruct (primaryLoop_untimestamped gap Hgap (0 + length pre + length [p])%nat
                (primaryStep (forEachIndexed primaryStep 0 pre Primary.init)
                             (0 + length pre) p)) as (H1 & H2 & _).
    rewrite H1, H2.
    destruct (primaryStep_anchor (forEachIndexed primaryStep 0 pre Primary.init)
                                 (0 + length pre) p t Hp) as (K1 & K2 & _).
    now rewrite K1, K2. }
  destruct Hanchor as [Hms Hidx].
  destruct (primaryStep_identical_timestamp before j q t Hms Hq) as (S1 & S2 & S3).
  rewrite Hidx in S3. fold after event in S1, S2, S3.
  split; [exact Hcut|]. split; [now repeat split|].
  destruct (auditSampling_tally points) as (Htd & _ & _ & _ & Hrl & Hev & _).
  fold r in Htd, Hrl, Hev.
  split; [|split].
  - rewrite Htd. intros Hin. apply in_map_iff in Hin.
    destruct Hin as (o & Ho & Hin). apply filter_In in Hin. destruct Hin as [_ Hin].
    unfold progresses, elapsedOf in *. destruct (obsElapsed o) as [[? e]|]; [|discriminate].
    subst e. discriminate.
  - apply NoDup_count_occ'; [apply events_have_distinct_indices|].
    change (nonPositiveTimeDeltaEvents r)
      with (tallyEvents (tallyOfState (primaryPass points))).
    rewrite Hcut.
    destruct (primaryStep_anchor before j q t Hq) as (_ & _ & Hprev).
    fold after in Hprev.
    rewrite (primaryLoop_tally post (j + 1)%nat after _ Hprev).
    cbn [tallyAppend tallyEvents tallyOfState]. rewrite S3.
    apply in_or_app. left. apply in_or_app. right. now left.
  - rewrite Hrl, Hev. now rewrite length_map.
Qed.

(** One iteration of the joint loop, with an anchor. *)
Lemma jointStep_anchored s i point p0 t0 :
  Joint.prevPoint s = Some (lat p0, lon p0) ->
  Joint.prevTimestampMs s = Some t0 ->
  let s' := jointStep s i point in
  match parsedTimestamp point with
  | Some t =>
      Joint.timeDistancePairs s'
      = Joint.timeDistancePairs s ++ filter pairAccepted [pairOf ((p0, t0), (point, t))] /\
      Joint.prevPoint s' = Some (lat point, lon point) /\
      Joint.prevTimestampMs s' = Some t
  | None =>
      Joint.timeDistancePairs s' = Joint.timeDistancePairs s /\
      Joint.prevPoint s' = Some (lat p0, lon p0) /\
      Joint.prevTimestampMs s' = Some t0
  end.
Proof.
  destruct s as [ps pp pt n1 n2 n3 n4 n5 n6]. simpl. intros -> ->.
  unfold jointStep, pairAccepted, pairOf, distanceBetween.
  cbn -[Z.sub Number_of_Z haversineDistance gt le isFinite PrimFloat.div].
  destruct (parsedTimestamp point) as [t|];
    cbn -[Z.sub Number_of_Z haversineDistance gt le isFinite PrimFloat.div]; [|auto].
  set (dt := (Number_of_Z (t - t0) / 1000)%float).
  set (dd := haversineDistance (lat p0) (lon p0) (lat point) (lon point)).
  clearbody dt dd.
  destruct (gt dt 0 && isFinite dd && gt dd 0); cbn -[le isFinite].
  - auto.
  - rewrite app_nil_r.
    destruct (le dt 0); destruct (negb (isFinite dd) || le dd 0); cbn; auto.
Qed.

(** One iteration of the joint loop before any timestamp was met. *)
Lemma jointStep_unanchored s i point :
  Joint.prevPoint s = None ->
  Joint.prevTimestampMs s = None ->
  let s' := jointStep s i point in
  Joint.timeDistancePairs s' = Joint.timeDistancePairs s /\
  match parsedTimestamp point with
  | Some t =>
      Joint.prevPoint s' = Some (lat point, lon point) /\
      Joint.prevTimestampMs s' = Some t
  | None => Joint.prevPoint s' = None /\ Joint.prevTimestampMs s' = None
  end.
Proof.
  destruct s as [ps pp pt n1 n2 n3 n4 n5 n6]. simpl. intros -> ->.
  unfold jointStep. simpl.
  destruct (parsedTimestamp point) as [t|]; simpl; auto.
Qed.

Lemma jointLoop_anchored rest :
  forall i s p0 t0,
    Joint.prevPoint s = Some (lat p0, lon p0) ->
    Joint.prevTimestampMs s = Some t0 ->
    Joint.timeDistancePairs (forEachIndexed jointStep i rest s)
    = Joint.timeDistancePairs s
      ++ filter pairAccepted
                (map pairOf (adjacentPairs ((p0, t0) :: timestampedPoints rest))).
Proof.
  induction rest as [|point rest IH]; intros i s p0 t0 Hp Ht.
  - simpl. now rewrite app_nil_r.
  - cbn [forEachIndexed]. unfold timestampedPoints. cbn [keepSome].
    fold (timestampedPoints rest).
    pose proof (jointStep_anchored s i point p0 t0 Hp Ht) as Hstep. cbv zeta in Hstep.
    destruct (parsedTimestamp point) as [t|].
    + destruct Hstep as (H1 & H2 & H3).
      rewrite (IH (i + 1)%nat _ point t H2 H3), H1, <- app_assoc.
      f_equal. cbn [adjacentPairs map]. rewrite <- filter_app. reflexivity.
    + destruct Hstep as (H1 & H2 & H3).
      now rewrite (IH (i + 1)%nat _ p0 t0 H2 H3), H1.
Qed.

Lemma jointLoop_unanchored rest :
  forall i s,
    Joint.prevPoint s = None ->
    Joint.prevTimestampMs s = None ->
    Joint.timeDistancePairs (forEachIndexed jointStep i rest s)
    = Joint.timeDistancePairs s
      ++ filter pairAccepted (map pairOf (adjacentPairs (timestampedPoints rest))).
Proof.
  induction rest as [|point rest IH]; intros i s Hp Ht.
  - simpl. now rewrite app_nil_r.
  - cbn [forEachIndexed]. unfold timestampedPoints. cbn [keepSome].
    fold (timestampedPoints rest).
    pose proof (jointStep_unanchored s i point Hp Ht) as Hstep. cbv zeta in Hstep.
    destruct Hstep as (H1 & Hstep).
    destruct (parsedTimestamp point) as [t|].
    + destruct Hstep as (H2 & H3).
      rewrite (jointLoop_anchored rest (i + 1)%nat _ point t H2 H3), H1.
      reflexivity.
    + destruct Hstep as (H2 & H3).
      now rewrite (IH (i + 1)%nat _ H2 H3), H1.
Qed.

(** C2 (as amended).  The joint pass pairs each timestamped point with the
    latest timestamped point before it, whether or not untimestamped points
    lie between the two: under [hasTimeProgression] the series
    [timeDistancePairs] is, in track order, the pairs of neighbours among the
    timestamped points whose [dtSec] is positive and whose [ddMeters] is
    finite and positive; without it the series is empty. *)
Theorem timeDistancePairs_of_neighbouring_timestamped_points (points : list Point) :
  timeDistancePairs (auditSampling points)
  = if hasTimeProgression (auditSampling points)
    then filter pairAccepted (map pairOf (adjacentPairs (timestampedPoints points)))
    else [].
Proof.
  unfold auditSampling. cbn [timeDistancePairs hasTimeProgression].
  unfold jointPass.
  destruct (Primary.hasTimeProgression (primaryPass points)); [|reflexivity].
  now rewrite jointLoop_unanchored.
Qed.

End AuditorClaims.

(** The joint pass does not ask the point just before to be timestamped:
    in [gappedTrack] the point before the third one
    has no timestamp, no two neighbours are both timestamped, and yet the
    joint pass produces a pair for the third point, measured from the first. *)
Lemma joint_pair_skips_untimestamped_point_counterexample :
  parsedTimestamp (E := RefEngine.engine)
                  (nth 1 Samples.gappedTrack (mkPoint 0 0 None)) = None /\
  forallb (fun pq =>
             match parsedTimestamp (E := RefEngine.engine) (fst pq),
                   parsedTimestamp (E := RefEngine.engine) (snd pq) with
             | Some _, Some _ => false
             | _, _ => true
             end)
          (adjacentPairs Samples.gappedTrack) = true /\
  hasTimeProgression (auditSampling (E := RefEngine.engine) Samples.gappedTrack) = true /\
  timeDistancePairs (auditSampling (E := RefEngine.engine) Samples.gappedTrack)
  = [mkPair 10
            (distanceBetween (E := RefEngine.engine)
                             (nth 0 Samples.gappedTrack (mkPoint 0 0 None))
                             (nth 2 Samples.gappedTrack (mkPoint 0 0 None)))].
Proof.
  repeat split; vm_compute; reflexivity.
Qed.

Lemma identical_timestamps_rejected_once_witness :
  parsedTimestamp (E := RefEngine.engine) Samples.stalledFirst = Some 1704067200000%Z /\
  parsedTimestamp (E := RefEngine.engine) Samples.stalledSecond = Some 1704067200000%Z /\
  Forall (fun g => parsedTimestamp (E := RefEngine.engine) g = None) Samples.stalledGap /\
  let before :=
    primaryPass (E := RefEngine.engine)
                (Samples.stalledBefore ++ Samples.stalledFirst :: Samples.stalledGap) in
  let after := primaryStep (E := RefEngine.engine) before 3 Samples.stalledSecond in
  let r := auditSampling (E := RefEngine.engine) Samples.stalledTrack in
  primaryPass (E := RefEngine.engine) Samples.stalledTrack
  = forEachIndexed (primaryStep (E := RefEngine.engine)) 4 Samples.stalledAfter after /\
  (Primary.timeDeltasMs after = Primary.timeDeltasMs before /\
   Primary.rejectedTimestampPairsDeltaLeqZero after
   = S (Primary.rejectedTimestampPairsDeltaLeqZero before) /\
   Primary.nonPositiveTimeDeltaEvents after
   = Primary.nonPositiveTimeDeltaEvents before ++ [mkEvent 3 (Some 1%nat) 0]) /\
  (~ In 0%Z (timeDeltasMs r) /\
   count_occ event_eq_dec (nonPositiveTimeDeltaEvents r) (mkEvent 3 (Some 1%nat) 0) = 1%nat /\
   rejectedTimestampPairsDeltaLeqZero r = length (nonPositiveTimeDeltaEvents r)).
Proof.
  assert (H1 : parsedTimestamp (E := RefEngine.engine) Samples.stalledFirst
               = Some 1704067200000%Z) by reflexivity.
  assert (H2 : parsedTimestamp (E := RefEngine.engine) Samples.stalledSecond
               = Some 1704067200000%Z) by reflexivity.
  assert (H3 : Forall (fun g => parsedTimestamp (E := RefEngine.engine) g = None)
                      Samples.stalledGap) by (repeat constructor).
  split; [exact H1|]. split; [exact H2|]. split; [exact H3|].
  exact (identical_timestamps_rejected_once (E := RefEngine.engine)
           Samples.stalledBefore Samples.stalledGap Samples.stalledAfter
           Samples.stalledFirst Samples.stalledSecond 1704067200000%Z H1 H2 H3).
Defined.

(* ================================================================== *)
(** * The embedding at work *)
(* ================================================================== *)

(** No point: no delta, no flag, nothing counted. *)
Example auditSampling_empty_track `{Engine} :
  auditSampling []
  = mkAuditResult [] 0 None None None [] [] [] [] false false 0 0 0 0 0 0 0 [].
Proof. reflexivity. Qed.

(** One point: still no delta. *)
Example auditSampling_single_point `{Engine} (point : Point) :
  timeDeltasMs (auditSampling [point]) = [] /\
  distanceDeltasM (auditSampling [point]) = [] /\
  timeDistancePairs (auditSampling [point]) = [] /\
  consecutivePointPairsConsidered (auditSampling [point]) = 0%nat.
Proof.
  unfold auditSampling, primaryPass, jointPass, primaryStep. simpl.
  destruct (parsedTimestamp point); simpl; auto.
Qed.

(** The median of 5, 1, 3 is 3; the median of 1, 2, 3, 4 is 2.5. *)
Example median_of_odd_and_even_series :
  sortAscending [5; 1; 3]%Z = [1; 3; 5]%Z /\
  medianOfSorted (sortAscending [5; 1; 3]%Z) = 3%float /\
  medianOfSorted (sortAscending [1; 2; 3; 4]%Z) = 2.5%float.
Proof. repeat split. Qed.

(** [stalledTrack] on the reference engine: one delta of five seconds, one
    rejected pair. *)
Example auditSampling_stalled_track :
  timeDeltasMs (auditSampling (E := RefEngine.engine) Samples.stalledTrack) = [5000%Z] /\
  nonPositiveTimeDeltaEvents (auditSampling (E := RefEngine.engine) Samples.stalledTrack)
  = [mkEvent 3 (Some 1%nat) 0] /\
  rejectedTimestampPairsDeltaLeqZero
    (auditSampling (E := RefEngine.engine) Samples.stalledTrack) = 1%nat /\
  consecutivePointPairsConsidered
    (auditSampling (E := RefEngine.engine) Samples.stalledTrack) = 4%nat /\
  length (distanceDeltasMGeometryOnly
            (auditSampling (E := RefEngine.engine) Samples.stalledTrack)) = 4%nat.
Proof. repeat split; vm_compute; reflexivity. Qed.
(* ================================================================== *)
(** * Neighbours in a list *)
(* ================================================================== *)

Lemma adjacentPairs_map {A B : Type} (f : A -> B) (l : list A) :
  adjacentPairs (map f l) = map (fun ab => (f (fst ab), f (snd ab))) (adjacentPairs l).
Proof.
  induction l as [|a l IH]; [reflexivity|].
  destruct l as [|b l]; [reflexivity|].
  cbn [map adjacentPairs fst snd] in *. now rewrite IH.
Qed.

Lemma adjacentPairs_length {A : Type} (l : list A) :
  length (adjacentPairs l) = (length l - 1)%nat.
Proof.
  induction l as [|a l IH]; [reflexivity|].
  destruct l as [|b l]; [reflexivity|].
  cbn [adjacentPairs length] in *. rewrite IH. lia.
Qed.

Lemma adjacentPairs_cons2 {A : Type} (x y : A) (l : list A) :
  adjacentPairs (x :: y :: l) = (x, y) :: adjacentPairs (y :: l).
Proof. reflexivity. Qed.

Lemma adjacentPairs_middle {A : Type} (l1 l2 : list A) (a b : A) :
  adjacentPairs (l1 ++ a :: b :: l2)
  = adjacentPairs (l1 ++ [a]) ++ (a, b) :: adjacentPairs (b :: l2).
Proof.
  induction l1 as [|x l1 IH]; [reflexivity|].
  destruct l1 as [|y l1].
  - reflexivity.
  - change ((x :: y :: l1) ++ a :: b :: l2) with (x :: y :: (l1 ++ a :: b :: l2)).
    change ((x :: y :: l1) ++ [a]) with (x :: y :: (l1 ++ [a])).
    rewrite !adjacentPairs_cons2.
    change (y :: l1 ++ a :: b :: l2) with ((y :: l1) ++ a :: b :: l2).
    rewrite IH. reflexivity.
Qed.

Lemma adjacentPairs_In_split {A : Type} (a b : A) (l : list A) :
  In (a, b) (adjacentPairs l) <-> exists l1 l2, l = l1 ++ a :: b :: l2.
Proof.
  split.
  - induction l as [|x l IH]; [intros []|].
    destruct l as [|y l]; [intros []|].
    cbn [adjacentPairs]. intros [Heq|Hin].
    + injection Heq as -> ->. now exists [], l.
    + destruct (IH Hin) as (l1 & l2 & Hl). exists (x :: l1), l2.
      now rewrite Hl.
  - intros (l1 & l2 & ->). rewrite adjacentPairs_middle.
    apply in_or_app. right. now left.
Qed.

Lemma filter_map_length {A B : Type} (f : A -> B) (keep : B -> bool) (l : list A) :
  length (filter (fun x => keep (f x)) l) = length (filter keep (map f l)).
Proof.
  induction l as [|x l IH]; [reflexivity|].
  cbn [filter map]. destruct (keep (f x)); cbn [length]; now rewrite IH.
Qed.

Lemma filter_map_swap {A B : Type} (f : A -> B) (keep : B -> bool) (l : list A) :
  map f (filter (fun x => keep (f x)) l) = filter keep (map f l).
Proof.
  induction l as [|x l IH]; [reflexivity|].
  cbn [filter map]. destruct (keep (f x)); cbn [map]; now rewrite IH.
Qed.

(** Every neighbour pair satisfies [R] exactly when the list is sorted by
    [R]. *)
Lemma adjacentPairs_Sorted {A : Type} (R : A -> A -> Prop) (l : list A) :
  (forall ab, In ab (adjacentPairs l) -> R (fst ab) (snd ab)) <-> Sorted R l.
Proof.
  induction l as [|a l IH].
  - split; [constructor | intros _ ab []].
  - destruct l as [|b l].
    + split; [repeat constructor | intros _ ab []].
    + cbn [adjacentPairs]. split.
      * intros Hall. constructor.
        -- apply IH. intros ab Hab. apply Hall. now right.
        -- constructor. apply (Hall (a, b)). now left.
      * intros Hs ab [<-|Hab].
        -- inversion Hs as [|? ? _ Hhd]; subst. now inversion Hhd.
        -- inversion Hs as [|? ? Hs' _]; subst. now apply IH.
Qed.

(* ================================================================== *)
(** * The timestamp audit: theorems *)
(* ================================================================== *)

Lemma keepGreater_fold_spec (jumps : list Z) :
  forall best,
    match fold_left TimestampAudit.keepGreater jumps best with
    | None => best = None /\ jumps = []
    | Some m =>
        (best = Some m \/ In m jumps) /\
        (forall j, In j jumps -> (j <= m)%Z) /\
        (forall b, best = Some b -> (b <= m)%Z)
    end.
Proof.
  induction jumps as [|j jumps IH]; intros best; simpl.
  - destruct best as [b|]; [|auto].
    repeat split; auto; try tauto. intros b' Hb. injection Hb as ->. lia.
  - specialize (IH (TimestampAudit.keepGreater best j)).
    destruct (fold_left TimestampAudit.keepGreater jumps
                        (TimestampAudit.keepGreater best j)) as [m|].
    + destruct IH as (Hin & Hall & Hbest).
      unfold TimestampAudit.keepGreater in Hin, Hbest.
      destruct best as [b|].
      * destruct (j >? b)%Z eqn:Hjb.
        -- apply Z.gtb_lt in Hjb. repeat split.
           ++ destruct Hin as [Hin|Hin]; [injection Hin as <-|]; auto.
           ++ intros j' [<-|Hj']; [apply Hbest; reflexivity | auto].
           ++ intros b' Hb'. injection Hb' as <-.
              specialize (Hbest j eq_refl). lia.
        -- assert (Hle : (j <= b)%Z).
           { destruct (Z.gtb_spec j b); [discriminate | assumption]. }
           repeat split.
           ++ destruct Hin as [Hin|Hin]; auto.
           ++ intros j' [<-|Hj']; [specialize (Hbest b eq_refl); lia | auto].
           ++ exact Hbest.
      * repeat split.
        -- destruct Hin as [Hin|Hin]; [injection Hin as <-|]; auto.
        -- intros j' [<-|Hj']; [apply Hbest; reflexivity | auto].
        -- discriminate.
    + destruct IH as [Hk _]. unfold TimestampAudit.keepGreater in Hk.
      destruct best as [b|]; [destruct (j >? b)%Z|]; discriminate.
Qed.

Section TimestampAuditFacts.
Context {E : Engine} {H : Host}.
Import TimestampAudit.

Lemma ts_tallyAppend_assoc a b c :
  tallyAppend (tallyAppend a b) c = tallyAppend a (tallyAppend b c).
Proof.
  unfold tallyAppend; simpl.
  now rewrite <- !app_assoc, <- !Nat.add_assoc.
Qed.

Lemma ts_tallyAppend_nil_r a anchor i : tallyAppend a (tallyOfSegment anchor i []) = a.
Proof.
  destruct a, anchor as [st|]; unfold tallyAppend, tallyOfSegment, segmentPairs; simpl;
    now rewrite !app_nil_r, !Nat.add_0_r.
Qed.

(** One iteration. *)
Lemma step_tally s i point anchor :
  anchored s anchor ->
  tallyOfState (step s i point)
  = tallyAppend (tallyOfState s) (tallyOfSegment anchor i [point]) /\
  maxJump (step s i point)
  = fold_left keepGreater
              (map jumpBack (filter goesBack (segmentPairs anchor i [point])))
              (maxJump s) /\
  anchored (step s i point) (anchorAfter anchor i [point]).
Proof.
  destruct s as [n1 n2 n3 n4 n5 mj be de lm li lr].
  unfold anchored, anchorAfter, tallyOfSegment, segmentPairs, step, isMissing, isUnparsable.
  cbn [stampsFrom filter].
  destruct anchor as [[[k raw0] t0]|]; cbn [lastValidTimestampMs lastValidTimestampIndex
                                            lastValidTimestampRaw]; intros Ha.
  - destruct Ha as (-> & -> & ->).
    destruct (timeRaw point) as [raw|]; [destruct (Date_parse raw) as [t|]|];
      cbn -[formatTime Z.sub];
      try (unfold tallyAppend, tallyOfState; cbn;
           rewrite ?app_nil_r, ?Nat.add_0_r, ?Nat.add_1_r; auto; fail).
    unfold sameTime, goesBack, goesForward, jumpBack, stampMs. cbn [fst snd].
    destruct (Z.eqb_spec t t0); destruct (Z.ltb_spec t t0); destruct (Z.gtb_spec t t0);
      try lia; cbn -[formatTime Z.sub];
      unfold tallyAppend, tallyOfState, duplicateEventOf, backwardEventOf,
        stampIndex, stampRaw, keepGreater;
      cbn -[formatTime Z.sub];
      rewrite ?app_nil_r, ?Nat.add_0_r, ?Nat.add_1_r; auto.
    destruct mj as [m|]; [destruct (t0 - t >? m)%Z|]; cbn -[formatTime Z.sub]; auto.
  - subst lm.
    destruct (timeRaw point) as [raw|]; [destruct (Date_parse raw) as [t|]|];
      cbn -[formatTime Z.sub];
      unfold tallyAppend, tallyOfState; cbn;
      rewrite ?app_nil_r, ?Nat.add_0_r, ?Nat.add_1_r; auto.
Qed.

Lemma segmentPairs_cons anchor i point rest :
  segmentPairs anchor i (point :: rest)
  = segmentPairs anchor i [point]
    ++ segmentPairs (anchorAfter anchor i [point]) (i + 1) rest.
Proof.
  unfold segmentPairs, anchorAfter. cbn [stampsFrom].
  destruct (timeRaw point) as [raw|]; [destruct (Date_parse raw) as [t|]|];
    destruct anchor as [a|]; cbn [rev app adjacentPairs]; try reflexivity;
    destruct (stampsFrom (i + 1) rest); reflexivity.
Qed.

Lemma tallyOfSegment_cons anchor i point rest :
  tallyOfSegment anchor i (point :: rest)
  = tallyAppend (tallyOfSegment anchor i [point])
                (tallyOfSegment (anchorAfter anchor i [point]) (i + 1) rest).
Proof.
  unfold tallyOfSegment, tallyAppend. cbn [tallyMissing tallyUnparsable tallyDuplicates
    tallyBackwards tallyIncreasing tallyBackwardEvents tallyDuplicateEvents].
  rewrite segmentPairs_cons.
  repeat (rewrite ?filter_app, ?map_app, ?length_app).
  change (point :: rest) with ([point] ++ rest).
  repeat (rewrite ?filter_app, ?length_app).
  reflexivity.
Qed.

Lemma anchorAfter_cons anchor i point rest :
  anchorAfter anchor i (point :: rest)
  = anchorAfter (anchorAfter anchor i [point]) (i + 1) rest.
Proof.
  unfold anchorAfter. cbn [stampsFrom].
  destruct (timeRaw point) as [raw|]; [destruct (Date_parse raw) as [t|]|];
    cbn [rev app]; try reflexivity;
    destruct (rev (stampsFrom (i + 1) rest)); reflexivity.
Qed.

(** The whole loop. *)
Lemma loop_tally rest :
  forall i s anchor,
    anchored s anchor ->
    tallyOfState (forEachIndexed step i rest s)
    = tallyAppend (tallyOfState s) (tallyOfSegment anchor i rest) /\
    maxJump (forEachIndexed step i rest s)
    = fold_left keepGreater
                (map jumpBack (filter goesBack (segmentPairs anchor i rest)))
                (maxJump s).
Proof.
  induction rest as [|point rest IH]; intros i s anchor Ha.
  - cbn [forEachIndexed]. rewrite ts_tallyAppend_nil_r.
    split; [reflexivity|]. unfold segmentPairs. cbn [stampsFrom].
    destruct anchor; reflexivity.
  - cbn [forEachIndexed].
    destruct (step_tally s i point anchor Ha) as (Ht & Hm & Ha').
    destruct (IH (i + 1)%nat _ _ Ha') as (IHt & IHm).
    split.
    + rewrite IHt, Ht, ts_tallyAppend_assoc, <- tallyOfSegment_cons. reflexivity.
    + rewrite IHm, Hm, (segmentPairs_cons anchor i point rest), filter_app, map_app,
        fold_left_app.
      reflexivity.
Qed.

(** What [auditTimestamps] returns, read off the timestamped neighbours. *)
Lemma auditTimestamps_spec points :
  let m := auditTimestamps points in
  let pairs := adjacentPairs (stamps points) in
  totalPointsChecked m = length points /\
  missingTimestampCount m = length (filter isMissing points) /\
  unparsableTimestampCount m = length (filter isUnparsable points) /\
  duplicateTimestampCount m = length (filter sameTime pairs) /\
  backwardTimestampCount m = length (filter goesBack pairs) /\
  strictlyIncreasingCount m = length (filter goesForward pairs) /\
  maxBackwardJumpMs m = greatestJump (map jumpBack (filter goesBack pairs)) /\
  backwardTimestampEvents m = map backwardEventOf (filter goesBack pairs) /\
  duplicateTimestampEvents m = map duplicateEventOf (filter sameTime pairs).
Proof.
  cbv zeta.
  assert (Ha : anchored init None) by reflexivity.
  destruct (loop_tally points 0 init None Ha) as (Ht & Hm).
  unfold tallyOfState, tallyOfSegment, tallyAppend in Ht.
  cbn [tallyMissing tallyUnparsable tallyDuplicates tallyBackwards tallyIncreasing
       tallyBackwardEvents tallyDuplicateEvents init missing unparsable duplicates
       backwards increasing backwardEvents duplicateEvents Nat.add app] in Ht.
  injection Ht as H1 H2 H3 H4 H5 H6 H7.
  unfold auditTimestamps.
  cbn [totalPointsChecked missingTimestampCount unparsableTimestampCount
       duplicateTimestampCount backwardTimestampCount strictlyIncreasingCount
       maxBackwardJumpMs backwardTimestampEvents duplicateTimestampEvents].
  unfold greatestJump. fold (stamps points) in *.
  change (segmentPairs None 0 points) with (adjacentPairs (stamps points)) in *.
  repeat split; assumption.
Qed.


(** ** Where the timestamped points sit in the track *)

Lemma stampsFrom_timeline points :
  forall i, map stampMs (stampsFrom i points) = timeline points.
Proof.
  unfold timeline.
  induction points as [|point points IH]; intros i; [reflexivity|].
  cbn [stampsFrom keepSome]. unfold parsedTimestamp at 1.
  destruct (timeRaw point) as [raw|]; [destruct (Date_parse raw) as [t|]|];
    cbn [map]; now rewrite ?IH.
Qed.

Lemma timestampedPoints_timeline points :
  map snd (timestampedPoints points) = timeline points.
Proof.
  unfold timeline, timestampedPoints.
  induction points as [|point points IH]; [reflexivity|].
  cbn [keepSome]. destruct (parsedTimestamp point); cbn [map snd]; now rewrite IH.
Qed.

Lemma stampsFrom_app xs ys :
  forall i, stampsFrom i (xs ++ ys) = stampsFrom i xs ++ stampsFrom (i + length xs) ys.
Proof.
  induction xs as [|x xs IH]; intros i.
  - cbn [app stampsFrom length]. now rewrite Nat.add_0_r.
  - cbn [app stampsFrom length]. rewrite IH.
    replace (i + 1 + length xs)%nat with (i + S (length xs))%nat by lia.
    destruct (timeRaw x) as [raw|]; [destruct (Date_parse raw) as [t|]|]; reflexivity.
Qed.

Lemma stampsFrom_untimestamped gap :
  Forall (fun g => parsedTimestamp g = None) gap ->
  forall i, stampsFrom i gap = [].
Proof.
  induction 1 as [|g gap Hg _ IH]; intros i; [reflexivity|].
  cbn [stampsFrom]. unfold parsedTimestamp in Hg.
  destruct (timeRaw g) as [raw|]; [rewrite Hg|]; apply IH.
Qed.

Lemma stampsFrom_timestamped i point rest raw t :
  timeRaw point = Some raw -> Date_parse raw = Some t ->
  stampsFrom i (point :: rest) = (i, raw, t) :: stampsFrom (i + 1) rest.
Proof. intros Hr Ht. cbn [stampsFrom]. now rewrite Hr, Ht. Qed.

(** The first timestamped point of a stretch. *)
Lemma stampsFrom_head points :
  forall i a l,
    stampsFrom i points = a :: l ->
    exists gap q post,
      points = gap ++ q :: post /\
      Forall (fun g => parsedTimestamp g = None) gap /\
      timeRaw q = Some (stampRaw a) /\
      Date_parse (stampRaw a) = Some (stampMs a) /\
      stampIndex a = (i + length gap)%nat /\
      l = stampsFrom (i + length gap + 1) post.
Proof.
  induction points as [|point points IH]; intros i a l Hs; [discriminate|].
  cbn [stampsFrom] in Hs.
  destruct (timeRaw point) as [raw|] eqn:Hraw;
    [destruct (Date_parse raw) as [t|] eqn:Ht|].
  - injection Hs as <- <-. exists [], point, points.
    cbn [app length stampRaw stampMs stampIndex fst snd].
    rewrite Nat.add_0_r. repeat split; auto.
  - destruct (IH _ _ _ Hs) as (gap & q & post & -> & Hgap & Hq & Hp & Hi & Hl).
    exists (point :: gap), q, post. cbn [app length].
    repeat split; auto.
    + constructor; [|exact Hgap]. unfold parsedTimestamp. now rewrite Hraw.
    + rewrite Hi. lia.
    + rewrite Hl. f_equal. lia.
  - destruct (IH _ _ _ Hs) as (gap & q & post & -> & Hgap & Hq & Hp & Hi & Hl).
    exists (point :: gap), q, post. cbn [app length].
    repeat split; auto.
    + constructor; [|exact Hgap]. unfold parsedTimestamp. now rewrite Hraw.
    + rewrite Hi. lia.
    + rewrite Hl. f_equal. lia.
Qed.

(** Any timestamped point of a stretch. *)
Lemma stampsFrom_split l1 :
  forall points i a l2,
    stampsFrom i points = l1 ++ a :: l2 ->
    exists pre q post,
      points = pre ++ q :: post /\
      stampsFrom i pre = l1 /\
      timeRaw q = Some (stampRaw a) /\
      Date_parse (stampRaw a) = Some (stampMs a) /\
      stampIndex a = (i + length pre)%nat /\
      l2 = stampsFrom (i + length pre + 1) post.
Proof.
  induction l1 as [|c l1 IH]; intros points i a l2 Hs.
  - destruct (stampsFrom_head _ _ _ _ Hs) as (gap & q & post & -> & Hgap & Hq & Hp & Hi & Hl).
    exists gap, q, post. repeat split; auto.
    now apply stampsFrom_untimestamped.
  - cbn [app] in Hs.
    destruct (stampsFrom_head _ _ _ _ Hs) as (gap & qc & postc & -> & Hgap & Hqc & Hpc & Hic & Hl).
    symmetry in Hl.
    destruct (IH _ _ _ _ Hl) as (pre & q & post & -> & Hpre & Hq & Hp & Hi & Hl2).
    exists (gap ++ qc :: pre), q, post.
    rewrite <- app_assoc. cbn [app]. repeat split; auto.
    + rewrite stampsFrom_app, (stampsFrom_untimestamped gap Hgap).
      rewrite (stampsFrom_timestamped _ _ _ _ _ Hqc Hpc), Hpre.
      cbn [app]. f_equal. destruct c as [[k raw] t].
      cbn [stampIndex stampRaw stampMs fst snd] in *. now subst k.
    + rewrite Hi, length_app. cbn [length]. lia.
    + rewrite Hl2, length_app. cbn [length]. f_equal. lia.
Qed.

(** Two timestamped points are neighbours in [stamps] exactly when only
    untimestamped points lie between them. *)
Lemma adjacent_stamps points a b :
  In (a, b) (adjacentPairs (stamps points)) <->
  exists pre p gap q post,
    points = pre ++ p :: gap ++ q :: post /\
    Forall (fun g => parsedTimestamp g = None) gap /\
    timeRaw p = Some (stampRaw a) /\ Date_parse (stampRaw a) = Some (stampMs a) /\
    timeRaw q = Some (stampRaw b) /\ Date_parse (stampRaw b) = Some (stampMs b) /\
    stampIndex a = length pre /\
    stampIndex b = (length pre + 1 + length gap)%nat.
Proof.
  rewrite adjacentPairs_In_split. unfold stamps. split.
  - intros (l1 & l2 & Hs).
    destruct (stampsFrom_split _ _ _ _ _ Hs) as (pre & p & post & -> & _ & Hp & Hpt & Hi & Hl).
    symmetry in Hl.
    destruct (stampsFrom_head _ _ _ _ Hl) as (gap & q & post' & -> & Hgap & Hq & Hqt & Hj & _).
    exists pre, p, gap, q, post'. repeat split; auto.
  - intros (pre & p & gap & q & post & -> & Hgap & Hp & Hpt & Hq & Hqt & Hi & Hj).
    exists (stampsFrom 0 pre), (stampsFrom (length pre + 1 + length gap + 1) post).
    rewrite stampsFrom_app, (stampsFrom_timestamped _ _ _ _ _ Hp Hpt).
    rewrite stampsFrom_app, (stampsFrom_untimestamped gap Hgap).
    rewrite (stampsFrom_timestamped _ _ _ _ _ Hq Hqt). cbn [app].
    destruct a as [[k raw] t], b as [[k' raw'] t'].
    cbn [stampIndex stampRaw stampMs fst snd] in *. subst k k'.
    reflexivity.
Qed.

(** The indices of the timestamped points increase. *)
Lemma stampsFrom_indices points :
  forall i, StronglySorted lt (map stampIndex (stampsFrom i points)) /\
            Forall (fun k => i <= k < i + length points)%nat
                   (map stampIndex (stampsFrom i points)).
Proof.
  induction points as [|point points IH]; intros i.
  - split; constructor.
  - destruct (IH (i + 1)%nat) as (Hs & Hb).
    assert (Hb' : Forall (fun k => i <= k < i + length (point :: points))%nat
                         (map stampIndex (stampsFrom (i + 1) points))).
    { eapply Forall_impl; [|exact Hb]. cbn [length]. intros k Hk. lia. }
    cbn [stampsFrom].
    destruct (timeRaw point) as [raw|]; [destruct (Date_parse raw) as [t|]|];
      try (split; assumption).
    cbn [map stampIndex fst]. split.
    + constructor; [exact Hs|].
      eapply Forall_impl; [|exact Hb]. intros k Hk. cbn beta in Hk. lia.
    + constructor; [cbn [length]; lia | exact Hb'].
Qed.

(** Each point is missing, unparsable or timestamped. *)
Lemma points_partition points :
  (length (filter isMissing points) + length (filter isUnparsable points)
   + length (timeline points) = length points)%nat.
Proof.
  unfold timeline.
  induction points as [|point points IH]; [reflexivity|].
  cbn [filter keepSome length]. unfold isMissing, isUnparsable, parsedTimestamp in *.
  destruct (timeRaw point) as [raw|]; [destruct (Date_parse raw) as [t|]|];
    cbn [length]; lia.
Qed.

(** Each pair of timestamped neighbours is a duplicate, a step back or a
    step forward. *)
Lemma pairs_partition (pairs : list ((nat * string * Z) * (nat * string * Z))) :
  (length (filter sameTime pairs) + length (filter goesBack pairs)
   + length (filter goesForward pairs) = length pairs)%nat.
Proof.
  induction pairs as [|ab pairs IH]; [reflexivity|].
  cbn [filter length]. unfold sameTime, goesBack, goesForward in *.
  destruct (Z.eqb_spec (stampMs (snd ab)) (stampMs (fst ab)));
    destruct (Z.ltb_spec (stampMs (snd ab)) (stampMs (fst ab)));
    destruct (Z.gtb_spec (stampMs (snd ab)) (stampMs (fst ab)));
    cbn [length]; lia.
Qed.

End TimestampAuditFacts.
(* ================================================================== *)
(** * The timestamp audit: what the report says *)
(* ================================================================== *)

Lemma filter_none_length {A : Type} (f : A -> bool) (l : list A) :
  length (filter f l) = 0%nat <-> forall x, In x l -> f x = false.
Proof.
  induction l as [|a l IH]; cbn [filter].
  - split; [intros _ x [] | reflexivity].
  - destruct (f a) eqn:Hfa; cbn [length].
    + split; [discriminate|]. intros Hall. rewrite (Hall a) in Hfa by now left.
      discriminate.
    + rewrite IH. split.
      * intros Hall x [<-|Hx]; auto.
      * intros Hall x Hx. apply Hall. now right.
Qed.

Lemma StronglySorted_map_filter {A B : Type} (R : B -> B -> Prop) (f : A -> B)
      (keep : A -> bool) (l : list A) :
  StronglySorted R (map f l) -> StronglySorted R (map f (filter keep l)).
Proof.
  induction l as [|a l IH]; cbn [map filter]; intros Hs; [constructor|].
  inversion Hs as [|? ? Hs' Hall]; subst.
  destruct (keep a); cbn [map]; [|now apply IH].
  constructor; [now apply IH|].
  apply Forall_forall. intros b Hb. rewrite Forall_forall in Hall. apply Hall.
  apply in_map_iff in Hb. destruct Hb as (x & <- & Hx).
  apply filter_In in Hx. apply in_map. tauto.
Qed.

Lemma StronglySorted_lt_NoDup (l : list nat) : StronglySorted lt l -> NoDup l.
Proof.
  induction 1 as [|a l _ IH Hall]; constructor; [|exact IH].
  intros Hin. rewrite Forall_forall in Hall. specialize (Hall a Hin). lia.
Qed.

Lemma NoDup_map_injective {A B : Type} (f : A -> B) (l : list A) (a b : A) :
  NoDup (map f l) -> In a l -> In b l -> f a = f b -> a = b.
Proof.
  induction l as [|x l IH]; cbn [map]; intros Hnd Ha Hb Hf; [destruct Ha|].
  inversion Hnd as [|? ? Hnotin Hnd']; subst.
  destruct Ha as [<-|Ha], Hb as [<-|Hb]; auto.
  - elim Hnotin. rewrite Hf. now apply in_map.
  - elim Hnotin. rewrite <- Hf. now apply in_map.
Qed.

Lemma adjacentPairs_snd {A : Type} (l : list A) :
  map snd (adjacentPairs l) = tl l.
Proof.
  induction l as [|a l IH]; [reflexivity|].
  destruct l as [|b l]; [reflexivity|].
  rewrite adjacentPairs_cons2. cbn [map snd tl] in *. now rewrite IH.
Qed.

Lemma tl_map {A B : Type} (f : A -> B) (l : list A) : tl (map f l) = map f (tl l).
Proof. now destruct l. Qed.

Lemma StronglySorted_tl {A : Type} (R : A -> A -> Prop) (l : list A) :
  StronglySorted R l -> StronglySorted R (tl l).
Proof. intros Hs. destruct Hs; [constructor | assumption]. Qed.

Section TimestampAuditReport.
Context {E : Engine} {H : Host}.
Import TimestampAudit.

(** The pairs of neighbouring time values. *)
Lemma stamp_pairs_timeline points :
  map (fun ab => (stampMs (fst ab), stampMs (snd ab))) (adjacentPairs (stamps points))
  = adjacentPairs (timeline points).
Proof.
  rewrite <- adjacentPairs_map. unfold stamps. now rewrite stampsFrom_timeline.
Qed.

(** The counters and the greatest jump, read off the time values alone. *)
Lemma auditTimestamps_timeline points :
  let m := auditTimestamps points in
  let steps := adjacentPairs (timeline points) in
  duplicateTimestampCount m = length (filter (fun ab => (snd ab =? fst ab)%Z) steps) /\
  backwardTimestampCount m = length (filter (fun ab => (snd ab <? fst ab)%Z) steps) /\
  strictlyIncreasingCount m = length (filter (fun ab => (snd ab >? fst ab)%Z) steps) /\
  maxBackwardJumpMs m
  = greatestJump (map (fun ab => (fst ab - snd ab)%Z)
                      (filter (fun ab => (snd ab <? fst ab)%Z) steps)).
Proof.
  cbv zeta.
  destruct (auditTimestamps_spec points) as (_ & _ & _ & Hd & Hb & Hi & Hm & _).
  cbv zeta in *. rewrite Hd, Hb, Hi, Hm, <- stamp_pairs_timeline.
  repeat split.
  - apply (filter_map_length (fun ab => (stampMs (fst ab), stampMs (snd ab)))
                             (fun ab => (snd ab =? fst ab)%Z)).
  - apply (filter_map_length (fun ab => (stampMs (fst ab), stampMs (snd ab)))
                             (fun ab => (snd ab <? fst ab)%Z)).
  - apply (filter_map_length (fun ab => (stampMs (fst ab), stampMs (snd ab)))
                             (fun ab => (snd ab >? fst ab)%Z)).
  - f_equal.
    rewrite <- (filter_map_swap (fun ab => (stampMs (fst ab), stampMs (snd ab)))
                                (fun ab => (snd ab <? fst ab)%Z)).
    rewrite map_map. reflexivity.
Qed.

(** X1.  [auditTimestamps] accounts for every point and for every pair of
    timestamped neighbours: a point is counted as missing, as unparsable, or
    is timestamped; of [k] timestamped points, the [k - 1] pairs of
    neighbours are each counted once, as duplicate, backward or strictly
    increasing. *)
Theorem auditTimestamps_accounts_for_every_point (points : list Point) :
  let m := auditTimestamps points in
  totalPointsChecked m = length points /\
  (missingTimestampCount m + unparsableTimestampCount m + length (timeline points)
   = totalPointsChecked m)%nat /\
  (duplicateTimestampCount m + backwardTimestampCount m + strictlyIncreasingCount m
   = length (timeline points) - 1)%nat.
Proof.
  cbv zeta.
  destruct (auditTimestamps_spec points) as (Ht & Hmi & Hu & Hd & Hb & Hi & _).
  cbv zeta in *. rewrite Ht, Hmi, Hu, Hd, Hb, Hi.
  split; [reflexivity|]. split; [apply points_partition|].
  rewrite pairs_partition, adjacentPairs_length.
  unfold stamps. now rewrite <- (stampsFrom_timeline points 0), length_map.
Qed.

(** X2.  The log of backward timestamps is sound and complete: it holds an
    event exactly for each timestamped point [q] that is earlier than the
    timestamped point [p] last before it (only untimestamped points lie
    between); the event carries the array positions of [q] and [p] and both
    formatted times. *)
Theorem backwardTimestampEvents_sound_and_complete
        (points : list Point) (e : BackwardTimestampEvent) :
  In e (backwardTimestampEvents (auditTimestamps points)) <->
  exists pre p gap q post rawp rawq tp tq,
    points = pre ++ p :: gap ++ q :: post /\
    Forall (fun g => parsedTimestamp g = None) gap /\
    timeRaw p = Some rawp /\ Date_parse rawp = Some tp /\
    timeRaw q = Some rawq /\ Date_parse rawq = Some tq /\
    (tq < tp)%Z /\
    e = mkBackward (length pre + 1 + length gap) (Some (length pre))
                   (formatTime (Some rawp)) (formatTime (Some rawq)).
Proof.
  destruct (auditTimestamps_spec points) as (_ & _ & _ & _ & _ & _ & _ & Hlog & _).
  cbv zeta in Hlog. rewrite Hlog, in_map_iff. split.
  - intros ([a b] & <- & Hin). apply filter_In in Hin. destruct Hin as [Hin Hback].
    apply adjacent_stamps in Hin.
    destruct Hin as (pre & p & gap & q & post & -> & Hgap & Hp & Hpt & Hq & Hqt & Hi & Hj).
    exists pre, p, gap, q, post, (stampRaw a), (stampRaw b), (stampMs a), (stampMs b).
    unfold goesBack in Hback. cbn [fst snd] in Hback. apply Z.ltb_lt in Hback.
    repeat split; auto.
    unfold backwardEventOf. cbn [fst snd]. congruence.
  - intros (pre & p & gap & q & post & rawp & rawq & tp & tq
            & -> & Hgap & Hp & Hpt & Hq & Hqt & Hlt & ->).
    exists ((length pre, rawp, tp), ((length pre + 1 + length gap)%nat, rawq, tq)).
    split; [reflexivity|]. apply filter_In. split.
    + apply adjacent_stamps. exists pre, p, gap, q, post. repeat split; auto.
    + unfold goesBack. cbn [fst snd stampMs]. now apply Z.ltb_lt.
Qed.

(** X3.  The log of duplicate timestamps is sound and complete: it holds an
    event exactly for each timestamped point [q] whose time value equals
    that of the timestamped point [p] last before it; the event carries the
    array positions of [q] and [p] and the formatted time of [q]. *)
Theorem duplicateTimestampEvents_sound_and_complete
        (points : list Point) (e : DuplicateTimestampEvent) :
  In e (duplicateTimestampEvents (auditTimestamps points)) <->
  exists pre p gap q post rawp rawq t,
    points = pre ++ p :: gap ++ q :: post /\
    Forall (fun g => parsedTimestamp g = None) gap /\
    timeRaw p = Some rawp /\ Date_parse rawp = Some t /\
    timeRaw q = Some rawq /\ Date_parse rawq = Some t /\
    e = mkDuplicate (length pre + 1 + length gap) (Some (length pre))
                    (formatTime (Some rawq)).
Proof.
  destruct (auditTimestamps_spec points) as (_ & _ & _ & _ & _ & _ & _ & _ & Hlog).
  cbv zeta in Hlog. rewrite Hlog, in_map_iff. split.
  - intros ([a b] & <- & Hin). apply filter_In in Hin. destruct Hin as [Hin Hsame].
    apply adjacent_stamps in Hin.
    destruct Hin as (pre & p & gap & q & post & -> & Hgap & Hp & Hpt & Hq & Hqt & Hi & Hj).
    exists pre, p, gap, q, post, (stampRaw a), (stampRaw b), (stampMs a).
    unfold sameTime in Hsame. cbn [fst snd] in Hsame. apply Z.eqb_eq in Hsame.
    rewrite Hsame in Hqt.
    repeat split; auto.
    unfold duplicateEventOf. cbn [fst snd]. congruence.
  - intros (pre & p & gap & q & post & rawp & rawq & t
            & -> & Hgap & Hp & Hpt & Hq & Hqt & ->).
    exists ((length pre, rawp, t), ((length pre + 1 + length gap)%nat, rawq, t)).
    split; [reflexivity|]. apply filter_In. split.
    + apply adjacent_stamps. exists pre, p, gap, q, post. repeat split; auto.
    + unfold sameTime. cbn [fst snd stampMs]. apply Z.eqb_refl.
Qed.

Lemma stamp_pair_indices points :
  StronglySorted lt (map (fun ab => stampIndex (snd ab)) (adjacentPairs (stamps points))).
Proof.
  rewrite <- (map_map snd stampIndex), adjacentPairs_snd, <- tl_map.
  apply StronglySorted_tl. apply stampsFrom_indices.
Qed.

(** X4.  Each counter of flagged timestamps is the length of its log; each
    log lists its events by increasing array position; and no point is in
    both logs. *)
Theorem auditTimestamps_logs_match_counters (points : list Point) :
  let m := auditTimestamps points in
  length (backwardTimestampEvents m) = backwardTimestampCount m /\
  length (duplicateTimestampEvents m) = duplicateTimestampCount m /\
  StronglySorted lt (map backwardIndex (backwardTimestampEvents m)) /\
  StronglySorted lt (map duplicateIndex (duplicateTimestampEvents m)) /\
  (forall i, In i (map backwardIndex (backwardTimestampEvents m)) ->
             ~ In i (map duplicateIndex (duplicateTimestampEvents m))).
Proof.
  cbv zeta.
  destruct (auditTimestamps_spec points) as (_ & _ & _ & Hd & Hb & _ & _ & Hbl & Hdl).
  cbv zeta in *. rewrite Hd, Hb, Hbl, Hdl, !length_map, !map_map.
  change (fun x => backwardIndex (backwardEventOf x))
    with (fun ab : (nat * string * Z) * (nat * string * Z) => stampIndex (snd ab)).
  change (fun x => duplicateIndex (duplicateEventOf x))
    with (fun ab : (nat * string * Z) * (nat * string * Z) => stampIndex (snd ab)).
  repeat split.
  - apply StronglySorted_map_filter, stamp_pair_indices.
  - apply StronglySorted_map_filter, stamp_pair_indices.
  - intros i Hback Hdup.
    apply in_map_iff in Hback. destruct Hback as (ab & Hi & Hab).
    apply in_map_iff in Hdup. destruct Hdup as (ab' & Hi' & Hab').
    apply filter_In in Hab. destruct Hab as [Hab Hback].
    apply filter_In in Hab'. destruct Hab' as [Hab' Hsame].
    assert (Heq : ab = ab').
    { apply (NoDup_map_injective (fun ab => stampIndex (snd ab))
                                 (adjacentPairs (stamps points))); auto.
      - apply StronglySorted_lt_NoDup, stamp_pair_indices.
      - now rewrite Hi, Hi'. }
    subst ab'. unfold goesBack in Hback. unfold sameTime in Hsame.
    apply Z.ltb_lt in Hback. apply Z.eqb_eq in Hsame. lia.
Qed.

(** X5.  [maxBackwardJumpMs] is [null] exactly when no timestamp goes back;
    otherwise it is a positive number of milliseconds, the jump of some
    backward pair, and no backward pair jumps further. *)
Theorem maxBackwardJumpMs_is_the_greatest_jump (points : list Point) :
  let m := auditTimestamps points in
  let jumps :=
    map (fun ab => (fst ab - snd ab)%Z)
        (filter (fun ab => (snd ab <? fst ab)%Z) (adjacentPairs (timeline points))) in
  length jumps = backwardTimestampCount m /\
  (maxBackwardJumpMs m = None <-> backwardTimestampCount m = 0%nat) /\
  (forall j, maxBackwardJumpMs m = Some j ->
             (0 < j)%Z /\ In j jumps /\ Forall (fun j' => (j' <= j)%Z) jumps).
Proof.
  cbv zeta.
  destruct (auditTimestamps_timeline points) as (_ & Hb & _ & Hm).
  cbv zeta in *. rewrite Hb, Hm. unfold greatestJump.
  set (jumps := map _ _).
  assert (Hlen : length jumps
                 = length (filter (fun ab => (snd ab <? fst ab)%Z)
                                  (adjacentPairs (timeline points))))
    by apply length_map.
  rewrite <- Hlen.
  pose proof (keepGreater_fold_spec jumps None) as Hspec.
  split; [reflexivity|]. split.
  - split.
    + intros Hnone. rewrite Hnone in Hspec. destruct Hspec as [_ ->]. reflexivity.
    + intros Hz. apply length_zero_iff_nil in Hz. now rewrite Hz.
  - intros j Hj. rewrite Hj in Hspec. destruct Hspec as ([Hbest|Hin] & Hall & _).
    + discriminate.
    + split; [|split; [exact Hin | now apply Forall_forall]].
      subst jumps. apply in_map_iff in Hin. destruct Hin as (ab & <- & Hab).
      apply filter_In in Hab. destruct Hab as [_ Hlt]. apply Z.ltb_lt in Hlt. lia.
Qed.

(** X6.  The audit reports neither a duplicate nor a backward timestamp
    exactly when the time values of the timestamped points, in track order,
    increase strictly. *)
Theorem no_duplicate_no_backward_iff_strictly_increasing (points : list Point) :
  let m := auditTimestamps points in
  (duplicateTimestampCount m = 0 /\ backwardTimestampCount m = 0)%nat <->
  StronglySorted Z.lt (timeline points).
Proof.
  cbv zeta.
  destruct (auditTimestamps_timeline points) as (Hd & Hb & _).
  cbv zeta in *. rewrite Hd, Hb, !filter_none_length.
  split.
  - intros [Hdup Hback]. apply Sorted_StronglySorted; [intros x y z; apply Z.lt_trans|].
    apply adjacentPairs_Sorted. intros ab Hab.
    specialize (Hdup ab Hab). specialize (Hback ab Hab). cbn beta in *.
    apply Z.eqb_neq in Hdup. apply Z.ltb_ge in Hback. lia.
  - intros Hs. apply StronglySorted_Sorted in Hs.
    rewrite <- adjacentPairs_Sorted in Hs.
    split; intros ab Hab; specialize (Hs ab Hab).
    + apply Z.eqb_neq. lia.
    + apply Z.ltb_ge. lia.
Qed.

(** X7.  The counters of duplicate, backward and strictly increasing
    timestamps and the greatest backward jump depend on the sequence of
    parsed time values only: not on the coordinates, and not on where
    points without a usable timestamp lie. *)
Theorem auditTimestamps_counts_depend_on_time_values_only (points points' : list Point) :
  timeline points = timeline points' ->
  let m := auditTimestamps points in
  let m' := auditTimestamps points' in
  duplicateTimestampCount m = duplicateTimestampCount m' /\
  backwardTimestampCount m = backwardTimestampCount m' /\
  strictlyIncreasingCount m = strictlyIncreasingCount m' /\
  maxBackwardJumpMs m = maxBackwardJumpMs m'.
Proof.
  intros Hsame. cbv zeta.
  destruct (auditTimestamps_timeline points) as (Hd & Hb & Hi & Hm).
  destruct (auditTimestamps_timeline points') as (Hd' & Hb' & Hi' & Hm').
  cbv zeta in *. rewrite Hd, Hb, Hi, Hm, Hd', Hb', Hi', Hm', Hsame.
  repeat split; reflexivity.
Qed.

End TimestampAuditReport.
(* ================================================================== *)
(** * The two audits of the timestamps agree *)
(* ================================================================== *)

Lemma positive_steps_count (steps : list (Z * Z)) :
  length (filter (fun d => (d >? 0)%Z) (map (fun ab => (snd ab - fst ab)%Z) steps))
  = length (filter (fun ab => (snd ab >? fst ab)%Z) steps).
Proof.
  induction steps as [|ab steps IH]; [reflexivity|].
  cbn [map filter].
  destruct (Z.gtb_spec (snd ab - fst ab) 0); destruct (Z.gtb_spec (snd ab) (fst ab));
    try lia; cbn [length]; now rewrite IH.
Qed.

Lemma nonpositive_steps_count (steps : list (Z * Z)) :
  length (filter (fun d => negb (d >? 0)%Z) (map (fun ab => (snd ab - fst ab)%Z) steps))
  = (length (filter (fun ab => (snd ab =? fst ab)%Z) steps)
     + length (filter (fun ab => (snd ab <? fst ab)%Z) steps))%nat.
Proof.
  induction steps as [|ab steps IH]; [reflexivity|].
  cbn [map filter].
  destruct (Z.gtb_spec (snd ab - fst ab) 0); destruct (Z.eqb_spec (snd ab) (fst ab));
    destruct (Z.ltb_spec (snd ab) (fst ab)); try lia; cbn [negb length]; lia.
Qed.

Section AuditsAgree.
Context {E : Engine}.

Lemma presenceScan_timeline points :
  presenceScan points = true <-> timeline points <> [].
Proof.
  unfold presenceScan, timeline.
  induction points as [|point points IH]; cbn [existsb keepSome].
  - split; [discriminate | intros Hne; now elim Hne].
  - destruct (parsedTimestamp point); cbn [orb].
    + split; [discriminate | reflexivity].
    + exact IH.
Qed.

(** The times elapsed between neighbouring timestamped points. *)
Lemma elapsed_timeline points :
  keepSome (fun o => option_map snd (obsElapsed o)) (observations points)
  = map (fun ab => (snd ab - fst ab)%Z) (adjacentPairs (timeline points)).
Proof.
  rewrite observations_elapsed, <- timestampedPoints_timeline, adjacentPairs_map, map_map.
  reflexivity.
Qed.

(** The time series of [auditSampling], read off the time values alone. *)
Lemma auditSampling_timeline points :
  let r := auditSampling points in
  let elapsed := map (fun ab => (snd ab - fst ab)%Z) (adjacentPairs (timeline points)) in
  timeDeltasMs r = filter (fun d => (d >? 0)%Z) elapsed /\
  totalDeltaCount r = length (timeDeltasMs r) /\
  rejectedTimestampPairsDeltaLeqZero r
  = length (filter (fun d => negb (d >? 0)%Z) elapsed) /\
  length (nonPositiveTimeDeltaEvents r) = rejectedTimestampPairsDeltaLeqZero r /\
  (hasTimeProgression r = true <-> timeDeltasMs r <> []).
Proof.
  cbv zeta.
  destruct (auditSampling_tally points) as (Htd & _ & _ & Hp & Hrl & Hev & _).
  rewrite <- elapsed_timeline.
  split; [rewrite Htd; apply progresses_elapsed|].
  split; [reflexivity|].
  split; [rewrite Hrl; apply stalls_elapsed|].
  split; [now rewrite Hev, Hrl, length_map|].
  rewrite Hp, Htd, existsb_filter_nonempty.
  split; intros Hne Hnil; apply Hne.
  - now destruct (filter progresses (observations points)).
  - now rewrite Hnil.
Qed.

Context {H : Host}.
Import TimestampAudit.

(** X8.  The sampling audit and the timestamp audit, run on the same
    points, agree: the positive deltas of the one are as many as the
    strictly increasing timestamps of the other; the pairs the one rejects
    (and logs) for a delta at or below zero are the duplicates and the
    backward timestamps of the other; time progresses exactly when some
    timestamp strictly increases; and timestamps are valid exactly when not
    every point is missing or unparsable. *)
Theorem auditSampling_agrees_with_auditTimestamps (points : list Point) :
  let m := auditTimestamps points in
  let r := auditSampling points in
  totalDeltaCount r = strictlyIncreasingCount m /\
  rejectedTimestampPairsDeltaLeqZero r
  = (duplicateTimestampCount m + backwardTimestampCount m)%nat /\
  length (nonPositiveTimeDeltaEvents r)
  = (length (duplicateTimestampEvents m) + length (backwardTimestampEvents m))%nat /\
  (hasTimeProgression r = true <-> (0 < strictlyIncreasingCount m)%nat) /\
  (hasValidTimestamps r = true <->
   (missingTimestampCount m + unparsableTimestampCount m < totalPointsChecked m)%nat).
Proof.
  cbv zeta.
  destruct (auditSampling_timeline points) as (Htd & Hn & Hrl & Hev & Hp).
  destruct (auditTimestamps_timeline points) as (Hd & Hb & Hi & _).
  destruct (auditTimestamps_spec points) as (Ht & Hmi & Hu & Hd' & Hb' & _ & _ & Hbl & Hdl).
  cbv zeta in *.
  assert (Hcount : totalDeltaCount (auditSampling points)
                   = strictlyIncreasingCount (auditTimestamps points)).
  { rewrite Hn, Htd, Hi. apply positive_steps_count. }
  assert (Hrej : rejectedTimestampPairsDeltaLeqZero (auditSampling points)
                 = (duplicateTimestampCount (auditTimestamps points)
                    + backwardTimestampCount (auditTimestamps points))%nat).
  { rewrite Hrl, Hd, Hb. apply nonpositive_steps_count. }
  split; [exact Hcount|]. split; [exact Hrej|]. split; [|split].
  - rewrite Hev, Hrej, Hbl, Hdl, !length_map, Hd', Hb'. reflexivity.
  - rewrite Hp, <- Hcount, Hn.
    destruct (timeDeltasMs (auditSampling points)); cbn [length].
    + split; [intros Hne; now elim Hne | lia].
    + split; [lia | discriminate].
  - change (hasValidTimestamps (auditSampling points)) with (presenceScan points).
    rewrite presenceScan_timeline, Ht, Hmi, Hu.
    pose proof (points_partition points) as Hpart.
    destruct (timeline points); cbn [length] in Hpart.
    + split; [intros Hne; now elim Hne | lia].
    + split; [lia | discriminate].
Qed.

End AuditsAgree.
(* ================================================================== *)
(** * The times shown in the logs *)
(* ================================================================== *)

(** [String(n).padStart(2, '0')] is the two decimal digits of [n], for
    [0 <= n < 60]. *)
Lemma padStart2_two_digits (n : Z) :
  (0 <= n < 60)%Z -> padStart2 (String_of_Z n) = twoDigits n.
Proof.
  intros Hn.
  assert (Hall : forallb (fun k => String.eqb (padStart2 (String_of_Z (Z.of_nat k)))
                                              (twoDigits (Z.of_nat k)))
                         (seq 0 60) = true) by (vm_compute; reflexivity).
  rewrite forallb_forall in Hall.
  specialize (Hall (Z.to_nat n)). rewrite Z2Nat.id in Hall by lia.
  apply String.eqb_eq, Hall, in_seq. lia.
Qed.

Lemma HH_MM_SS_length hours minutes seconds :
  String.length (HH_MM_SS hours minutes seconds) = 8%nat.
Proof. reflexivity. Qed.

Section FormatTime.
Context {E : Engine} {H : Host}.
Import TimestampAudit.

(** A parseable, non-empty string is shown as the local time of day of its
    time value, [HH:MM:SS]. *)
Lemma formatTime_parseable raw t :
  raw <> ""%string -> Date_parse raw = Some t ->
  formatTime (Some raw) = HH_MM_SS (getHours t) (getMinutes t) (getSeconds t).
Proof.
  intros Hne Ht. unfold formatTime.
  destruct raw as [|c raw]; [now elim Hne|].
  rewrite Ht. cbv zeta. unfold HH_MM_SS, getHours, getMinutes, getSeconds.
  rewrite !padStart2_two_digits; [reflexivity| | |];
    match goal with
    | |- (0 <= ?a mod ?b < 60)%Z => pose proof (Z.mod_pos_bound a b); lia
    end.
Qed.

(** X9.  On an engine where the empty string is no date (as on every
    engine in use), each time shown in the two logs is the local time of
    day of the parsed timestamp of its point, written [HH:MM:SS]: the hour
    from 0 to 23, the minute and the second from 0 to 59, two decimal
    digits each, colons between, eight characters.  [prevTime] is the time
    of the point at [prevIndex], [currTime] and [time] that of the point at
    [index]; no logged time is the empty string or a raw string shown for
    want of a date. *)
Theorem flagged_times_are_HH_MM_SS (points : list Point) :
  Date_parse ""%string = None ->
  let m := auditTimestamps points in
  Forall (fun e => (exists k, backwardPrevIndex e = Some k /\
                              showsTimeOf points k (prevTime e)) /\
                   showsTimeOf points (backwardIndex e) (currTime e))
         (backwardTimestampEvents m) /\
  Forall (fun e => showsTimeOf points (duplicateIndex e) (time e))
         (duplicateTimestampEvents m).
Proof.
  intros Hempty. cbv zeta. unfold showsTimeOf.
  destruct (auditTimestamps_spec points) as (_ & _ & _ & _ & _ & _ & _ & Hbl & Hdl).
  cbv zeta in *. rewrite Hbl, Hdl.
  assert (Hshow : forall point raw t k,
             nth_error points k = Some point -> timeRaw point = Some raw ->
             Date_parse raw = Some t ->
             exists point' raw' t',
               nth_error points k = Some point' /\ timeRaw point' = Some raw' /\
               Date_parse raw' = Some t' /\
               (0 <= getHours t' < 24)%Z /\ (0 <= getMinutes t' < 60)%Z /\
               (0 <= getSeconds t' < 60)%Z /\
               formatTime (Some raw)
               = HH_MM_SS (getHours t') (getMinutes t') (getSeconds t') /\
               String.length (formatTime (Some raw)) = 8%nat).
  { intros point raw t k Hk Hraw Ht. exists point, raw, t.
    assert (Hne : raw <> ""%string) by (intros ->; congruence).
    rewrite (formatTime_parseable raw t Hne Ht).
    unfold getHours, getMinutes, getSeconds.
    repeat split; try assumption; try apply Z.mod_pos_bound; lia. }
  assert (Hstamp : forall a b, In (a, b) (adjacentPairs (stamps points)) ->
             (exists p, nth_error points (stampIndex a) = Some p /\
                        timeRaw p = Some (stampRaw a)) /\
             Date_parse (stampRaw a) = Some (stampMs a) /\
             (exists q, nth_error points (stampIndex b) = Some q /\
                        timeRaw q = Some (stampRaw b)) /\
             Date_parse (stampRaw b) = Some (stampMs b)).
  { intros a b Hin. apply adjacent_stamps in Hin.
    destruct Hin as (pre & p & gap & q & post & -> & _ & Hp & Hpt & Hq & Hqt & Hi & Hj).
    repeat split; try assumption.
    - exists p. split; [|exact Hp].
      rewrite Hi, nth_error_app2, Nat.sub_diag by lia. reflexivity.
    - exists q. split; [|exact Hq].
      rewrite Hj, nth_error_app2 by lia.
      replace (length pre + 1 + length gap - length pre)%nat with (S (length gap)) by lia.
      cbn [nth_error]. rewrite nth_error_app2, Nat.sub_diag by lia. reflexivity. }
  split; apply Forall_forall; intros e He; apply in_map_iff in He;
    destruct He as ([a b] & <- & Hab); apply filter_In in Hab;
    destruct Hab as [Hab _];
    destruct (Hstamp a b Hab) as ((p & Hpk & Hp) & Hpt & (q & Hqk & Hq) & Hqt);
    unfold backwardEventOf, duplicateEventOf;
    cbn [fst snd prevTime currTime time backwardIndex backwardPrevIndex duplicateIndex].
  - split.
    + exists (stampIndex a). split; [reflexivity|]. exact (Hshow p _ _ _ Hpk Hp Hpt).
    + exact (Hshow q _ _ _ Hqk Hq Hqt).
  - exact (Hshow q _ _ _ Hqk Hq Hqt).
Qed.

End FormatTime.
(* ================================================================== *)
(** * The sampling auditor: events, flags and statistics *)
(* ================================================================== *)

(** What a timed observation holds: position, position of the timestamped
    point before, time elapsed. *)
Lemma stalled_events obs :
  map eventOf (filter stalls obs)
  = map (fun ike => mkEvent (fst (fst ike)) (snd (fst ike)) (snd ike))
        (filter (fun ike => negb (snd ike >? 0)%Z)
                (keepSome (fun o => match obsElapsed o with
                                    | Some (k, e) => Some (obsIndex o, k, e)
                                    | None => None
                                    end) obs)).
Proof.
  induction obs as [|o obs IH]; [reflexivity|].
  destruct o as [i d [[k e]|]]; unfold stalls, eventOf, elapsedOf in *;
    cbn [filter keepSome obsElapsed obsIndex fst snd].
  - destruct (e >? 0)%Z; cbn [negb map fst snd]; now rewrite IH.
  - exact IH.
Qed.

Section SamplingEvents.
Context {E : Engine}.
Import TimestampAudit.

Lemma observationsAfter_stamps rest :
  forall i prev pt pi anchor,
    match anchor with
    | Some a => pt = Some (stampMs a) /\ pi = Some (stampIndex a)
    | None => pt = None
    end ->
    keepSome (fun o => match obsElapsed o with
                       | Some (k, e) => Some (obsIndex o, k, e)
                       | None => None
                       end)
             (observationsAfter i prev pt pi rest)
    = map (fun ab => (stampIndex (snd ab), Some (stampIndex (fst ab)),
                      (stampMs (snd ab) - stampMs (fst ab))%Z))
          (segmentPairs anchor i rest).
Proof.
  induction rest as [|point rest IH]; intros i prev pt pi anchor Ha.
  - unfold segmentPairs. cbn [stampsFrom]. destruct anchor; reflexivity.
  - rewrite segmentPairs_cons, map_app. cbn [observationsAfter].
    unfold segmentPairs at 1, anchorAfter, parsedTimestamp. cbn [stampsFrom].
    destruct (timeRaw point) as [raw|] eqn:Hraw;
      [destruct (Date_parse raw) as [t|] eqn:Ht|].
    + cbn [rev app keepSome obsElapsed obsIndex].
      rewrite <- (IH (i + 1)%nat (lat point, lon point) (Some t) (Some i)
                     (Some (i, raw, t))) by (split; reflexivity).
      destruct anchor as [a|].
      * destruct Ha as [-> ->]. reflexivity.
      * subst pt. reflexivity.
    + cbn [rev app keepSome obsElapsed].
      rewrite <- (IH (i + 1)%nat (lat point, lon point) pt pi anchor Ha).
      destruct anchor; reflexivity.
    + cbn [rev app keepSome obsElapsed].
      rewrite <- (IH (i + 1)%nat (lat point, lon point) pt pi anchor Ha).
      destruct anchor; reflexivity.
Qed.

Lemma observations_stamps points :
  keepSome (fun o => match obsElapsed o with
                     | Some (k, e) => Some (obsIndex o, k, e)
                     | None => None
                     end)
           (observations points)
  = map (fun ab => (stampIndex (snd ab), Some (stampIndex (fst ab)),
                    (stampMs (snd ab) - stampMs (fst ab))%Z))
        (adjacentPairs (stamps points)).
Proof.
  destruct points as [|first rest]; [reflexivity|].
  unfold observations, stamps, parsedTimestamp. cbn [stampsFrom].
  destruct (timeRaw first) as [raw|]; [destruct (Date_parse raw) as [t|]|].
  - apply (observationsAfter_stamps rest 1 _ _ _ (Some (0%nat, raw, t))).
    split; reflexivity.
  - apply (observationsAfter_stamps rest 1 _ _ _ None). reflexivity.
  - apply (observationsAfter_stamps rest 1 _ _ _ None). reflexivity.
Qed.

(** Neighbours among the timestamped points, by what lies between them. *)
Lemma adjacent_stamps_parsed points a b :
  In (a, b) (adjacentPairs (stamps points)) <->
  exists pre p gap q post,
    points = pre ++ p :: gap ++ q :: post /\
    Forall (fun g => parsedTimestamp g = None) gap /\
    parsedTimestamp p = Some (stampMs a) /\ timeRaw p = Some (stampRaw a) /\
    parsedTimestamp q = Some (stampMs b) /\ timeRaw q = Some (stampRaw b) /\
    stampIndex a = length pre /\
    stampIndex b = (length pre + 1 + length gap)%nat.
Proof.
  rewrite adjacent_stamps. unfold parsedTimestamp. split.
  - intros (pre & p & gap & q & post & -> & Hgap & Hp & Hpt & Hq & Hqt & Hi & Hj).
    exists pre, p, gap, q, post. rewrite Hp, Hq. repeat split; auto.
  - intros (pre & p & gap & q & post & -> & Hgap & Hpt & Hp & Hqt & Hq & Hi & Hj).
    exists pre, p, gap, q, post. rewrite Hp in Hpt. rewrite Hq in Hqt.
    repeat split; auto.
Qed.

(** X10.  The log of non-positive time deltas of [auditSampling] is sound
    and complete: it holds an event exactly for each timestamped point [q]
    that is not later than the timestamped point [p] last before it (only
    untimestamped points lie between); the event carries the array
    positions of [q] and [p] and the delta, the time of [q] minus the time
    of [p]. *)
Theorem nonPositiveTimeDeltaEvents_sound_and_complete
        (points : list Point) (e : NonPositiveTimeDeltaEvent) :
  In e (nonPositiveTimeDeltaEvents (auditSampling points)) <->
  exists pre p gap q post tp tq,
    points = pre ++ p :: gap ++ q :: post /\
    Forall (fun g => parsedTimestamp g = None) gap /\
    parsedTimestamp p = Some tp /\ parsedTimestamp q = Some tq /\
    (tq <= tp)%Z /\
    e = mkEvent (length pre + 1 + length gap) (Some (length pre)) (tq - tp).
Proof.
  destruct (auditSampling_tally points) as (_ & _ & _ & _ & _ & Hev & _).
  rewrite Hev, stalled_events, observations_stamps, in_map_iff. split.
  - intros (ike & <- & Hin). apply filter_In in Hin. destruct Hin as [Hin Hle].
    apply in_map_iff in Hin. destruct Hin as ([a b] & <- & Hab).
    cbn [fst snd] in *.
    apply adjacent_stamps_parsed in Hab.
    destruct Hab as (pre & p & gap & q & post & -> & Hgap & Hp & _ & Hq & _ & Hi & Hj).
    exists pre, p, gap, q, post, (stampMs a), (stampMs b).
    repeat split; auto.
    + destruct (Z.gtb_spec (stampMs b - stampMs a) 0); [discriminate | lia].
    + congruence.
  - intros (pre & p & gap & q & post & tp & tq & -> & Hgap & Hp & Hq & Hle & ->).
    assert (Hraw : exists rawp rawq, timeRaw p = Some rawp /\ timeRaw q = Some rawq).
    { unfold parsedTimestamp in Hp, Hq.
      destruct (timeRaw p) as [rawp|]; [|discriminate].
      destruct (timeRaw q) as [rawq|]; [|discriminate]. eauto. }
    destruct Hraw as (rawp & rawq & Hrp & Hrq).
    exists ((length pre + 1 + length gap)%nat, Some (length pre), (tq - tp)%Z).
    split; [reflexivity|]. apply filter_In. split.
    + apply in_map_iff.
      exists ((length pre, rawp, tp), ((length pre + 1 + length gap)%nat, rawq, tq)).
      split; [reflexivity|].
      apply adjacent_stamps_parsed. exists pre, p, gap, q, post. repeat split; auto.
    + cbn [snd]. destruct (Z.gtb_spec (tq - tp) 0); [lia | reflexivity].
Qed.

(** X11.  The two flags: [hasValidTimestamps] says that some point has a
    parseable timestamp; [hasTimeProgression] says that some timestamped
    point is later than the timestamped point last before it, so it holds
    only when [hasValidTimestamps] does and at least two points are
    timestamped. *)
Theorem flags_of_auditSampling (points : list Point) :
  let r := auditSampling points in
  (hasValidTimestamps r = true <->
   exists p t, In p points /\ parsedTimestamp p = Some t) /\
  (hasTimeProgression r = true <->
   exists pre p gap q post tp tq,
     points = pre ++ p :: gap ++ q :: post /\
     Forall (fun g => parsedTimestamp g = None) gap /\
     parsedTimestamp p = Some tp /\ parsedTimestamp q = Some tq /\
     (tp < tq)%Z) /\
  (hasTimeProgression r = true ->
   hasValidTimestamps r = true /\ (2 <= length (timeline points))%nat).
Proof.
  cbv zeta.
  assert (Hvalid : hasValidTimestamps (auditSampling points) = true <->
                   exists p t, In p points /\ parsedTimestamp p = Some t).
  { change (hasValidTimestamps (auditSampling points)) with (presenceScan points).
    unfold presenceScan. rewrite existsb_exists. split.
    - intros (p & Hin & Hp). destruct (parsedTimestamp p) as [t|] eqn:Ht; [|discriminate].
      now exists p, t.
    - intros (p & t & Hin & Ht). exists p. now rewrite Ht. }
  assert (Hprog : hasTimeProgression (auditSampling points) = true <->
                  exists ab, In ab (adjacentPairs (stamps points)) /\
                             (stampMs (fst ab) < stampMs (snd ab))%Z).
  { destruct (auditSampling_timeline points) as (Htd & _ & _ & _ & Hp).
    cbv zeta in *. rewrite Hp, Htd, <- stamp_pairs_timeline, map_map. cbn [fst snd].
    split.
    - match goal with
      | |- ?l <> [] -> _ => destruct l as [|d ds] eqn:Hf; intros Hne; [now elim Hne|]
      end.
      assert (Hd : In d (d :: ds)) by now left.
      rewrite <- Hf in Hd. apply filter_In in Hd. destruct Hd as [Hd Hpos].
      apply in_map_iff in Hd. destruct Hd as (ab & <- & Hab).
      exists ab. split; [exact Hab|]. apply Z.gtb_lt in Hpos. lia.
    - intros (ab & Hab & Hlt) Hnil.
      assert (Hd : In (stampMs (snd ab) - stampMs (fst ab))%Z
                      (filter (fun d => (d >? 0)%Z)
                              (map (fun x => (stampMs (snd x) - stampMs (fst x))%Z)
                                   (adjacentPairs (stamps points))))).
      { apply filter_In. split.
        - apply in_map_iff. now exists ab.
        - apply Z.gtb_lt. lia. }
      rewrite Hnil in Hd. exact Hd. }
  split; [exact Hvalid|]. split.
  - rewrite Hprog. split.
    + intros ([a b] & Hab & Hlt). cbn [fst snd] in Hlt.
      apply adjacent_stamps_parsed in Hab.
      destruct Hab as (pre & p & gap & q & post & -> & Hgap & Hp & _ & Hq & _).
      now exists pre, p, gap, q, post, (stampMs a), (stampMs b).
    + intros (pre & p & gap & q & post & tp & tq & -> & Hgap & Hp & Hq & Hlt).
      assert (Hraw : exists rawp rawq, timeRaw p = Some rawp /\ timeRaw q = Some rawq).
      { unfold parsedTimestamp in Hp, Hq.
        destruct (timeRaw p) as [rawp|]; [|discriminate].
        destruct (timeRaw q) as [rawq|]; [|discriminate]. eauto. }
      destruct Hraw as (rawp & rawq & Hrp & Hrq).
      exists ((length pre, rawp, tp), ((length pre + 1 + length gap)%nat, rawq, tq)).
      split; [|exact Hlt].
      apply adjacent_stamps_parsed. exists pre, p, gap, q, post. repeat split; auto.
  - intros Hflag. apply Hprog in Hflag. destruct Hflag as ([a b] & Hab & _).
    assert (Hlen : (1 <= length (adjacentPairs (timeline points)))%nat).
    { rewrite <- stamp_pairs_timeline, length_map.
      destruct (adjacentPairs (stamps points)); [destruct Hab | cbn [length]; lia]. }
    rewrite adjacentPairs_length in Hlen.
    split; [|lia].
    change (hasValidTimestamps (auditSampling points)) with (presenceScan points).
    apply presenceScan_timeline. intros Hnil. rewrite Hnil in Hlen. cbn in Hlen. lia.
Qed.

End SamplingEvents.
(* ================================================================== *)
(** * The statistics of the time deltas *)
(* ================================================================== *)

Lemma insertAscending_perm x l : Permutation (x :: l) (insertAscending x l).
Proof.
  induction l as [|y l IH]; cbn [insertAscending]; [reflexivity|].
  destruct (x <=? y)%Z; [reflexivity|].
  rewrite perm_swap. now constructor.
Qed.

Lemma sortAscending_perm l : Permutation l (sortAscending l).
Proof.
  induction l as [|x l IH]; cbn [sortAscending fold_right]; [constructor|].
  fold (sortAscending l). rewrite <- insertAscending_perm. now constructor.
Qed.

Lemma insertAscending_sorted x l :
  StronglySorted Z.le l -> StronglySorted Z.le (insertAscending x l).
Proof.
  induction 1 as [|y l Hs IH Hall]; cbn [insertAscending].
  - repeat constructor.
  - destruct (Z.leb_spec x y).
    + constructor; [now constructor|].
      constructor; [assumption|].
      eapply Forall_impl; [|exact Hall]. intros z Hz. cbn beta in Hz. lia.
    + constructor; [exact IH|].
      apply Forall_forall. intros z Hz.
      apply (Permutation_in z (Permutation_sym (insertAscending_perm x l))) in Hz.
      destruct Hz as [<-|Hz]; [lia|].
      rewrite Forall_forall in Hall. now apply Hall.
Qed.

Lemma sortAscending_sorted l : StronglySorted Z.le (sortAscending l).
Proof.
  induction l as [|x l IH]; cbn [sortAscending fold_right]; [constructor|].
  now apply insertAscending_sorted.
Qed.

Lemma sorted_nth_le l :
  StronglySorted Z.le l ->
  forall i j, (i <= j < length l)%nat -> (nth i l 0 <= nth j l 0)%Z.
Proof.
  induction 1 as [|x l Hs IH Hall]; intros i j Hij; cbn [length] in Hij; [lia|].
  destruct i as [|i], j as [|j]; cbn [nth]; try lia.
  - rewrite Forall_forall in Hall. apply Hall, nth_In. lia.
  - apply IH. lia.
Qed.

Lemma Permutation_filter_length {A : Type} (f : A -> bool) (l l' : list A) :
  Permutation l l' -> length (filter f l) = length (filter f l').
Proof.
  induction 1 as [|x l l' _ IH|x y l|l l' l'' _ IH1 _ IH2]; cbn [filter].
  - reflexivity.
  - destruct (f x); cbn [length]; now rewrite IH.
  - destruct (f x), (f y); reflexivity.
  - now rewrite IH1.
Qed.

(** In a sorted list the element at position [k] has at least [k + 1]
    elements at or below it and at least [length - k] at or above it. *)
Lemma sorted_rank l :
  StronglySorted Z.le l ->
  forall k, (k < length l)%nat ->
    (k + 1 <= length (filter (fun d => (d <=? nth k l 0)%Z) l))%nat /\
    (length l - k <= length (filter (fun d => (nth k l 0 <=? d)%Z) l))%nat.
Proof.
  induction 1 as [|x l Hs IH Hall]; intros k Hk; cbn [length] in Hk; [lia|].
  rewrite Forall_forall in Hall.
  destruct k as [|k]; cbn [nth filter length].
  - rewrite Z.leb_refl. cbn [length]. split; [lia|].
    assert (Hfull : filter (fun d => (x <=? d)%Z) l = l).
    { apply forallb_filter_id, forallb_forall. intros d Hd. apply Z.leb_le. now apply Hall. }
    rewrite Hfull. lia.
  - assert (Hle : (x <= nth k l 0)%Z) by (apply Hall, nth_In; lia).
    destruct (IH k) as [Hlow Hhigh]; [lia|].
    destruct (Z.leb_spec x (nth k l 0%Z)); [|lia].
    destruct (nth k l 0 <=? x)%Z; cbn [length]; lia.
Qed.

Section Statistics.
Context {E : Engine}.
Local Open Scope float_scope.

Lemma timeDeltasMs_positive points :
  Forall (fun d => (0 < d)%Z) (timeDeltasMs (auditSampling points)).
Proof.
  destruct (auditSampling_timeline points) as (Htd & _). cbv zeta in Htd.
  rewrite Htd. apply Forall_forall. intros d Hd.
  apply filter_In in Hd. destruct Hd as [_ Hd]. now apply Z.gtb_lt in Hd.
Qed.

(** The statistics, read off the sorted deltas. *)
Lemma statistics_of_auditSampling points :
  let r := auditSampling points in
  let sortedDeltas := sortAscending (timeDeltasMs r) in
  totalDeltaCount r = length (timeDeltasMs r) /\
  (timeDeltasMs r = [] ->
   minDeltaMs r = None /\ maxDeltaMs r = None /\ medianDeltaMs r = None) /\
  (timeDeltasMs r <> [] ->
   minDeltaMs r = Some (nth 0 sortedDeltas 0%Z) /\
   maxDeltaMs r = Some (nth (length sortedDeltas - 1) sortedDeltas 0%Z) /\
   medianDeltaMs r = Some (medianOfSorted sortedDeltas)).
Proof.
  cbv zeta. unfold auditSampling.
  cbn [totalDeltaCount timeDeltasMs minDeltaMs maxDeltaMs medianDeltaMs].
  split; [reflexivity|].
  destruct (Primary.timeDeltasMs (primaryPass points)) as [|d ds].
  - split; [intros _; repeat split | intros Hne; now elim Hne].
  - split; [discriminate | intros _; repeat split].
Qed.

(** X12.  [minDeltaMs] and [maxDeltaMs] are [null] exactly when no time
    delta was collected; otherwise they are elements of [timeDeltasMs], the
    least and the greatest, and the least is positive.  [totalDeltaCount]
    is the length of the series. *)
Theorem minDeltaMs_and_maxDeltaMs_bound_the_series (points : list Point) :
  let r := auditSampling points in
  totalDeltaCount r = length (timeDeltasMs r) /\
  (timeDeltasMs r = [] ->
   minDeltaMs r = None /\ maxDeltaMs r = None /\ medianDeltaMs r = None) /\
  (timeDeltasMs r <> [] ->
   exists lo hi,
     minDeltaMs r = Some lo /\ maxDeltaMs r = Some hi /\ medianDeltaMs r <> None /\
     In lo (timeDeltasMs r) /\ In hi (timeDeltasMs r) /\ (0 < lo)%Z /\
     Forall (fun d => (lo <= d <= hi)%Z) (timeDeltasMs r)).
Proof.
  cbv zeta.
  destruct (statistics_of_auditSampling points) as (Hn & Hnone & Hsome). cbv zeta in *.
  split; [exact Hn|]. split; [exact Hnone|].
  intros Hne. destruct (Hsome Hne) as (Hmin & Hmax & Hmed).
  set (deltas := timeDeltasMs (auditSampling points)) in *.
  pose proof (sortAscending_perm deltas) as Hperm.
  pose proof (sortAscending_sorted deltas) as Hsorted.
  assert (Hlen : length (sortAscending deltas) = length deltas)
    by (symmetry; now apply Permutation_length).
  assert (Hpos : (0 < length deltas)%nat)
    by (destruct deltas; [now elim Hne | cbn [length]; lia]).
  assert (Hlo : In (nth 0 (sortAscending deltas) 0%Z) deltas).
  { apply (Permutation_in _ (Permutation_sym Hperm)), nth_In. lia. }
  exists (nth 0 (sortAscending deltas) 0%Z),
         (nth (length (sortAscending deltas) - 1) (sortAscending deltas) 0%Z).
  split; [exact Hmin|]. split; [exact Hmax|]. split; [now rewrite Hmed|].
  split; [exact Hlo|]. split; [|split].
  - apply (Permutation_in _ (Permutation_sym Hperm)), nth_In. lia.
  - pose proof (timeDeltasMs_positive points) as Hall. rewrite Forall_forall in Hall.
    now apply Hall.
  - apply Forall_forall. intros d Hd.
    apply (Permutation_in _ Hperm) in Hd.
    destruct (In_nth _ _ 0%Z Hd) as (k & Hk & <-).
    split; apply sorted_nth_le; auto; lia.
Qed.

(** X13.  [medianDeltaMs] is a median of the series.  For an odd number of
    deltas it is an element [d] of the series with more than half of the
    deltas at or below [d] and more than half at or above.  For an even
    number it is the mean, in double arithmetic, of two elements [a <= b]
    with at least half of the deltas at or below [a] and at least half at
    or above [b]. *)
Theorem medianDeltaMs_is_a_median (points : list Point) :
  let r := auditSampling points in
  let deltas := timeDeltasMs r in
  let atOrBelow x := length (filter (fun d => (d <=? x)%Z) deltas) in
  let atOrAbove x := length (filter (fun d => (x <=? d)%Z) deltas) in
  deltas <> [] ->
  if Nat.even (length deltas)
  then exists a b,
         medianDeltaMs r = Some ((Number_of_Z a + Number_of_Z b) / 2) /\
         In a deltas /\ In b deltas /\ (a <= b)%Z /\
         (length deltas <= 2 * atOrBelow a)%nat /\
         (length deltas <= 2 * atOrAbove b)%nat
  else exists d,
         medianDeltaMs r = Some (Number_of_Z d) /\
         In d deltas /\
         (length deltas < 2 * atOrBelow d)%nat /\
         (length deltas < 2 * atOrAbove d)%nat.
Proof.
  cbv zeta. intros Hne.
  destruct (statistics_of_auditSampling points) as (_ & _ & Hsome). cbv zeta in *.
  destruct (Hsome Hne) as (_ & _ & Hmed).
  set (deltas := timeDeltasMs (auditSampling points)) in *.
  pose proof (sortAscending_perm deltas) as Hperm.
  pose proof (sortAscending_sorted deltas) as Hsorted.
  assert (Hlen : length (sortAscending deltas) = length deltas)
    by (symmetry; now apply Permutation_length).
  assert (Hpos : (0 < length deltas)%nat)
    by (destruct deltas; [now elim Hne | cbn [length]; lia]).
  rewrite Hmed. unfold medianOfSorted. rewrite Hlen.
  pose proof (Nat.div_mod_eq (length deltas) 2) as Hdiv.
  pose proof (Nat.mod_upper_bound (length deltas) 2) as Hmod.
  set (mid := Nat.div (length deltas) 2) in *.
  assert (Hparity : Nat.even (length deltas) = Nat.eqb (Nat.modulo (length deltas) 2) 0).
  { rewrite Hdiv at 1. rewrite Nat.even_add, Nat.even_mul. cbn [Nat.even orb].
    destruct (Nat.modulo (length deltas) 2) as [|[|m]]; [reflexivity | reflexivity | lia]. }
  rewrite Hparity.
  destruct (Nat.eqb_spec (Nat.modulo (length deltas) 2) 0) as [Heven|Hodd].
  - exists (nth (mid - 1) (sortAscending deltas) 0%Z), (nth mid (sortAscending deltas) 0%Z).
    destruct (sorted_rank _ Hsorted (mid - 1)) as [Hlow _]; [lia|].
    destruct (sorted_rank _ Hsorted mid) as [_ Hhigh]; [lia|].
    rewrite <- (Permutation_filter_length _ _ _ Hperm) in Hlow.
    rewrite <- (Permutation_filter_length _ _ _ Hperm) in Hhigh.
    split; [reflexivity|]. split; [|split; [|split; [|split]]].
    + apply (Permutation_in _ (Permutation_sym Hperm)), nth_In. lia.
    + apply (Permutation_in _ (Permutation_sym Hperm)), nth_In. lia.
    + apply sorted_nth_le; auto; lia.
    + lia.
    + lia.
  - exists (nth mid (sortAscending deltas) 0%Z).
    destruct (sorted_rank _ Hsorted mid) as [Hlow Hhigh]; [lia|].
    rewrite <- (Permutation_filter_length _ _ _ Hperm) in Hlow.
    rewrite <- (Permutation_filter_length _ _ _ Hperm) in Hhigh.
    split; [reflexivity|]. split; [|split].
    + apply (Permutation_in _ (Permutation_sym Hperm)), nth_In. lia.
    + lia.
    + lia.
Qed.

End Statistics.
(* ================================================================== *)
(** * The counters of the joint pass *)
(* ================================================================== *)

Lemma disjoint_filters_length {A : Type} (keep reject : A -> bool) (l : list A) :
  (forall x, keep x = true -> reject x = false) ->
  (length (filter keep l) + length (filter reject l) <= length l)%nat.
Proof.
  intros Hdisjoint. induction l as [|x l IH]; [cbn; lia|].
  cbn [filter]. destruct (keep x) eqn:Hx.
  - rewrite (Hdisjoint x Hx). cbn [length]. lia.
  - destruct (reject x); cbn [length]; lia.
Qed.

Section JointCounters.
Context {E : Engine}.
Local Open Scope float_scope.

Lemma accepted_not_rejected pair :
  pairAccepted pair = true ->
  nonPositiveDt pair = false /\ invalidOrZeroDistance pair = false.
Proof.
  unfold pairAccepted, nonPositiveDt, invalidOrZeroDistance, gt, le, isFinite.
  intros Hacc. apply andb_prop in Hacc. destruct Hacc as [Hacc Hdd].
  apply andb_prop in Hacc. destruct Hacc as [Hdt Hfin].
  rewrite Hfin. cbn [negb orb]. split.
  - destruct (dtSec pair <=? 0) eqn:Hle; [|reflexivity].
    now rewrite (DoubleOrder.leb_not_ltb _ _ Hle) in Hdt.
  - destruct (ddMeters pair <=? 0) eqn:Hle; [|reflexivity].
    now rewrite (DoubleOrder.leb_not_ltb _ _ Hle) in Hdd.
Qed.

(** One iteration of the joint loop, with an anchor: the counters. *)
Lemma jointStep_counts_anchored s i point p0 t0 :
  Joint.prevPoint s = Some (lat p0, lon p0) ->
  Joint.prevTimestampMs s = Some t0 ->
  let s' := jointStep s i point in
  match parsedTimestamp point with
  | Some t =>
      let pair := pairOf ((p0, t0), (point, t)) in
      Joint.jointPairsWithBothTimestamps s' = S (Joint.jointPairsWithBothTimestamps s) /\
      Joint.jointRejectedMissingTimestamp s' = Joint.jointRejectedMissingTimestamp s /\
      Joint.jointRejectedNonPositiveDt s'
      = (Joint.jointRejectedNonPositiveDt s + length (filter nonPositiveDt [pair]))%nat /\
      Joint.jointRejectedInvalidOrZeroDistance s'
      = (Joint.jointRejectedInvalidOrZeroDistance s
         + length (filter invalidOrZeroDistance [pair]))%nat
  | None =>
      Joint.jointPairsWithBothTimestamps s' = Joint.jointPairsWithBothTimestamps s /\
      Joint.jointRejectedMissingTimestamp s' = S (Joint.jointRejectedMissingTimestamp s) /\
      Joint.jointRejectedNonPositiveDt s' = Joint.jointRejectedNonPositiveDt s /\
      Joint.jointRejectedInvalidOrZeroDistance s'
      = Joint.jointRejectedInvalidOrZeroDistance s
  end.
Proof.
  destruct s as [ps pp pt n1 n2 n3 n4 n5 n6]. simpl. intros -> ->.
  destruct (parsedTimestamp point) as [t|] eqn:Ht; cbv zeta.
  - pose proof (accepted_not_rejected (pairOf ((p0, t0), (point, t)))) as Hacc.
    revert Hacc.
    unfold jointStep, pairAccepted, nonPositiveDt, invalidOrZeroDistance, pairOf,
      distanceBetween.
    rewrite Ht.
    cbn -[Z.sub Number_of_Z haversineDistance gt le isFinite PrimFloat.div].
    set (dt := (Number_of_Z (t - t0) / 1000)%float).
    set (dd := haversineDistance (lat p0) (lon p0) (lat point) (lon point)).
    clearbody dt dd.
    destruct (gt dt 0 && isFinite dd && gt dd 0); cbn -[le isFinite]; intros Hacc.
    + destruct (Hacc eq_refl) as [-> ->]. cbn. repeat split; lia.
    + destruct (le dt 0); destruct (negb (isFinite dd) || le dd 0); cbn;
        repeat split; lia.
  - unfold jointStep. rewrite Ht. cbn. auto.
Qed.

Lemma jointStep_counts_unanchored s i point :
  Joint.prevPoint s = None ->
  Joint.prevTimestampMs s = None ->
  let s' := jointStep s i point in
  Joint.jointPairsWithBothTimestamps s' = Joint.jointPairsWithBothTimestamps s /\
  Joint.jointRejectedMissingTimestamp s' = Joint.jointRejectedMissingTimestamp s /\
  Joint.jointRejectedNonPositiveDt s' = Joint.jointRejectedNonPositiveDt s /\
  Joint.jointRejectedInvalidOrZeroDistance s' = Joint.jointRejectedInvalidOrZeroDistance s.
Proof.
  destruct s as [ps pp pt n1 n2 n3 n4 n5 n6]. simpl. intros -> ->.
  unfold jointStep. simpl.
  destruct (parsedTimestamp point) as [t|]; simpl; auto.
Qed.

Lemma jointLoop_counts_anchored rest :
  forall i s p0 t0,
    Joint.prevPoint s = Some (lat p0, lon p0) ->
    Joint.prevTimestampMs s = Some t0 ->
    let s' := forEachIndexed jointStep i rest s in
    let pairs := map pairOf (adjacentPairs ((p0, t0) :: timestampedPoints rest)) in
    Joint.jointPairsWithBothTimestamps s'
    = (Joint.jointPairsWithBothTimestamps s + length pairs)%nat /\
    Joint.jointRejectedMissingTimestamp s'
    = (Joint.jointRejectedMissingTimestamp s + length (filter untimestamped rest))%nat /\
    Joint.jointRejectedNonPositiveDt s'
    = (Joint.jointRejectedNonPositiveDt s + length (filter nonPositiveDt pairs))%nat /\
    Joint.jointRejectedInvalidOrZeroDistance s'
    = (Joint.jointRejectedInvalidOrZeroDistance s
       + length (filter invalidOrZeroDistance pairs))%nat.
Proof.
  induction rest as [|point rest IH]; intros i s p0 t0 Hp Ht; cbv zeta.
  - cbn. now rewrite !Nat.add_0_r.
  - cbn [forEachIndexed]. unfold timestampedPoints, untimestamped. cbn [keepSome filter].
    fold (timestampedPoints rest). fold untimestamped.
    pose proof (jointStep_anchored s i point p0 t0 Hp Ht) as Hanchor.
    pose proof (jointStep_counts_anchored s i point p0 t0 Hp Ht) as Hstep.
    cbv zeta in Hanchor, Hstep.
    destruct (parsedTimestamp point) as [t|].
    + destruct Hanchor as (_ & H2 & H3). destruct Hstep as (C1 & C2 & C3 & C4).
      destruct (IH (i + 1)%nat _ point t H2 H3) as (I1 & I2 & I3 & I4).
      rewrite I1, I2, I3, I4, C1, C2, C3, C4.
      rewrite adjacentPairs_cons2. cbn [map filter length].
      destruct (nonPositiveDt _), (invalidOrZeroDistance _); cbn [length]; repeat split; lia.
    + destruct Hanchor as (_ & H2 & H3). destruct Hstep as (C1 & C2 & C3 & C4).
      destruct (IH (i + 1)%nat _ p0 t0 H2 H3) as (I1 & I2 & I3 & I4).
      rewrite I1, I2, I3, I4, C1, C2, C3, C4. cbn [length].
      repeat split; lia.
Qed.

Lemma jointLoop_counts_unanchored rest :
  forall i s,
    Joint.prevPoint s = None ->
    Joint.prevTimestampMs s = None ->
    let s' := forEachIndexed jointStep i rest s in
    let pairs := map pairOf (adjacentPairs (timestampedPoints rest)) in
    Joint.jointPairsWithBothTimestamps s'
    = (Joint.jointPairsWithBothTimestamps s + length pairs)%nat /\
    Joint.jointRejectedMissingTimestamp s'
    = (Joint.jointRejectedMissingTimestamp s
       + length (filter untimestamped (afterFirstTimestamped rest)))%nat /\
    Joint.jointRejectedNonPositiveDt s'
    = (Joint.jointRejectedNonPositiveDt s + length (filter nonPositiveDt pairs))%nat /\
    Joint.jointRejectedInvalidOrZeroDistance s'
    = (Joint.jointRejectedInvalidOrZeroDistance s
       + length (filter invalidOrZeroDistance pairs))%nat.
Proof.
  induction rest as [|point rest IH]; intros i s Hp Ht; cbv zeta.
  - cbn. now rewrite !Nat.add_0_r.
  - cbn [forEachIndexed afterFirstTimestamped]. unfold timestampedPoints. cbn [keepSome].
    fold (timestampedPoints rest).
    pose proof (jointStep_unanchored s i point Hp Ht) as Hanchor.
    pose proof (jointStep_counts_unanchored s i point Hp Ht) as Hstep.
    cbv zeta in Hanchor, Hstep.
    destruct Hanchor as (_ & Hanchor). destruct Hstep as (C1 & C2 & C3 & C4).
    destruct (parsedTimestamp point) as [t|].
    + destruct Hanchor as (H2 & H3).
      destruct (jointLoop_counts_anchored rest (i + 1)%nat _ point t H2 H3)
        as (I1 & I2 & I3 & I4).
      rewrite I1, I2, I3, I4, C1, C2, C3, C4. repeat split; reflexivity.
    + destruct Hanchor as (H2 & H3).
      destruct (IH (i + 1)%nat _ H2 H3) as (I1 & I2 & I3 & I4).
      rewrite I1, I2, I3, I4, C1, C2, C3, C4. repeat split; reflexivity.
Qed.

(** X14.  The counters of the joint pass.  Under [hasTimeProgression] the
    pass pairs each timestamped point with the timestamped point last
    before it: [jointPairsWithBothTimestamps] counts these pairs, as many
    as the main loop stored or rejected time deltas;
    [jointRejectedMissingTimestamp] counts the untimestamped points that
    follow the first timestamped one; the two other counters count the
    pairs with [dtSec <= 0] and the pairs whose distance is not finite or
    is [<= 0] (a pair can be in both); the stored pairs are in neither.
    Without [hasTimeProgression] the pass does not run: all is zero. *)
Theorem joint_pass_counters (points : list Point) :
  let r := auditSampling points in
  let pairs := map pairOf (adjacentPairs (timestampedPoints points)) in
  if hasTimeProgression r then
    jointPairsWithBothTimestamps r = length pairs /\
    jointPairsWithBothTimestamps r
    = (totalDeltaCount r + rejectedTimestampPairsDeltaLeqZero r)%nat /\
    jointRejectedMissingTimestamp r
    = length (filter untimestamped (afterFirstTimestamped points)) /\
    jointRejectedNonPositiveDt r = length (filter nonPositiveDt pairs) /\
    jointRejectedInvalidOrZeroDistance r = length (filter invalidOrZeroDistance pairs) /\
    timeDistancePairs r = filter pairAccepted pairs /\
    Forall (fun pair => nonPositiveDt pair = false /\ invalidOrZeroDistance pair = false)
           (timeDistancePairs r) /\
    (length (timeDistancePairs r) + jointRejectedNonPositiveDt r
     <= jointPairsWithBothTimestamps r)%nat /\
    (length (timeDistancePairs r) + jointRejectedInvalidOrZeroDistance r
     <= jointPairsWithBothTimestamps r)%nat
  else
    jointPairsWithBothTimestamps r = 0%nat /\
    jointRejectedMissingTimestamp r = 0%nat /\
    jointRejectedNonPositiveDt r = 0%nat /\
    jointRejectedInvalidOrZeroDistance r = 0%nat /\
    timeDistancePairs r = [].
Proof.
  cbv zeta.
  destruct (auditSampling_timeline points) as (Htd & Hn & Hrl & _).
  cbv zeta in Htd, Hn, Hrl.
  assert (Hpairs : (totalDeltaCount (auditSampling points)
                    + rejectedTimestampPairsDeltaLeqZero (auditSampling points))%nat
                   = length (map pairOf (adjacentPairs (timestampedPoints points)))).
  { rewrite Hn, Htd, Hrl, filter_partition_length, !length_map, !adjacentPairs_length.
    now rewrite <- timestampedPoints_timeline, length_map. }
  revert Hpairs.
  unfold auditSampling.
  cbn [hasTimeProgression jointPairsWithBothTimestamps jointRejectedMissingTimestamp
       jointRejectedNonPositiveDt jointRejectedInvalidOrZeroDistance timeDistancePairs
       totalDeltaCount rejectedTimestampPairsDeltaLeqZero timeDeltasMs].
  unfold jointPass.
  destruct (Primary.hasTimeProgression (primaryPass points)); intros Hpairs;
    [|repeat split; reflexivity].
  destruct (jointLoop_counts_unanchored points 0 Joint.init eq_refl eq_refl)
    as (I1 & I2 & I3 & I4).
  cbv zeta in I1, I2, I3, I4. cbn [Joint.init Joint.jointPairsWithBothTimestamps
    Joint.jointRejectedMissingTimestamp Joint.jointRejectedNonPositiveDt
    Joint.jointRejectedInvalidOrZeroDistance Nat.add] in I1, I2, I3, I4.
  pose proof (jointLoop_unanchored points 0 Joint.init eq_refl eq_refl) as Hps.
  cbn [Joint.init Joint.timeDistancePairs app] in Hps.
  rewrite I1, I2, I3, I4, Hps.
  set (pairs := map pairOf (adjacentPairs (timestampedPoints points))) in *.
  pose proof (disjoint_filters_length pairAccepted) as Hdisjoint.
  split; [reflexivity|]. split; [now rewrite Hpairs|].
  split; [reflexivity|]. split; [reflexivity|]. split; [reflexivity|].
  split; [reflexivity|]. split; [|split].
  - apply Forall_forall. intros pair Hpair. apply filter_In in Hpair.
    now apply accepted_not_rejected.
  - apply Hdisjoint. intros pair Hacc. now apply accepted_not_rejected.
  - apply Hdisjoint. intros pair Hacc. now apply accepted_not_rejected.
Qed.

End JointCounters.
(* ================================================================== *)
(** * What each series of the sampling audit depends on *)
(* ================================================================== *)

Lemma Subsequence_filter_selected {A B : Type} (f : A -> B) (select : A -> bool)
      (keep : B -> bool) (l : list A) :
  Subsequence (filter keep (map f (filter select l))) (filter keep (map f l)).
Proof.
  induction l as [|x l IH]; [constructor|].
  cbn [filter map]. destruct (select x); cbn [map filter]; destruct (keep (f x));
    try (now constructor); exact IH.
Qed.

Lemma Subsequence_length {A : Type} (xs ys : list A) :
  Subsequence xs ys -> (length xs <= length ys)%nat.
Proof. induction 1; cbn [length]; lia. Qed.

Lemma Subsequence_In {A : Type} (xs ys : list A) :
  Subsequence xs ys -> forall x, In x xs -> In x ys.
Proof.
  induction 1 as [|y xs ys _ IH|y xs ys _ IH]; intros x Hx.
  - exact Hx.
  - destruct Hx as [<-|Hx]; [now left | right; now apply IH].
  - right. now apply IH.
Qed.

Section SeriesDependencies.
Context {E : Engine}.
Local Open Scope float_scope.

Lemma distances_of_coordinates points :
  map (fun pq => distanceBetween (fst pq) (snd pq)) (adjacentPairs points)
  = map (fun cc => haversineDistance (fst (fst cc)) (snd (fst cc))
                                     (fst (snd cc)) (snd (snd cc)))
        (adjacentPairs (coordinates points)).
Proof.
  unfold coordinates. rewrite adjacentPairs_map, map_map. reflexivity.
Qed.

(** X15.  The geometry-only series and its two counters depend on the
    coordinates only: two tracks with the same coordinates get the same
    series, whatever their timestamps. *)
Theorem geometry_only_series_ignores_timestamps (points points' : list Point) :
  coordinates points = coordinates points' ->
  let r := auditSampling points in
  let r' := auditSampling points' in
  distanceDeltasMGeometryOnly r = distanceDeltasMGeometryOnly r' /\
  consecutivePointPairsConsidered r = consecutivePointPairsConsidered r' /\
  rejectedDistanceInvalidOrZero r = rejectedDistanceInvalidOrZero r'.
Proof.
  intros Hsame. cbv zeta.
  destruct (auditSampling_tally points) as (_ & _ & Hgo & _ & _ & _ & Hcn & Hrd).
  destruct (auditSampling_tally points') as (_ & _ & Hgo' & _ & _ & _ & Hcn' & Hrd').
  cbv zeta in *.
  assert (Hd : map obsDistance (observations points)
               = map obsDistance (observations points')).
  { now rewrite !observations_distances, !distances_of_coordinates, Hsame. }
  rewrite Hgo, Hgo', Hrd, Hrd', Hcn, Hcn', Hd.
  repeat split; try reflexivity.
  now rewrite <- (length_map obsDistance (observations points)), Hd, length_map.
Qed.

(** X16.  The time series, its statistics, the two flags and the counter
    of rejected timestamp pairs depend on the sequence of parsed time
    values only: not on the coordinates, and not on where points without a
    usable timestamp lie. *)
Theorem time_series_depend_on_time_values_only (points points' : list Point) :
  timeline points = timeline points' ->
  let r := auditSampling points in
  let r' := auditSampling points' in
  timeDeltasMs r = timeDeltasMs r' /\
  totalDeltaCount r = totalDeltaCount r' /\
  minDeltaMs r = minDeltaMs r' /\
  maxDeltaMs r = maxDeltaMs r' /\
  medianDeltaMs r = medianDeltaMs r' /\
  hasTimeProgression r = hasTimeProgression r' /\
  hasValidTimestamps r = hasValidTimestamps r' /\
  rejectedTimestampPairsDeltaLeqZero r = rejectedTimestampPairsDeltaLeqZero r'.
Proof.
  intros Hsame. cbv zeta.
  destruct (auditSampling_timeline points) as (Htd & Hn & Hrl & _ & Hp).
  destruct (auditSampling_timeline points') as (Htd' & Hn' & Hrl' & _ & Hp').
  cbv zeta in *.
  assert (Hseries : timeDeltasMs (auditSampling points)
                    = timeDeltasMs (auditSampling points'))
    by now rewrite Htd, Htd', Hsame.
  assert (Hstats : forall pts,
             (minDeltaMs (auditSampling pts), maxDeltaMs (auditSampling pts),
              medianDeltaMs (auditSampling pts))
             = (if (0 <? length (timeDeltasMs (auditSampling pts)))%nat
                then (Some (nth 0 (sortAscending (timeDeltasMs (auditSampling pts))) 0%Z),
                      Some (nth (length (sortAscending (timeDeltasMs (auditSampling pts))) - 1)
                                (sortAscending (timeDeltasMs (auditSampling pts))) 0%Z),
                      Some (medianOfSorted (sortAscending (timeDeltasMs (auditSampling pts)))))
                else (None, None, None))).
  { intros pts. unfold auditSampling.
    cbn [minDeltaMs maxDeltaMs medianDeltaMs timeDeltasMs].
    destruct (0 <? length (Primary.timeDeltasMs (primaryPass pts)))%nat; reflexivity. }
  pose proof (Hstats points) as Hs. pose proof (Hstats points') as Hs'.
  rewrite Hseries in Hs. rewrite <- Hs' in Hs. injection Hs as Hmin Hmax Hmed.
  split; [exact Hseries|]. split; [now rewrite Hn, Hn', Hseries|].
  split; [exact Hmin|]. split; [exact Hmax|]. split; [exact Hmed|].
  split; [|split].
  - rewrite Hseries in Hp.
    destruct (hasTimeProgression (auditSampling points)),
             (hasTimeProgression (auditSampling points')); try reflexivity.
    + symmetry. apply Hp'. now apply Hp.
    + apply Hp. now apply Hp'.
  - change (presenceScan points = presenceScan points').
    pose proof (presenceScan_timeline points) as Hv.
    pose proof (presenceScan_timeline points') as Hv'.
    rewrite Hsame in Hv.
    destruct (presenceScan points), (presenceScan points'); try reflexivity.
    + symmetry. apply Hv'. now apply Hv.
    + apply Hv. now apply Hv'.
  - now rewrite Hrl, Hrl', Hsame.
Qed.

(** X17.  The time-conditioned series is the geometry-only series with
    some elements left out (those observed where time does not progress):
    it is a subsequence of it, so it is no longer and holds no other
    value. *)
Theorem time_conditioned_series_within_geometry_only (points : list Point) :
  let r := auditSampling points in
  Subsequence (distanceDeltasMTimeConditioned r) (distanceDeltasMGeometryOnly r) /\
  (length (distanceDeltasMTimeConditioned r)
   <= length (distanceDeltasMGeometryOnly r))%nat /\
  (forall d, In d (distanceDeltasMTimeConditioned r) ->
             In d (distanceDeltasMGeometryOnly r)) /\
  (length (distanceDeltasMTimeConditioned r) <= totalDeltaCount r)%nat.
Proof.
  cbv zeta.
  destruct (auditSampling_tally points) as (Htd & Htc & Hgo & _).
  assert (Hsub : Subsequence (distanceDeltasMTimeConditioned (auditSampling points))
                             (distanceDeltasMGeometryOnly (auditSampling points))).
  { rewrite Htc, Hgo. apply Subsequence_filter_selected. }
  split; [exact Hsub|]. split; [now apply Subsequence_length|].
  split; [now apply Subsequence_In|].
  change (totalDeltaCount (auditSampling points))
    with (length (timeDeltasMs (auditSampling points))).
  rewrite Htc, Htd, length_map.
  rewrite <- (length_map obsDistance (filter progresses (observations points))).
  apply filter_length_le.
Qed.

End SeriesDependencies.
(* ================================================================== *)
(** * The two revisions of the sampling auditor *)
(* ================================================================== *)

Section Revisions.
Context {E : Engine}.
Local Open Scope float_scope.

Lemma step_inStep hv s s' i point :
  inStep hv s s' ->
  (hv = false -> parsedTimestamp point = None) ->
  inStep hv (Earlier.step hv s i point) (primaryStep s' i point).
Proof.
  destruct s as [td dd pt pp], s' as [td' tc go pt' pp' hp n1 n2 n3 n4 ev n5 n6 pi].
  unfold inStep. cbn [Earlier.Loop.timeDeltasMs Earlier.Loop.previousTimestampMs
                      Earlier.Loop.previousPoint Earlier.Loop.distanceDeltasM
                      Primary.timeDeltasMs Primary.previousTimestampMs Primary.previousPoint
                      Primary.distanceDeltasMTimeConditioned
                      Primary.distanceDeltasMGeometryOnly].
  intros (<- & <- & <- & Hdd) Huntimed.
  unfold Earlier.step, Earlier.pushDistance, primaryStep.
  destruct (parsedTimestamp point) as [t|] eqn:Ht.
  - destruct hv; [|specialize (Huntimed eq_refl); discriminate]. subst dd.
    destruct pp as [prev|]; cbn -[Z.sub haversineDistance acceptedDistance];
      [destruct (acceptedDistance (haversineDistance (fst prev) (snd prev)
                                                     (lat point) (lon point))) eqn:Hacc|];
      cbn -[Z.sub haversineDistance acceptedDistance];
      (destruct pt as [t0|]; cbn -[Z.sub haversineDistance acceptedDistance];
       [destruct (t - t0 >? 0)%Z; cbn -[Z.sub haversineDistance acceptedDistance];
        rewrite ?Hacc; cbn -[Z.sub haversineDistance acceptedDistance]|]);
      repeat split; reflexivity.
  - subst dd.
    destruct pp as [prev|]; cbn -[haversineDistance acceptedDistance];
      [destruct (acceptedDistance (haversineDistance (fst prev) (snd prev)
                                                     (lat point) (lon point))) eqn:Hacc|];
      cbn -[haversineDistance acceptedDistance];
      destruct hv; cbn -[haversineDistance acceptedDistance];
      rewrite ?Hacc; cbn -[haversineDistance acceptedDistance];
      repeat split; reflexivity.
Qed.

Lemma loop_inStep hv rest :
  Forall (fun point => hv = false -> parsedTimestamp point = None) rest ->
  forall i s s',
    inStep hv s s' ->
    inStep hv (forEachIndexed (Earlier.step hv) i rest s)
           (forEachIndexed primaryStep i rest s').
Proof.
  induction 1 as [|point rest Hpoint _ IH]; intros i s s' Hin; [exact Hin|].
  cbn [forEachIndexed]. apply IH. now apply step_inStep.
Qed.

Lemma presenceScan_false points :
  presenceScan points = false ->
  Forall (fun point => parsedTimestamp point = None) points.
Proof.
  unfold presenceScan. induction points as [|point points IH]; [constructor|].
  cbn [existsb]. intros Hnone. apply orb_false_elim in Hnone. destruct Hnone as [Hp Hrest].
  constructor; [|now apply IH].
  destruct (parsedTimestamp point); [discriminate | reflexivity].
Qed.

(** X18.  The earlier and the current revision of [auditSampling] return
    the same time series and the same statistics.  The distance series of
    the earlier revision is the time-conditioned series when some timestamp
    parses and the geometry-only series otherwise, so it is the current
    [distanceDeltasM] except on tracks whose timestamps parse but never
    progress: there the earlier revision returns no distance at all and the
    current one the geometry-only series. *)
Theorem revisions_differ_only_without_time_progression (points : list Point) :
  let earlier := Earlier.auditSampling points in
  let current := auditSampling points in
  Earlier.timeDeltasMs earlier = timeDeltasMs current /\
  Earlier.totalDeltaCount earlier = totalDeltaCount current /\
  Earlier.minDeltaMs earlier = minDeltaMs current /\
  Earlier.maxDeltaMs earlier = maxDeltaMs current /\
  Earlier.medianDeltaMs earlier = medianDeltaMs current /\
  Earlier.distanceDeltasM earlier
  = (if hasValidTimestamps current then distanceDeltasMTimeConditioned current
     else distanceDeltasMGeometryOnly current) /\
  (hasValidTimestamps current = hasTimeProgression current ->
   Earlier.distanceDeltasM earlier = distanceDeltasM current) /\
  (hasValidTimestamps current = true -> hasTimeProgression current = false ->
   Earlier.distanceDeltasM earlier = [] /\
   distanceDeltasM current = distanceDeltasMGeometryOnly current).
Proof.
  cbv zeta.
  assert (Hloop : inStep (presenceScan points)
                         (forEachIndexed (Earlier.step (presenceScan points)) 0 points
                                         Earlier.Loop.init)
                         (primaryPass points)).
  { apply loop_inStep.
    - destruct (presenceScan points) eqn:Hv.
      + apply Forall_forall. intros point _ Hfalse. discriminate.
      + eapply Forall_impl; [|exact (presenceScan_false points Hv)].
        intros point Hpoint _. exact Hpoint.
    - unfold inStep. cbn. destruct (presenceScan points); auto. }
  destruct Hloop as (Htd & _ & _ & Hdd).
  assert (Hseries : Earlier.distanceDeltasM (Earlier.auditSampling points)
                    = if hasValidTimestamps (auditSampling points)
                      then distanceDeltasMTimeConditioned (auditSampling points)
                      else distanceDeltasMGeometryOnly (auditSampling points))
    by exact Hdd.
  assert (Hempty : hasTimeProgression (auditSampling points) = false ->
                   distanceDeltasMTimeConditioned (auditSampling points) = []).
  { intros Hflag.
    destruct (auditSampling_tally points) as (_ & Htc & _ & Hp & _).
    rewrite Htc. rewrite Hp in Hflag.
    destruct (filter progresses (observations points)) as [|o obs] eqn:Hf; [reflexivity|].
    assert (Hne : filter progresses (observations points) <> [])
      by (rewrite Hf; discriminate).
    apply existsb_filter_nonempty in Hne. congruence. }
  unfold Earlier.auditSampling, auditSampling in *.
  cbn [Earlier.timeDeltasMs Earlier.totalDeltaCount Earlier.minDeltaMs Earlier.maxDeltaMs
       Earlier.medianDeltaMs Earlier.distanceDeltasM
       timeDeltasMs totalDeltaCount minDeltaMs maxDeltaMs medianDeltaMs distanceDeltasM
       distanceDeltasMTimeConditioned distanceDeltasMGeometryOnly
       hasValidTimestamps hasTimeProgression] in *.
  rewrite Htd.
  split; [reflexivity|]. split; [reflexivity|]. split; [reflexivity|].
  split; [reflexivity|]. split; [reflexivity|]. split; [exact Hseries|]. split.
  - intros Hsame. rewrite Hseries, Hsame. reflexivity.
  - intros Hvalid Hflag. split.
    + rewrite Hseries, Hvalid. now apply Hempty.
    + now rewrite Hflag.
Qed.

End Revisions.
(* ================================================================== *)
(** * Peaks: what [detectPeaks] can and cannot return *)
(* ================================================================== *)

(** Of the indices from [a], [k] of them, at most every other one is kept
    when no two neighbours are. *)
Lemma isolated_count (keep : nat -> bool) :
  (forall i, keep i = true -> keep (S i) = false) ->
  forall k a,
    (2 * length (filter keep (seq a k)) <= k + 1)%nat /\
    (keep a = false -> 2 * length (filter keep (seq a k)) <= k)%nat.
Proof.
  intros Hiso. induction k as [|k IH]; intros a; cbn [seq filter].
  - cbn [length]. lia.
  - destruct (IH (S a)) as [Hall Hfree].
    destruct (keep a) eqn:Ha; cbn [length].
    + specialize (Hfree (Hiso a Ha)). split; [lia | discriminate].
    + split; [lia | intros _; lia].
Qed.

(** The loop of [detectPeaks] keeps the points at the peak indices. *)
Lemma detectPeaks_peakIndices kdePoints :
  detectPeaks kdePoints
  = map (fun i => nth i kdePoints undefinedKdePoint) (peakIndices kdePoints).
Proof.
  unfold detectPeaks, peakIndices.
  destruct (length kdePoints <? 3)%nat eqn:Hlen.
  - apply Nat.ltb_lt in Hlen.
    replace (length kdePoints - 1 - 1)%nat with 0%nat by lia. reflexivity.
  - rewrite fold_left_push_if
      with (f := fun i => let curr := nth i kdePoints undefinedKdePoint in
                          mkKdePoint (xLog curr) (xLinear curr) (y curr)).
    cbn [app]. apply map_ext. intros i. now destruct (nth i kdePoints undefinedKdePoint).
Qed.

Lemma isPeakAt_isolated kdePoints i :
  isPeakAt kdePoints i = true -> isPeakAt kdePoints (S i) = false.
Proof.
  unfold isPeakAt, gt. cbv zeta. intros Hi.
  apply andb_prop in Hi. destruct Hi as [_ Hnext].
  replace (S i - 1)%nat with i by lia. replace (i + 1)%nat with (S i) in Hnext by lia.
  now rewrite (DoubleOrder.ltb_asym _ _ Hnext).
Qed.

(** X19.  [detectPeaks] never returns two neighbouring points of the curve,
    so a curve of [m] points has at most [(m - 1) / 2] peaks; every peak is
    a point of the curve, away from both ends, and its density is not
    NaN. *)
Theorem detectPeaks_peaks_are_isolated (kdePoints : list KdePoint) :
  (forall i, In i (peakIndices kdePoints) -> ~ In (i + 1)%nat (peakIndices kdePoints)) /\
  (2 * length (detectPeaks kdePoints) <= length kdePoints - 1)%nat /\
  Forall (fun p => In p kdePoints /\ isNaN (y p) = false) (detectPeaks kdePoints) /\
  (forall p, In p (detectPeaks kdePoints) ->
             exists i, (1 <= i /\ i + 2 <= length kdePoints)%nat /\
                       nth_error kdePoints i = Some p).
Proof.
  assert (Hrange : forall i, In i (peakIndices kdePoints) ->
                     (1 <= i /\ i + 2 <= length kdePoints)%nat /\
                     isPeakAt kdePoints i = true).
  { intros i Hi. unfold peakIndices in Hi. apply filter_In in Hi.
    destruct Hi as [Hi Hpeak]. apply in_seq in Hi. split; [lia | exact Hpeak]. }
  split; [|split; [|split]].
  - intros i Hi Hnext. apply Hrange in Hi. apply Hrange in Hnext.
    destruct Hi as [_ Hi], Hnext as [_ Hnext].
    replace (i + 1)%nat with (S i) in Hnext by lia.
    now rewrite (isPeakAt_isolated _ _ Hi) in Hnext.
  - rewrite detectPeaks_peakIndices, length_map. unfold peakIndices.
    destruct (isolated_count (isPeakAt kdePoints) (isPeakAt_isolated kdePoints)
                             (length kdePoints - 1 - 1) 1) as [Hcount _].
    destruct (length kdePoints) as [|[|n]]; cbn [Nat.sub seq filter length] in *; lia.
  - rewrite detectPeaks_peakIndices. apply Forall_forall. intros p Hp.
    apply in_map_iff in Hp. destruct Hp as (i & <- & Hi).
    apply Hrange in Hi. destruct Hi as [Hi Hpeak]. split.
    + apply nth_In. lia.
    + unfold isPeakAt, gt in Hpeak. cbv zeta in Hpeak.
      apply andb_prop in Hpeak. destruct Hpeak as [Hprev _].
      unfold isNaN. destruct (is_nan (y (nth i kdePoints undefinedKdePoint))) eqn:Hnan;
        [|reflexivity].
      now rewrite (DoubleOrder.ltb_nan_r _ Hnan) in Hprev.
  - intros p Hp. rewrite detectPeaks_peakIndices in Hp.
    apply in_map_iff in Hp. destruct Hp as (i & <- & Hi).
    apply Hrange in Hi. destruct Hi as [Hi _].
    exists i. split; [exact Hi|]. apply nth_error_nth'. lia.
Qed.

(** A curve whose densities are all NaN, or all the same, has no peak. *)
Lemma detectPeaks_all_nan kdePoints :
  Forall (fun p => isNaN (y p) = true) kdePoints -> detectPeaks kdePoints = [].
Proof.
  intros Hall. rewrite detectPeaks_peakIndices. unfold peakIndices.
  replace (filter (isPeakAt kdePoints) (seq 1 (length kdePoints - 1 - 1))) with (@nil nat);
    [reflexivity|].
  symmetry.
  assert (Hin : forall i, In i (seq 1 (length kdePoints - 1 - 1)) ->
                          isPeakAt kdePoints i = false).
  { intros i Hi. apply in_seq in Hi. unfold isPeakAt, gt. cbv zeta.
    rewrite Forall_forall in Hall.
    assert (Hnan : isNaN (y (nth i kdePoints undefinedKdePoint)) = true)
      by (apply Hall, nth_In; lia).
    now rewrite (DoubleOrder.ltb_nan_r _ Hnan). }
  induction (seq 1 (length kdePoints - 1 - 1)) as [|i l IH]; [reflexivity|].
  cbn [filter]. rewrite (Hin i) by now left. apply IH.
  intros j Hj. apply Hin. now right.
Qed.

Lemma detectPeaks_constant p n : detectPeaks (repeat p n) = [].
Proof.
  rewrite detectPeaks_peakIndices. unfold peakIndices.
  replace (filter (isPeakAt (repeat p n)) (seq 1 (length (repeat p n) - 1 - 1)))
    with (@nil nat); [reflexivity|].
  symmetry.
  assert (Hin : forall i, In i (seq 1 (length (repeat p n) - 1 - 1)) ->
                          isPeakAt (repeat p n) i = false).
  { intros i Hi. apply in_seq in Hi. rewrite repeat_length in Hi.
    unfold isPeakAt, gt. cbv zeta.
    assert (Hnth : forall j, (j < n)%nat -> nth j (repeat p n) undefinedKdePoint = p).
    { intros j Hj. apply (repeat_spec n p). apply nth_In. now rewrite repeat_length. }
    rewrite (Hnth i), (Hnth (i - 1)%nat) by lia.
    now rewrite DoubleOrder.ltb_irrefl. }
  induction (seq 1 (length (repeat p n) - 1 - 1)) as [|i l IH]; [reflexivity|].
  cbn [filter]. rewrite (Hin i) by now left. apply IH.
  intros j Hj. apply Hin. now right.
Qed.

Section DegenerateCurves.
Context {E : Engine}.
Local Open Scope float_scope.
Import DoubleFacts.

(** X20.  Where the density curve is degenerate no peak is reported.
    [computeKDE], and with it [detectPeaks(computeKDE(...))], throws a
    [RangeError] exactly when values are kept and the engine does not take
    them as arguments.  Otherwise the peaks are none with a zero bandwidth
    (every density is NaN), as when the bandwidth is the logarithm of 1,
    with fewer than three grid points, and with no positive finite datum
    (the curve is empty). *)
Theorem no_peak_on_degenerate_curves
        (data : list float) (h : float) (numPoints : nat) :
  let kept := filter validDatum data in
  let refused := kept <> [] /\ acceptsArguments (length kept) = false in
  (refused <-> computeKDE data h numPoints = Throw RangeError) /\
  (refused <-> peaksOfKDE data h numPoints = Throw RangeError) /\
  (~ refused -> is_zero h = true ->
   exists curve,
     computeKDE data h numPoints = Normal curve /\
     Forall (fun p => isNaN (y p) = true) curve /\
     peaksOfKDE data h numPoints = Normal []) /\
  is_zero (Math_log 1) = true /\
  (~ refused -> (numPoints <= 2)%nat -> peaksOfKDE data h numPoints = Normal []) /\
  ((forall d, In d data -> validDatum d = false) ->
   computeKDE data h numPoints = Normal [] /\ peaksOfKDE data h numPoints = Normal []).
Proof.
  cbv zeta. unfold peaksOfKDE. rewrite computeKDE_outcome.
  destruct (filter validDatum data) as [|d kept] eqn:Hkept; cbn [length Nat.eqb andThen].
  - assert (Hno : ~ (@nil float <> [] /\ acceptsArguments 0 = false))
      by (intros [Hne _]; now elim Hne).
    split; [split; [intros Hr; now elim Hno | discriminate]|].
    split; [split; [intros Hr; now elim Hno | discriminate]|].
    split; [intros _ _; exists []; repeat split; constructor|].
    split; [reflexivity|].
    split; [intros _ _; reflexivity|].
    intros _. split; reflexivity.
  - destruct (acceptsArguments (S (length kept))) eqn:Hfits; cbn [andThen].
    + split; [split; [intros [_ Hr]; discriminate Hr | discriminate]|].
      split; [split; [intros [_ Hr]; discriminate Hr | discriminate]|].
      split.
      { intros _ Hh. exists (curveOf data h numPoints).
        split; [reflexivity|].
        split; [now apply curveOf_zero_bandwidth|].
        f_equal. now apply detectPeaks_all_nan, curveOf_zero_bandwidth. }
      split; [reflexivity|].
      split.
      { intros _ Hn. f_equal. unfold detectPeaks.
        replace (length (curveOf data h numPoints) <? 3)%nat with true; [reflexivity|].
        symmetry. apply Nat.ltb_lt. rewrite length_curveOf. lia. }
      intros Hnone. apply no_valid_datum in Hnone. congruence.
    + assert (Hyes : d :: kept <> [] /\ false = false) by (split; [discriminate | reflexivity]).
      split; [split; [reflexivity | intros _; exact Hyes]|].
      split; [split; [reflexivity | intros _; exact Hyes]|].
      split; [intros Hr; now elim Hr|].
      split; [reflexivity|].
      split; [intros Hr; now elim Hr|].
      intros Hnone. apply no_valid_datum in Hnone. congruence.
Qed.

End DegenerateCurves.
(* ================================================================== *)
(** * A series with one value: the grid collapses *)
(* ================================================================== *)

Lemma all_equal_repeat {A : Type} (v : A) (l : list A) :
  (forall x, In x l -> x = v) -> l = repeat v (length l).
Proof.
  induction l as [|x l IH]; intros Hall; [reflexivity|].
  cbn [length repeat]. rewrite (Hall x) by now left.
  f_equal. apply IH. intros x' Hx'. apply Hall. now right.
Qed.

Lemma map_constant {A B : Type} (f : A -> B) (b : B) (l : list A) :
  (forall x, In x l -> f x = b) -> map f l = repeat b (length l).
Proof.
  intros Hall. rewrite (all_equal_repeat b (map f l)); [now rewrite length_map|].
  intros y Hy. apply in_map_iff in Hy. destruct Hy as (x & <- & Hx). now apply Hall.
Qed.

Section ConstantSeries.
Local Open Scope float_scope.

Lemma existsb_is_nan_repeat L n : is_nan L = false -> existsb is_nan (repeat L n) = false.
Proof.
  intros HL. induction n as [|n IH]; [reflexivity|].
  cbn [repeat existsb]. now rewrite HL, IH.
Qed.

(** [Math.min] and [Math.max] of copies of one finite number. *)
Lemma Math_min_constant L n : is_finite L = true -> Math_min (repeat L (S n)) = L.
Proof.
  intros HL. unfold Math_min.
  rewrite (existsb_is_nan_repeat L (S n) (DoubleOrder.finite_not_nan L HL)).
  cbn [repeat fold_left].
  change (is_pos_zero infinity) with false.
  rewrite andb_false_r, (DoubleOrder.finite_below_infinity L HL).
  induction n as [|n IH]; [reflexivity|].
  cbn [repeat fold_left]. rewrite DoubleOrder.ltb_irrefl.
  replace (is_neg_zero L && is_pos_zero L) with false; [exact IH|].
  unfold is_neg_zero, is_pos_zero. now destruct (is_zero L), (get_sign L).
Qed.

Lemma Math_max_constant L n : is_finite L = true -> Math_max (repeat L (S n)) = L.
Proof.
  intros HL. unfold Math_max.
  rewrite (existsb_is_nan_repeat L (S n) (DoubleOrder.finite_not_nan L HL)).
  cbn [repeat fold_left].
  change (is_neg_zero neg_infinity) with false.
  rewrite andb_false_r, (DoubleOrder.finite_above_neg_infinity L HL).
  induction n as [|n IH]; [reflexivity|].
  cbn [repeat fold_left]. rewrite DoubleOrder.ltb_irrefl.
  replace (is_pos_zero L && is_neg_zero L) with false; [exact IH|].
  unfold is_neg_zero, is_pos_zero. now destruct (is_zero L), (get_sign L).
Qed.

(** On the default grid of 200 points every fraction [i / 199] times [+0]
    is [+0]. *)
Lemma default_grid_fraction i :
  (i < 200)%nat -> 0 * (Number_of_nat i / (Number_of_nat 200 - 1)) = 0.
Proof.
  intros Hi. do 200 (destruct i as [|i]; [reflexivity|]). lia.
Qed.

Context {E : Engine}.

(** X21.  When all positive finite values of the series are one value [v]
    (a track sampled at a constant interval), minimum and maximum of the
    logarithms coincide.  On an engine that takes the kept values as
    arguments the default grid of 200 points collapses: every grid point
    is the same point, at the logarithm of [v], and no peak is reported,
    whatever the bandwidth; on an engine that does not, the call throws a
    [RangeError]. *)
Theorem computeKDE_constant_series_is_flat (data : list float) (v h : float) :
  In v data ->
  validDatum v = true ->
  (forall d, In d data -> validDatum d = true -> d = v) ->
  is_finite (Math_log v) = true ->
  Math_min (validDataLogOf data) = Math_log v /\
  Math_max (validDataLogOf data) = Math_log v /\
  (acceptsArguments (length (filter validDatum data)) = false ->
   computeKDE data h 200 = Throw RangeError /\
   peaksOfKDE data h 200 = Throw RangeError) /\
  (acceptsArguments (length (filter validDatum data)) = true ->
   (exists p,
       computeKDE data h 200 = Normal (repeat p 200) /\
       xLog p = Math_log v + 0 /\
       xLinear p = Math_exp (Math_log v + 0)) /\
   peaksOfKDE data h 200 = Normal []).
Proof.
  intros Hin Hv Hall Hfin.
  assert (Hsome : exists d, In d data /\ validDatum d = true) by (exists v; auto).
  assert (Hlogs : exists n, validDataLogOf data = repeat (Math_log v) (S n)).
  { unfold validDataLogOf.
    rewrite (all_equal_repeat v (filter validDatum data)).
    - rewrite map_repeat.
      destruct (length (filter validDatum data)) as [|n] eqn:Hlen; [|now exists n].
      apply some_valid_datum in Hsome. rewrite Hlen in Hsome. discriminate.
    - intros d Hd. apply filter_In in Hd. now apply Hall. }
  destruct Hlogs as [n Hlogs].
  assert (Hmin : Math_min (validDataLogOf data) = Math_log v)
    by (rewrite Hlogs; now apply Math_min_constant).
  assert (Hmax : Math_max (validDataLogOf data) = Math_log v)
    by (rewrite Hlogs; now apply Math_max_constant).
  set (p := kdePointAt (validDataLogOf data) (Math_log v) (Math_log v) h
                       (normalizationOf data h) 200 0).
  assert (Hcurve : curveOf data h 200 = repeat p 200).
  { unfold curveOf. rewrite Hmin, Hmax.
    replace (repeat p 200) with (repeat p (length (seq 0 200)))
      by now rewrite length_seq.
    apply map_constant.
    intros i Hi. apply in_seq in Hi. subst p. unfold kdePointAt.
    rewrite (DoubleOrder.sub_diag_finite _ Hfin).
    rewrite (default_grid_fraction i), (default_grid_fraction 0) by lia.
    reflexivity. }
  split; [exact Hmin|]. split; [exact Hmax|]. split.
  - intros Hfits. unfold peaksOfKDE.
    rewrite (computeKDE_refused data h 200 Hsome Hfits). split; reflexivity.
  - intros Hfits. unfold peaksOfKDE.
    rewrite (computeKDE_some_valid data h 200 Hsome Hfits), Hcurve. split.
    + exists p. split; [reflexivity|]. subst p. unfold kdePointAt. cbn [xLog xLinear].
      rewrite (DoubleOrder.sub_diag_finite _ Hfin), (default_grid_fraction 0) by lia.
      split; reflexivity.
    + cbn [andThen]. f_equal. apply detectPeaks_constant.
Qed.

End ConstantSeries.
(* ================================================================== *)
(** * Ingestion: what [parsePointElement] and [parseGPX] return *)
(* ================================================================== *)

Section IngestionFacts.
Context {B : Ingestion.Browser}.
Import Ingestion.
Local Open Scope float_scope.

Lemma parsePointElement_valid el i ty :
  valid (parsePointElement el i ty) = accepted el.
Proof.
  unfold parsePointElement, accepted. cbv zeta.
  destruct (isNaN (parseFloatOf (attrLat el)) || isNaN (parseFloatOf (attrLon el)));
    [reflexivity|].
  destruct (negb (isFinite (parseFloatOf (attrLat el)))
            || negb (isFinite (parseFloatOf (attrLon el)))
            || outOfRange (parseFloatOf (attrLat el)) (parseFloatOf (attrLon el)));
    reflexivity.
Qed.

Lemma parsePointElement_point el i ty :
  match point (parsePointElement el i ty) with
  | Some p => accepted el = true /\ index p = i /\ pointType p = ty
  | None => accepted el = false
  end.
Proof.
  unfold parsePointElement, accepted. cbv zeta.
  destruct (isNaN (parseFloatOf (attrLat el)) || isNaN (parseFloatOf (attrLon el)));
    [reflexivity|].
  destruct (negb (isFinite (parseFloatOf (attrLat el)))
            || negb (isFinite (parseFloatOf (attrLon el)))
            || outOfRange (parseFloatOf (attrLat el)) (parseFloatOf (attrLon el)));
    cbn; auto.
Qed.

(** X22.  [parsePointElement] accepts an element exactly when both
    coordinates parse to finite numbers with [-90 <= lat <= 90] and
    [-180 <= lon <= 180].  An accepted point carries the index and type it
    was given, an elevation that is a number or [null], never NaN, a
    [timeRaw] that is the trimmed text of [time] or [null], never the empty
    string, and the [extensions] node as found.  A rejected element gives
    no point, but a reason and its raw data. *)
Theorem parsePointElement_accepts_valid_coordinates
        (pointElement : PointElement Node) (i : nat) (ty : PointType) :
  let o := parsePointElement pointElement i ty in
  let latitude := parseFloatOf (attrLat pointElement) in
  let longitude := parseFloatOf (attrLon pointElement) in
  (valid o = true <->
   isFinite latitude = true /\ isFinite longitude = true /\
   le (-90) latitude = true /\ le latitude 90 = true /\
   le (-180) longitude = true /\ le longitude 180 = true) /\
  (valid o = true ->
   exists p,
     point o = Some p /\ rejectionReason o = None /\ rawData o = None /\
     index p = i /\ pointType p = ty /\ lat p = latitude /\ lon p = longitude /\
     (forall e, ele p = Some e -> isNaN e = false) /\
     timeRaw p <> Some ""%string /\
     (timeRaw p = None <->
      timeText pointElement = None \/
      exists text, timeText pointElement = Some text /\ trim text = ""%string) /\
     (forall t, timeRaw p = Some t ->
                exists text, timeText pointElement = Some text /\ t = trim text) /\
     extensions p = extensionsNode pointElement) /\
  (valid o = false ->
   point o = None /\ rejectionReason o <> None /\
   rawData o = Some (mkRawData ty i (attrLat pointElement) (attrLon pointElement)
                               (eleText pointElement)
                               (option_map trim (timeText pointElement)))).
Proof.
  cbv zeta.
  set (latitude := parseFloatOf (attrLat pointElement)).
  set (longitude := parseFloatOf (attrLon pointElement)).
  split; [|split].
  - rewrite parsePointElement_valid. unfold accepted, outOfRange, isNaN, isFinite, gt, le.
    cbv zeta. fold latitude longitude.
    split.
    + intros Hacc. apply andb_prop in Hacc. destruct Hacc as [Hnan Hrange].
      apply negb_true_iff, orb_false_elim in Hnan. destruct Hnan as [Hlat Hlon].
      apply negb_true_iff, orb_false_elim in Hrange. destruct Hrange as [Hfin Hout].
      apply orb_false_elim in Hfin. destruct Hfin as [Hflat Hflon].
      apply negb_false_iff in Hflat, Hflon.
      apply orb_false_elim in Hout. destruct Hout as [Hout H4].
      apply orb_false_elim in Hout. destruct Hout as [Hout H3].
      apply orb_false_elim in Hout. destruct Hout as [H1 H2].
      repeat split; try assumption; apply DoubleOrder.not_ltb_leb; auto.
    + intros (Hflat & Hflon & H1 & H2 & H3 & H4).
      rewrite (DoubleOrder.finite_not_nan _ Hflat), (DoubleOrder.finite_not_nan _ Hflon).
      rewrite Hflat, Hflon.
      rewrite (DoubleOrder.leb_not_ltb _ _ H1), (DoubleOrder.leb_not_ltb _ _ H2).
      rewrite (DoubleOrder.leb_not_ltb _ _ H3), (DoubleOrder.leb_not_ltb _ _ H4).
      reflexivity.
  - unfold parsePointElement. cbv zeta. fold latitude longitude.
    destruct (isNaN latitude || isNaN longitude); [discriminate|].
    destruct (negb (isFinite latitude) || negb (isFinite longitude)
              || outOfRange latitude longitude); [discriminate|].
    intros _. eexists. split; [reflexivity|].
    cbn [rejectionReason rawData index pointType lat lon ele timeRaw extensions].
    repeat split.
    + intros e. destruct (eleText pointElement) as [text|]; cbn [option_map]; [|discriminate].
      destruct (isNaN (parseFloat text)) eqn:Hnan; cbn [negb]; [discriminate|].
      intros He. injection He as <-. exact Hnan.
    + destruct (timeText pointElement) as [text|]; [|discriminate].
      destruct (String.eqb_spec (trim text) ""%string) as [Heq|Hne]; [discriminate|].
      intros Ht. injection Ht as Ht. contradiction.
    + destruct (timeText pointElement) as [text|]; [|now left].
      destruct (String.eqb_spec (trim text) ""%string) as [Heq|Hne]; [|discriminate].
      intros _. right. now exists text.
    + intros [Hnone|(text & Htext & Hblank)]; rewrite ?Hnone, ?Htext; [reflexivity|].
      rewrite Hblank. reflexivity.
    + intros t. destruct (timeText pointElement) as [text|]; [|discriminate].
      destruct (String.eqb (trim text) ""%string); [discriminate|].
      intros Ht. injection Ht as <-. now exists text.
  - unfold parsePointElement. cbv zeta. fold latitude longitude.
    destruct (isNaN latitude || isNaN longitude);
      [intros _; repeat split; discriminate|].
    destruct (negb (isFinite latitude) || negb (isFinite longitude)
              || outOfRange latitude longitude);
      [intros _; repeat split; discriminate | discriminate].
Qed.

(** ** The loop of [parseGPX] *)

Lemma parseFrom_app l1 l2 :
  forall k, parseFrom k (l1 ++ l2) = parseFrom k l1 ++ parseFrom (k + length l1) l2.
Proof.
  induction l1 as [|[ty el] l1 IH]; intros k.
  - cbn [app parseFrom length]. now rewrite Nat.add_0_r.
  - cbn [app parseFrom length]. rewrite IH.
    replace (k + 1 + length l1)%nat with (k + S (length l1))%nat by lia.
    destruct (point (parsePointElement el k ty)); reflexivity.
Qed.

Lemma firstRejected_app l1 l2 :
  forall k,
    firstRejected k (l1 ++ l2)
    = match firstRejected k l1 with
      | Some o => Some o
      | None => firstRejected (k + length l1) l2
      end.
Proof.
  induction l1 as [|[ty el] l1 IH]; intros k.
  - cbn [app firstRejected length]. now rewrite Nat.add_0_r.
  - cbn [app firstRejected length]. rewrite IH.
    replace (k + 1 + length l1)%nat with (k + S (length l1))%nat by lia.
    destruct (accepted el); reflexivity.
Qed.

Lemma firstRejected_none l :
  forall k, existsb rejected l = false -> firstRejected k l = None.
Proof.
  induction l as [|[ty el] l IH]; intros k; [reflexivity|].
  unfold rejected at 1. cbn [existsb firstRejected snd]. intros Hnone.
  apply orb_false_elim in Hnone. destruct Hnone as [Hacc Hrest].
  apply negb_false_iff in Hacc. rewrite Hacc. now apply IH.
Qed.

Lemma firstRejected_some l :
  forall k, existsb rejected l = true -> firstRejected k l <> None.
Proof.
  induction l as [|[ty el] l IH]; intros k; [discriminate|].
  unfold rejected at 1. cbn [existsb firstRejected snd].
  destruct (accepted el); cbn [negb orb]; [apply IH | discriminate].
Qed.

Lemma logLines_first k l next :
  logLines (firstRejected k l) ++ (if existsb rejected l then [] else logLines next)
  = logLines (match firstRejected k l with
              | Some o => Some o
              | None => next
              end).
Proof.
  destruct (existsb rejected l) eqn:He.
  - pose proof (firstRejected_some l k He) as Hsome.
    destruct (firstRejected k l) as [o|] eqn:Hf; [|congruence].
    now rewrite app_nil_r.
  - now rewrite (firstRejected_none l k He).
Qed.

(** One element. *)
Lemma processPoint_spec ty s el :
  let s' := processPoint ty s el in
  collected s' = collected s ++ parseFrom (globalIndex s) [(ty, el)] /\
  globalIndex s' = (globalIndex s + 1)%nat /\
  total s' = total s /\
  discarded s' = (discarded s + length (filter rejected [(ty, el)]))%nat /\
  firstRejectionLogged s' = firstRejectionLogged s || existsb rejected [(ty, el)] /\
  console s' = console s ++ (if firstRejectionLogged s then []
                             else logLines (firstRejected (globalIndex s) [(ty, el)])).
Proof.
  destruct s as [ps k n d logged out].
  unfold processPoint, rejected. cbv zeta.
  cbn [collected globalIndex total discarded firstRejectionLogged console
       parseFrom firstRejected filter existsb snd].
  rewrite parsePointElement_valid.
  pose proof (parsePointElement_point el k ty) as Hpoint.
  destruct (point (parsePointElement el k ty)) as [p|].
  - destruct Hpoint as (Hacc & _). rewrite Hacc.
    cbn. rewrite ?Nat.add_0_r, ?orb_false_r, ?app_nil_r.
    destruct logged; rewrite ?app_nil_r; repeat split; reflexivity.
  - rewrite Hpoint. cbn. rewrite ?app_nil_r, ?orb_true_r.
    destruct logged; cbn; rewrite ?app_nil_r; repeat split; reflexivity.
Qed.

(** A run of elements of one type. *)
Lemma processPoints_spec ty els :
  forall s,
    let s' := fold_left (processPoint ty) els s in
    let elements := map (pair ty) els in
    collected s' = collected s ++ parseFrom (globalIndex s) elements /\
    globalIndex s' = (globalIndex s + length elements)%nat /\
    total s' = total s /\
    discarded s' = (discarded s + length (filter rejected elements))%nat /\
    firstRejectionLogged s' = firstRejectionLogged s || existsb rejected elements /\
    console s' = console s ++ (if firstRejectionLogged s then []
                               else logLines (firstRejected (globalIndex s) elements)).
Proof.
  induction els as [|el els IH]; intros s; cbv zeta.
  - cbn. rewrite ?app_nil_r, ?Nat.add_0_r, ?orb_false_r.
    destruct (firstRejectionLogged s); rewrite ?app_nil_r; repeat split; reflexivity.
  - cbn [fold_left map].
    destruct (processPoint_spec ty s el) as (P1 & P2 & P3 & P4 & P5 & P6).
    destruct (IH (processPoint ty s el)) as (I1 & I2 & I3 & I4 & I5 & I6).
    cbv zeta in P1, P2, P3, P4, P5, P6, I1, I2, I3, I4, I5, I6.
    split; [|split; [|split; [|split; [|split]]]].
    + rewrite I1, P1, P2, <- app_assoc. f_equal.
      cbn [parseFrom]. destruct (point (parsePointElement el (globalIndex s) ty));
        reflexivity.
    + rewrite I2, P2. cbn [length]. lia.
    + now rewrite I3, P3.
    + rewrite I4, P4. cbn [filter]. destruct (rejected (ty, el)); cbn [length]; lia.
    + rewrite I5, P5. cbn [existsb]. rewrite orb_false_r. now rewrite orb_assoc.
    + rewrite I6, P6, P5, P2, <- app_assoc. f_equal.
      destruct (firstRejectionLogged s); cbn [orb]; [reflexivity|].
      unfold rejected at 1. cbn [existsb firstRejected snd orb].
      destruct (accepted el); cbn [negb orb logLines app]; rewrite ?app_nil_r;
        reflexivity.
Qed.

Lemma processGroup_spec ty els s :
  let s' := processGroup ty s els in
  let elements := map (pair ty) els in
  collected s' = collected s ++ parseFrom (globalIndex s) elements /\
  globalIndex s' = (globalIndex s + length elements)%nat /\
  total s' = (total s + length elements)%nat /\
  discarded s' = (discarded s + length (filter rejected elements))%nat /\
  firstRejectionLogged s' = firstRejectionLogged s || existsb rejected elements /\
  console s' = console s ++ (if firstRejectionLogged s then []
                             else logLines (firstRejected (globalIndex s) elements)).
Proof.
  unfold processGroup. cbv zeta.
  destruct (processPoints_spec ty els
              (mkState (collected s) (globalIndex s) (total s + length els) (discarded s)
                       (firstRejectionLogged s) (console s)))
    as (I1 & I2 & I3 & I4 & I5 & I6).
  cbv zeta in *. cbn [collected globalIndex total discarded firstRejectionLogged console] in *.
  rewrite length_map. rewrite length_map in I2.
  repeat split; assumption.
Qed.

(** The whole document. *)
Lemma parseDocument_spec xmlDoc :
  let s := parseDocument xmlDoc in
  let elements := elementsOf xmlDoc in
  collected s = parseFrom 0 elements /\
  globalIndex s = length elements /\
  total s = length elements /\
  discarded s = length (filter rejected elements) /\
  firstRejectionLogged s = existsb rejected elements /\
  console s = logLines (firstRejected 0 elements).
Proof.
  cbv zeta. unfold parseDocument, elementsOf.
  destruct (processGroup_spec wpt (waypoints xmlDoc) init) as (A1 & A2 & A3 & A4 & A5 & A6).
  set (s1 := processGroup wpt init (waypoints xmlDoc)) in *.
  destruct (processGroup_spec rtept (routePoints xmlDoc) s1) as (B1 & B2 & B3 & B4 & B5 & B6).
  set (s2 := processGroup rtept s1 (routePoints xmlDoc)) in *.
  destruct (processGroup_spec trkpt (trackPoints xmlDoc) s2) as (C1 & C2 & C3 & C4 & C5 & C6).
  cbv zeta in A1, A2, A3, A4, A5, A6, B1, B2, B3, B4, B5, B6, C1, C2, C3, C4, C5, C6.
  cbn [init collected globalIndex total discarded firstRejectionLogged console
       app Nat.add orb] in A1, A2, A3, A4, A5, A6.
  rewrite !parseFrom_app, !firstRejected_app, !filter_app, !existsb_app, !length_app.
  rewrite C1, C2, C3, C4, C5, C6, B1, B2, B3, B4, B5, B6, A1, A2, A3, A4, A5, A6.
  cbn [Nat.add].
  split; [|split; [|split; [|split; [|split]]]].
  - now rewrite <- app_assoc.
  - lia.
  - lia.
  - lia.
  - now rewrite orb_assoc.
  - rewrite <- (logLines_first 0 (map (pair wpt) (waypoints xmlDoc))).
    rewrite <- (logLines_first (length (map (pair wpt) (waypoints xmlDoc)))
                               (map (pair rtept) (routePoints xmlDoc))).
    destruct (existsb rejected (map (pair wpt) (waypoints xmlDoc))),
             (existsb rejected (map (pair rtept) (routePoints xmlDoc)));
      cbn [orb]; rewrite ?app_nil_r, <- ?app_assoc; reflexivity.
Qed.

End IngestionFacts.

Section IngestionReport.
Context {B : Ingestion.Browser}.
Import Ingestion.
Local Open Scope float_scope.

Lemma accepted_in_range el :
  accepted el = true ->
  let latitude := parseFloatOf (attrLat el) in
  let longitude := parseFloatOf (attrLon el) in
  isFinite latitude = true /\ isFinite longitude = true /\
  le (-90) latitude = true /\ le latitude 90 = true /\
  le (-180) longitude = true /\ le longitude 180 = true.
Proof.
  cbv zeta. unfold accepted, outOfRange, isNaN, isFinite, gt, le. cbv zeta.
  intros Hacc. apply andb_prop in Hacc. destruct Hacc as [Hnan Hrange].
  apply negb_true_iff, orb_false_elim in Hnan. destruct Hnan as [Hlat Hlon].
  apply negb_true_iff, orb_false_elim in Hrange. destruct Hrange as [Hfin Hout].
  apply orb_false_elim in Hfin. destruct Hfin as [Hflat Hflon].
  apply negb_false_iff in Hflat, Hflon.
  apply orb_false_elim in Hout. destruct Hout as [Hout H4].
  apply orb_false_elim in Hout. destruct Hout as [Hout H3].
  apply orb_false_elim in Hout. destruct Hout as [H1 H2].
  repeat split; try assumption; apply DoubleOrder.not_ltb_leb; auto.
Qed.

Lemma parsePointElement_wellFormed el i ty p :
  point (parsePointElement el i ty) = Some p ->
  accepted el = true /\ index p = i /\ pointType p = ty /\ wellFormed p.
Proof.
  intros Hp. pose proof (parsePointElement_point el i ty) as Hpoint.
  rewrite Hp in Hpoint. destruct Hpoint as (Hacc & Hi & Hty).
  split; [exact Hacc|]. split; [exact Hi|]. split; [exact Hty|].
  pose proof (accepted_in_range el Hacc) as Hrange. cbv zeta in Hrange.
  revert Hp. unfold parsePointElement. cbv zeta.
  destruct (isNaN (parseFloatOf (attrLat el)) || isNaN (parseFloatOf (attrLon el)));
    [discriminate|].
  destruct (negb (isFinite (parseFloatOf (attrLat el)))
            || negb (isFinite (parseFloatOf (attrLon el)))
            || outOfRange (parseFloatOf (attrLat el)) (parseFloatOf (attrLon el)));
    [discriminate|].
  cbn [point]. intros Hp. injection Hp as <-.
  unfold wellFormed. cbn [lat lon ele timeRaw].
  destruct Hrange as (R1 & R2 & R3 & R4 & R5 & R6).
  repeat split; try assumption.
  - intros e. destruct (eleText el) as [text|]; cbn [option_map]; [|discriminate].
    destruct (isNaN (parseFloat text)) eqn:Hnan; cbn [negb]; [discriminate|].
    intros He. injection He as <-. exact Hnan.
  - destruct (timeText el) as [text|]; [|discriminate].
    destruct (String.eqb_spec (trim text) ""%string) as [Heq|Hne]; [discriminate|].
    intros Ht. injection Ht as Ht. contradiction.
Qed.

Lemma parseFrom_In l :
  forall k p, In p (parseFrom k l) ->
    exists ty el i, In (ty, el) l /\ point (parsePointElement el i ty) = Some p.
Proof.
  induction l as [|[ty el] l IH]; intros k p Hin; [destruct Hin|].
  cbn [parseFrom] in Hin.
  destruct (point (parsePointElement el k ty)) as [p0|] eqn:Hp.
  - destruct Hin as [<-|Hin].
    + exists ty, el, k. split; [now left | exact Hp].
    + destruct (IH _ _ Hin) as (ty' & el' & i & Hin' & Hp').
      exists ty', el', i. split; [now right | exact Hp'].
  - destruct (IH _ _ Hin) as (ty' & el' & i & Hin' & Hp').
    exists ty', el', i. split; [now right | exact Hp'].
Qed.

Lemma parseFrom_length l :
  forall k, length (parseFrom k l) = length (filter (fun e => accepted (snd e)) l).
Proof.
  induction l as [|[ty el] l IH]; intros k; [reflexivity|].
  cbn [parseFrom filter snd].
  pose proof (parsePointElement_point el k ty) as Hpoint.
  destruct (point (parsePointElement el k ty)) as [p|].
  - destruct Hpoint as (-> & _). cbn [length]. now rewrite IH.
  - rewrite Hpoint. apply IH.
Qed.

Lemma parseFrom_types l :
  forall k, map pointType (parseFrom k l)
            = map fst (filter (fun e => accepted (snd e)) l).
Proof.
  induction l as [|[ty el] l IH]; intros k; [reflexivity|].
  cbn [parseFrom filter snd].
  pose proof (parsePointElement_point el k ty) as Hpoint.
  destruct (point (parsePointElement el k ty)) as [p|].
  - destruct Hpoint as (-> & _ & Hty). cbn [map fst]. now rewrite IH, Hty.
  - rewrite Hpoint. apply IH.
Qed.

Lemma parseFrom_indices l :
  forall k,
    StronglySorted lt (map index (parseFrom k l)) /\
    Forall (fun i => k <= i < k + length l)%nat (map index (parseFrom k l)).
Proof.
  induction l as [|[ty el] l IH]; intros k.
  - split; constructor.
  - destruct (IH (k + 1)%nat) as (Hs & Hb).
    assert (Hb' : Forall (fun i => k <= i < k + length ((ty, el) :: l))%nat
                         (map index (parseFrom (k + 1) l))).
    { eapply Forall_impl; [|exact Hb]. cbn [length]. intros i Hi. lia. }
    cbn [parseFrom].
    pose proof (parsePointElement_point el k ty) as Hpoint.
    destruct (point (parsePointElement el k ty)) as [p|]; [|split; assumption].
    destruct Hpoint as (_ & Hi & _). cbn [map]. rewrite Hi. split.
    + constructor; [exact Hs|].
      eapply Forall_impl; [|exact Hb]. intros i Hi'. cbn beta in Hi'. lia.
    + constructor; [cbn [length]; lia | exact Hb'].
Qed.

Lemma parseFrom_positions l :
  forall k j p,
    nth_error (parseFrom k l) j = Some p ->
    (k + j <= index p <= k + j + length (filter rejected l))%nat.
Proof.
  induction l as [|[ty el] l IH]; intros k j p Hnth.
  - destruct j; discriminate.
  - cbn [parseFrom] in Hnth. cbn [filter]. unfold rejected at 1. cbn [snd].
    pose proof (parsePointElement_point el k ty) as Hpoint.
    destruct (point (parsePointElement el k ty)) as [p0|].
    + destruct Hpoint as (-> & Hi & _). cbn [negb].
      destruct j as [|j]; cbn [nth_error] in Hnth.
      * injection Hnth as <-. lia.
      * specialize (IH _ _ _ Hnth). lia.
    + rewrite Hpoint. cbn [negb length]. specialize (IH _ _ _ Hnth). lia.
Qed.

(** A returned point stands for the element at the position its index
    names, and every accepted element is returned under its position. *)
Lemma parseFrom_element l :
  forall k p,
    In p (parseFrom k l) <->
    exists ty el,
      (k <= index p)%nat /\ nth_error l (index p - k) = Some (ty, el) /\
      point (parsePointElement el (index p) ty) = Some p.
Proof.
  induction l as [|[ty el] l IH]; intros k p.
  - split; [intros [] | intros (ty & el & _ & Hnth & _)].
    destruct (index p - k)%nat; discriminate.
  - assert (Htail : In p (parseFrom (k + 1) l) <->
                    exists ty' el',
                      (k + 1 <= index p)%nat /\
                      nth_error ((ty, el) :: l) (index p - k) = Some (ty', el') /\
                      point (parsePointElement el' (index p) ty') = Some p).
    { rewrite IH. split; intros (ty' & el' & Hk & Hnth & Hp); exists ty', el';
        (split; [exact Hk|]); (split; [|exact Hp]);
        replace (index p - k)%nat with (S (index p - (k + 1))) in * by lia;
        exact Hnth. }
    cbn [parseFrom].
    pose proof (parsePointElement_point el k ty) as Hpoint.
    destruct (point (parsePointElement el k ty)) as [p0|] eqn:Hp0.
    + destruct Hpoint as (_ & Hi0 & _). cbn [In]. rewrite Htail. split.
      * intros [<-|(ty' & el' & Hk & Hnth & Hp)].
        -- exists ty, el. rewrite Hi0, Nat.sub_diag. repeat split; [lia | exact Hp0].
        -- exists ty', el'. repeat split; (lia || assumption).
      * intros (ty' & el' & Hk & Hnth & Hp).
        destruct (Nat.eq_dec (index p) k) as [Heq|Hneq].
        -- left. rewrite Heq, Nat.sub_diag in Hnth. cbn [nth_error] in Hnth.
           injection Hnth as <- <-. rewrite Heq in Hp. congruence.
        -- right. exists ty', el'. repeat split; (lia || assumption).
    + rewrite Htail. split.
      * intros (ty' & el' & Hk & Hnth & Hp). exists ty', el'.
        repeat split; (lia || assumption).
      * intros (ty' & el' & Hk & Hnth & Hp).
        destruct (Nat.eq_dec (index p) k) as [Heq|Hneq].
        -- rewrite Heq, Nat.sub_diag in Hnth. cbn [nth_error] in Hnth.
           injection Hnth as <- <-. rewrite Heq in Hp. congruence.
        -- exists ty', el'. repeat split; (lia || assumption).
Qed.

(** The index of the point at position [j] is [j] plus the number of
    elements rejected before its own. *)
Lemma parseFrom_offset l :
  forall k j p,
    nth_error (parseFrom k l) j = Some p ->
    index p = (k + j + length (filter rejected (firstn (index p - k) l)))%nat.
Proof.
  induction l as [|[ty el] l IH]; intros k j p Hnth.
  - destruct j; discriminate.
  - cbn [parseFrom] in Hnth.
    pose proof (parsePointElement_point el k ty) as Hpoint.
    destruct (point (parsePointElement el k ty)) as [p0|].
    + destruct Hpoint as (Hacc & Hi & _).
      destruct j as [|j]; cbn [nth_error] in Hnth.
      * injection Hnth as <-. rewrite Hi, Nat.sub_diag. cbn [firstn filter length]. lia.
      * specialize (IH _ _ _ Hnth).
        replace (index p - k)%nat with (S (index p - (k + 1))) by lia.
        cbn [firstn filter]. unfold rejected at 1. cbn [snd]. rewrite Hacc.
        cbn [negb]. lia.
    + specialize (IH _ _ _ Hnth).
      replace (index p - k)%nat with (S (index p - (k + 1))) by lia.
      cbn [firstn filter]. unfold rejected at 1. cbn [snd]. rewrite Hpoint.
      cbn [negb length]. lia.
Qed.

Lemma parseFrom_none_rejected l :
  forall k, filter rejected l = [] ->
            map index (parseFrom k l) = seq k (length l).
Proof.
  induction l as [|[ty el] l IH]; intros k; [reflexivity|].
  cbn [filter parseFrom length seq]. unfold rejected at 1. cbn [snd].
  pose proof (parsePointElement_point el k ty) as Hpoint.
  destruct (point (parsePointElement el k ty)) as [p|].
  - destruct Hpoint as (-> & Hi & _). cbn [negb map]. intros Hnone.
    rewrite Hi, (IH (k + 1)%nat Hnone). f_equal. f_equal. lia.
  - rewrite Hpoint. cbn [negb]. discriminate.
Qed.

Lemma accepted_rejected_partition (l : list (PointType * PointElement Node)) :
  (length (filter rejected l) + length (filter (fun e => accepted (snd e)) l)
   = length l)%nat.
Proof.
  induction l as [|e l IH]; [reflexivity|].
  cbn [filter]. unfold rejected at 1.
  destruct (accepted (snd e)); cbn [negb length]; lia.
Qed.

Context {P : Ingestion.DomParser}.

(** X23.  [parseGPX] throws exactly when the document holds a
    [parsererror], with its text in the message.  Otherwise it returns the
    points of the accepted elements, waypoints first, then route points,
    then track points, each in document order; every returned point has
    finite coordinates in range; and the statistics add up: every element
    found is either discarded or among the remaining points. *)
Theorem parseGPX_collects_the_accepted_elements (gpxString : string) :
  let xmlDoc := parseFromString gpxString in
  let elements := elementsOf xmlDoc in
  match parseGPX gpxString with
  | Threw message =>
      exists text, parsererror xmlDoc = Some text /\
                   message = ("GPX parsing error: " ++ text)%string
  | Returned r =>
      parsererror xmlDoc = None /\
      points r = parseFrom 0 elements /\
      Forall wellFormed (points r) /\
      totalPointsFound (stats r)
      = (length (waypoints xmlDoc) + length (routePoints xmlDoc)
         + length (trackPoints xmlDoc))%nat /\
      remainingPoints (stats r) = length (points r) /\
      remainingPoints (stats r) = length (filter (fun e => accepted (snd e)) elements) /\
      pointsDiscarded (stats r) = length (filter rejected elements) /\
      (pointsDiscarded (stats r) + remainingPoints (stats r)
       = totalPointsFound (stats r))%nat
  end.
Proof.
  cbv zeta. unfold parseGPX.
  destruct (parsererror (parseFromString gpxString)) as [text|] eqn:Herr.
  - now exists text.
  - destruct (parseDocument_spec (parseFromString gpxString))
      as (S1 & _ & S3 & S4 & _ & _).
    cbv zeta in S1, S3, S4. cbn [points stats totalPointsFound pointsDiscarded remainingPoints].
    rewrite S1, S3, S4, parseFrom_length.
    split; [reflexivity|]. split; [reflexivity|]. split; [|split; [|repeat split]].
    + apply Forall_forall. intros p Hp. apply parseFrom_In in Hp.
      destruct Hp as (ty & el & i & _ & Hp).
      now apply parsePointElement_wellFormed in Hp.
    + unfold elementsOf. rewrite !length_app, !length_map. lia.
    + apply accepted_rejected_partition.
Qed.

(** X24.  The [index] of a returned point is the position of its element
    among all the elements found, not its position among the returned
    points: a point is returned exactly when the element at the position
    its index names is accepted, and it is the point [parsePointElement]
    makes of that element at that position; the index of the point at
    position [j] is [j] plus the number of elements rejected before its
    element.  So indices increase strictly along [points], stay below
    [totalPointsFound], lie between [j] and [j + pointsDiscarded], and
    coincide with the positions everywhere when nothing was discarded; and
    the types come in the order [wpt], [rtept], [trkpt]. *)
Theorem parseGPX_indices_are_document_positions (gpxString : string) :
  let elements := elementsOf (parseFromString gpxString) in
  match parseGPX gpxString with
  | Threw _ => True
  | Returned r =>
      (forall p,
          In p (points r) <->
          exists ty el,
            nth_error elements (index p) = Some (ty, el) /\
            point (parsePointElement el (index p) ty) = Some p) /\
      (forall j p,
          nth_error (points r) j = Some p ->
          index p = (j + length (filter rejected (firstn (index p) elements)))%nat) /\
      StronglySorted lt (map index (points r)) /\
      Forall (fun p => (index p < totalPointsFound (stats r))%nat) (points r) /\
      (forall j p, nth_error (points r) j = Some p ->
                   (j <= index p <= j + pointsDiscarded (stats r))%nat) /\
      (pointsDiscarded (stats r) = 0%nat ->
       map index (points r) = seq 0 (length (points r))) /\
      exists a b c,
        map pointType (points r) = repeat wpt a ++ repeat rtept b ++ repeat trkpt c
  end.
Proof.
  cbv zeta. unfold parseGPX.
  destruct (parsererror (parseFromString gpxString)) as [text|]; [exact I|].
  destruct (parseDocument_spec (parseFromString gpxString)) as (S1 & _ & S3 & S4 & _ & _).
  cbv zeta in S1, S3, S4. cbn [points stats totalPointsFound pointsDiscarded].
  rewrite S1, S3, S4.
  set (elements := elementsOf (parseFromString gpxString)).
  destruct (parseFrom_indices elements 0) as (Hsorted & Hbound).
  split; [|split; [|split; [exact Hsorted|]]].
  - intros p. rewrite (parseFrom_element elements 0 p), Nat.sub_0_r.
    split; intros (ty & el & H1 & H2); exists ty, el.
    + exact H2.
    + split; [lia|]. split; [exact H1 | exact H2].
  - intros j p Hnth. apply (parseFrom_offset elements 0) in Hnth.
    rewrite Nat.sub_0_r in Hnth. exact Hnth.
  - split; [|split; [|split]].
    + rewrite Forall_map in Hbound. eapply Forall_impl; [|exact Hbound].
      intros p Hp. cbn beta in Hp. lia.
    + intros j p Hnth. apply (parseFrom_positions elements 0) in Hnth. lia.
    + intros Hnone. apply length_zero_iff_nil in Hnone.
      rewrite (parseFrom_none_rejected elements 0 Hnone), parseFrom_length.
      pose proof (accepted_rejected_partition elements) as Hpart.
      rewrite Hnone in Hpart. cbn [length Nat.add] in Hpart. now rewrite Hpart.
    + rewrite parseFrom_types. subst elements. unfold elementsOf.
      rewrite !filter_app, !map_app.
      assert (Htype : forall ty els,
                 map fst (filter (fun e : PointType * PointElement Node => accepted (snd e))
                                 (map (pair ty) els))
                 = repeat ty (length (filter accepted els))).
      { intros ty els. induction els as [|el els IH]; [reflexivity|].
        cbn [map filter snd]. destruct (accepted el); cbn [map fst length repeat];
          now rewrite IH. }
      rewrite !Htype. eauto.
Qed.

(** X25.  [parseGPX] prints the raw data and the reason of the first
    element rejected, in the order the elements are visited, and nothing
    else: nothing at all when no element is rejected. *)
Theorem parseGPX_logs_the_first_rejection_only (gpxString : string) :
  let xmlDoc := parseFromString gpxString in
  match parseGPX gpxString with
  | Threw _ => consoleOf gpxString = []
  | Returned r =>
      consoleOf gpxString = logLines (firstRejected 0 (elementsOf xmlDoc)) /\
      (consoleOf gpxString = [] <-> pointsDiscarded (stats r) = 0%nat) /\
      (pointsDiscarded (stats r) <> 0%nat ->
       exists pre ty el post,
         elementsOf xmlDoc = pre ++ (ty, el) :: post /\
         Forall (fun e => accepted (snd e) = true) pre /\
         accepted el = false /\
         consoleOf gpxString
         = [FirstRejectedPoint (rawData (parsePointElement el (length pre) ty));
            RejectionReasonLine (rejectionReason (parsePointElement el (length pre) ty))])
  end.
Proof.
  cbv zeta. unfold parseGPX, consoleOf.
  destruct (parsererror (parseFromString gpxString)) as [text|]; [reflexivity|].
  destruct (parseDocument_spec (parseFromString gpxString)) as (_ & _ & _ & S4 & _ & S6).
  cbv zeta in S4, S6. cbn [stats pointsDiscarded]. rewrite S4, S6.
  set (elements := elementsOf (parseFromString gpxString)).
  assert (Hfirst : forall l k,
             match firstRejected k l with
             | None => filter rejected l = []
             | Some o =>
                 exists pre ty el post,
                   l = pre ++ (ty, el) :: post /\
                   Forall (fun e => accepted (snd e) = true) pre /\
                   accepted el = false /\
                   o = parsePointElement el (k + length pre) ty
             end).
  { induction l as [|[ty el] l IH]; intros k; [reflexivity|].
    cbn [firstRejected filter]. unfold rejected at 1. cbn [snd].
    destruct (accepted el) eqn:Hacc; cbn [negb].
    - specialize (IH (k + 1)%nat).
      destruct (firstRejected (k + 1) l) as [o|]; [|exact IH].
      destruct IH as (pre & ty' & el' & post & -> & Hpre & Hrej & ->).
      exists ((ty, el) :: pre), ty', el', post. cbn [app length].
      repeat split; auto. f_equal. lia.
    - exists [], ty, el, l. cbn [app length]. rewrite Nat.add_0_r. auto. }
  specialize (Hfirst elements 0%nat).
  split; [reflexivity|].
  destruct (firstRejected 0 elements) as [o|].
  - destruct Hfirst as (pre & ty & el & post & Hsplit & Hpre & Hrej & ->).
    assert (Hpos : length (filter rejected elements) <> 0%nat).
    { rewrite Hsplit, filter_app, length_app. cbn [filter]. unfold rejected at 2.
      cbn [snd]. rewrite Hrej. cbn [negb length]. lia. }
    split; [split; [discriminate | intros Hz; now elim Hpos]|].
    intros _. exists pre, ty, el, post. cbn [logLines Nat.add]. auto.
  - rewrite Hfirst. cbn [logLines length].
    split; [split; reflexivity | intros Hne; now elim Hne].
Qed.

End IngestionReport.
(* ================================================================== *)
(** * The embedding on sample data *)
(* ================================================================== *)

Lemma auditTimestamps_counts_depend_on_time_values_only_witness :
  timeline (E := RefEngine.engine) Tracks.jumpy
  = timeline (E := RefEngine.engine) Tracks.jumpyTimesOnly /\
  let m := TimestampAudit.auditTimestamps (E := RefEngine.engine) (H := UtcHost.host)
                                          Tracks.jumpy in
  let m' := TimestampAudit.auditTimestamps (E := RefEngine.engine) (H := UtcHost.host)
                                           Tracks.jumpyTimesOnly in
  TimestampAudit.duplicateTimestampCount m = TimestampAudit.duplicateTimestampCount m' /\
  TimestampAudit.backwardTimestampCount m = TimestampAudit.backwardTimestampCount m' /\
  TimestampAudit.strictlyIncreasingCount m = TimestampAudit.strictlyIncreasingCount m' /\
  TimestampAudit.maxBackwardJumpMs m = TimestampAudit.maxBackwardJumpMs m'.
Proof.
  split; [vm_compute; reflexivity|].
  apply (auditTimestamps_counts_depend_on_time_values_only
           (E := RefEngine.engine) (H := UtcHost.host)).
  vm_compute. reflexivity.
Defined.

Lemma flagged_times_are_HH_MM_SS_witness :
  Date_parse (Engine := RefEngine.engine) ""%string = None /\
  let m := TimestampAudit.auditTimestamps (E := RefEngine.engine) (H := UtcHost.host)
                                          Tracks.jumpy in
  let showsTimeOf := TimestampAudit.showsTimeOf (E := RefEngine.engine) (H := UtcHost.host)
                                                Tracks.jumpy in
  Forall (fun e => (exists k, TimestampAudit.backwardPrevIndex e = Some k /\
                              showsTimeOf k (TimestampAudit.prevTime e)) /\
                   showsTimeOf (TimestampAudit.backwardIndex e) (TimestampAudit.currTime e))
         (TimestampAudit.backwardTimestampEvents m) /\
  Forall (fun e => showsTimeOf (TimestampAudit.duplicateIndex e) (TimestampAudit.time e))
         (TimestampAudit.duplicateTimestampEvents m).
Proof.
  split; [reflexivity|].
  apply (flagged_times_are_HH_MM_SS (E := RefEngine.engine) (H := UtcHost.host)).
  reflexivity.
Defined.

Lemma medianDeltaMs_is_a_median_witness :
  let r := auditSampling (E := RefEngine.engine) Tracks.jumpy in
  let deltas := timeDeltasMs r in
  let atOrBelow x := length (filter (fun d => (d <=? x)%Z) deltas) in
  let atOrAbove x := length (filter (fun d => (x <=? d)%Z) deltas) in
  deltas <> [] /\
  if Nat.even (length deltas)
  then exists a b,
         medianDeltaMs r = Some ((Number_of_Z a + Number_of_Z b) / 2)%float /\
         In a deltas /\ In b deltas /\ (a <= b)%Z /\
         (length deltas <= 2 * atOrBelow a)%nat /\
         (length deltas <= 2 * atOrAbove b)%nat
  else exists d,
         medianDeltaMs r = Some (Number_of_Z d) /\
         In d deltas /\
         (length deltas < 2 * atOrBelow d)%nat /\
         (length deltas < 2 * atOrAbove d)%nat.
Proof.
  cbv zeta. split; [vm_compute; discriminate|].
  apply (medianDeltaMs_is_a_median (E := RefEngine.engine) Tracks.jumpy).
  vm_compute. discriminate.
Defined.

Lemma computeKDE_constant_series_is_flat_witness :
  In 5%float Tracks.steady /\
  validDatum 5 = true /\
  (forall d, In d Tracks.steady -> validDatum d = true -> d = 5%float) /\
  is_finite (Math_log (E := RefEngine.engine) 5) = true /\
  Math_min (validDataLogOf (E := RefEngine.engine) Tracks.steady)
  = Math_log (E := RefEngine.engine) 5 /\
  Math_max (validDataLogOf (E := RefEngine.engine) Tracks.steady)
  = Math_log (E := RefEngine.engine) 5 /\
  (acceptsArguments (Engine := RefEngine.engine)
                    (length (filter validDatum Tracks.steady)) = false ->
   computeKDE (E := RefEngine.engine) Tracks.steady 0.5 200 = Throw RangeError /\
   peaksOfKDE (E := RefEngine.engine) Tracks.steady 0.5 200 = Throw RangeError) /\
  (acceptsArguments (Engine := RefEngine.engine)
                    (length (filter validDatum Tracks.steady)) = true ->
   (exists p,
       computeKDE (E := RefEngine.engine) Tracks.steady 0.5 200 = Normal (repeat p 200) /\
       xLog p = (Math_log (E := RefEngine.engine) 5 + 0)%float /\
       xLinear p = Math_exp (E := RefEngine.engine)
                            (Math_log (E := RefEngine.engine) 5 + 0)%float) /\
   peaksOfKDE (E := RefEngine.engine) Tracks.steady 0.5 200 = Normal []).
Proof.
  assert (Hin : In 5%float Tracks.steady) by (now left).
  assert (Hv : validDatum 5 = true) by reflexivity.
  assert (Hall : forall d, In d Tracks.steady -> validDatum d = true -> d = 5%float).
  { intros d [<-|[<-|[<-|[<-|[<-|[<-|[]]]]]]] Hd; try reflexivity; discriminate Hd. }
  assert (Hfin : is_finite (Math_log (E := RefEngine.engine) 5) = true)
    by (vm_compute; reflexivity).
  split; [exact Hin|]. split; [exact Hv|]. split; [exact Hall|]. split; [exact Hfin|].
  exact (computeKDE_constant_series_is_flat (E := RefEngine.engine) Tracks.steady 5 0.5
                                            Hin Hv Hall Hfin).
Defined.

Lemma geometry_only_series_ignores_timestamps_witness :
  coordinates Tracks.jumpy = coordinates Tracks.jumpyUntimed /\
  let r := auditSampling (E := RefEngine.engine) Tracks.jumpy in
  let r' := auditSampling (E := RefEngine.engine) Tracks.jumpyUntimed in
  distanceDeltasMGeometryOnly r = distanceDeltasMGeometryOnly r' /\
  consecutivePointPairsConsidered r = consecutivePointPairsConsidered r' /\
  rejectedDistanceInvalidOrZero r = rejectedDistanceInvalidOrZero r'.
Proof.
  split; [reflexivity|].
  apply (geometry_only_series_ignores_timestamps (E := RefEngine.engine)).
  reflexivity.
Defined.

Lemma time_series_depend_on_time_values_only_witness :
  timeline (E := RefEngine.engine) Tracks.jumpy
  = timeline (E := RefEngine.engine) Tracks.jumpyTimesOnly /\
  let r := auditSampling (E := RefEngine.engine) Tracks.jumpy in
  let r' := auditSampling (E := RefEngine.engine) Tracks.jumpyTimesOnly in
  timeDeltasMs r = timeDeltasMs r' /\
  totalDeltaCount r = totalDeltaCount r' /\
  minDeltaMs r = minDeltaMs r' /\
  maxDeltaMs r = maxDeltaMs r' /\
  medianDeltaMs r = medianDeltaMs r' /\
  hasTimeProgression r = hasTimeProgression r' /\
  hasValidTimestamps r = hasValidTimestamps r' /\
  rejectedTimestampPairsDeltaLeqZero r = rejectedTimestampPairsDeltaLeqZero r'.
Proof.
  split; [vm_compute; reflexivity|].
  apply (time_series_depend_on_time_values_only (E := RefEngine.engine)).
  vm_compute. reflexivity.
Defined.

(** [jumpy] through the timestamp audit, on the reference engine and UTC. *)
Example auditTimestamps_jumpy_track :
  TimestampAudit.auditTimestamps (E := RefEngine.engine) (H := UtcHost.host) Tracks.jumpy
  = TimestampAudit.mkAuditMetadata
      8 1 1 1 2 2 (Some 15000%Z)
      [TimestampAudit.mkBackward 5 (Some 4%nat) "10:00:05" "09:59:50";
       TimestampAudit.mkBackward 7 (Some 6%nat) "10:00:10" "10:00:08"]
      [TimestampAudit.mkDuplicate 4 (Some 2%nat) "10:00:05"].
Proof. vm_compute. reflexivity. Qed.

(** [jumpy] through the sampling audit: two positive deltas, three
    rejected pairs. *)
Example auditSampling_jumpy_track :
  timeDeltasMs (auditSampling (E := RefEngine.engine) Tracks.jumpy) = [5000; 20000]%Z /\
  minDeltaMs (auditSampling (E := RefEngine.engine) Tracks.jumpy) = Some 5000%Z /\
  maxDeltaMs (auditSampling (E := RefEngine.engine) Tracks.jumpy) = Some 20000%Z /\
  medianDeltaMs (auditSampling (E := RefEngine.engine) Tracks.jumpy) = Some 12500%float /\
  nonPositiveTimeDeltaEvents (auditSampling (E := RefEngine.engine) Tracks.jumpy)
  = [mkEvent 4 (Some 2%nat) 0; mkEvent 5 (Some 4%nat) (-15000); mkEvent 7 (Some 6%nat) (-2000)] /\
  jointPairsWithBothTimestamps (auditSampling (E := RefEngine.engine) Tracks.jumpy) = 5%nat /\
  jointRejectedMissingTimestamp (auditSampling (E := RefEngine.engine) Tracks.jumpy) = 2%nat /\
  jointRejectedNonPositiveDt (auditSampling (E := RefEngine.engine) Tracks.jumpy) = 3%nat /\
  length (timeDistancePairs (auditSampling (E := RefEngine.engine) Tracks.jumpy)) = 2%nat.
Proof. repeat split; vm_compute; reflexivity. Qed.

(** The sample document through ingestion: of five elements three are
    kept, with the indices 0, 1 and 4; the first rejection is printed. *)
Example parseDocument_sample_document :
  let s := Ingestion.parseDocument (B := RefBrowser.browser) Tracks.document in
  Ingestion.collected s
  = [ Ingestion.mkGpxPoint 0 Ingestion.wpt 47.5 8.25 (Some 431.5%float) None None;
      Ingestion.mkGpxPoint 1 Ingestion.trkpt 47.5 8.5 None
                           (Some "2024-01-01T10:00:00Z"%string) None;
      Ingestion.mkGpxPoint 4 Ingestion.trkpt (-47.5) (-8.5) None None
                           (Some "<extensions/>"%string) ] /\
  Ingestion.total s = 5%nat /\
  Ingestion.discarded s = 2%nat /\
  Ingestion.console s
  = [ Ingestion.FirstRejectedPoint
        (Some (Ingestion.mkRawData Ingestion.trkpt 2 (Some "91"%string) (Some "8.5"%string)
                                   None (Some "2024-01-01T10:00:05Z"%string)));
      Ingestion.RejectionReasonLine (Some (Ingestion.OutOfRangeOrNonFinite 91 8.5)) ].
Proof. cbv zeta. repeat split; vm_compute; reflexivity. Qed.

(** On a clock that stands still the earlier revision returns no distance,
    the current one the distance between the two points. *)
Example revisions_on_a_frozen_clock :
  hasValidTimestamps (auditSampling (E := RefEngine.engine) Tracks.frozenClock) = true /\
  hasTimeProgression (auditSampling (E := RefEngine.engine) Tracks.frozenClock) = false /\
  Earlier.distanceDeltasM (Earlier.auditSampling (E := RefEngine.engine) Tracks.frozenClock)
  = [] /\
  length (distanceDeltasM (auditSampling (E := RefEngine.engine) Tracks.frozenClock))
  = 1%nat.
Proof. repeat split; vm_compute; reflexivity. Qed.
